(** * Whiteboard: the per-user flat-file note store of server.js

    A shallow embedding of the storage layer of the Whiteboard server
    (notes kept as markdown files next to a per-user JSON index, share
    links, backup import, search and summaries) and the properties of it
    that the specification states.

    Conventions of the embedding.
    - A JavaScript string is a Rocq [string]: a sequence of 8-bit
      characters read as the code units U+0000..U+00FF.  Statements about
      [toLowerCase] are statements about strings of these characters.
    - A JSON object with optional keys is a record of [option] fields;
      [undefined] is [None]; the fields of a request have the types the
      client of the server sends.  A JavaScript object used as a
      dictionary ([database.notes], [users.json]) is a [gmap] of its own
      properties: [Object.entries] and [delete] see these only, in the
      order of [map_to_list] (no statement below depends on the order).
      Reading [object[key]] and assigning to it go through [Js.get] and
      [Js.set], which know what every object inherits from
      [Object.prototype].
    - The disk is a record of typed stores.  A JSON file is either missing,
      present with text that [JSON.parse] rejects, or present with a parsed
      document of the shape its writers produce (a database.json that
      parses holds a [notes] object); [JSON.parse] after [JSON.stringify]
      is the identity on such documents.
    - A path is kept as the names that vary in it, which stands for the
      path that [path.join] builds when each name is a directory entry of
      its own: not empty, not [.] or [..], without NUL and short enough
      for the file system ([storable]).  A statement that depends on two
      paths being different, or on a file operation that the file system
      refuses for other names, assumes it of the names involved.
    - Every [async] function is a computation [M A] that threads the disk
      and either returns or throws; [try]/[catch] is [try_catch]. *)

From Stdlib Require Import ZArith Ascii String List Lia Sorted.
From stdpp Require Import base option list gmap strings.

Local Open Scope string_scope.

(** ** JavaScript strings *)

Module Js.

(** [!s] is false exactly for the non-empty strings. *)
Definition truthy (s : string) : bool :=
  match s with
  | EmptyString => false
  | String _ _ => true
  end.

(** Truthiness of a possibly-undefined string. *)
Definition truthy_opt (o : option string) : bool :=
  match o with
  | Some s => truthy s
  | None => false
  end.

(** [a || b] on a possibly-undefined string with a string default. *)
Definition or_string (o : option string) (d : string) : string :=
  match o with
  | Some s => if truthy s then s else d
  | None => d
  end.

(** [a || []] on a possibly-undefined array (every array is truthy). *)
Definition or_list {A} (o : option (list A)) : list A :=
  match o with
  | Some l => l
  | None => []
  end.

(** [a || false] on a possibly-undefined boolean. *)
Definition or_false (o : option bool) : bool :=
  match o with
  | Some b => b
  | None => false
  end.

Definition code (c : ascii) : nat := nat_of_ascii c.

(** The characters of U+0000..U+00FF that [toLowerCase] changes:
    A-Z and the Latin-1 capitals U+00C0..U+00DE without U+00D7. *)
Definition is_upper (c : ascii) : bool :=
  let n := code c in
  (((65 <=? n) && (n <=? 90)) ||
   ((192 <=? n) && (n <=? 222) && negb (n =? 215)))%nat.

Definition lower_char (c : ascii) : ascii :=
  if is_upper c then ascii_of_nat (code c + 32) else c.

Fixpoint toLowerCase (s : string) : string :=
  match s with
  | EmptyString => EmptyString
  | String c s' => String (lower_char c) (toLowerCase s')
  end.

(** [s.includes(q)]: [q] occurs in [s] as a contiguous substring. *)
Fixpoint includes (s q : string) : bool :=
  if String.prefix q s then true
  else match s with
       | EmptyString => false
       | String _ s' => includes s' q
       end.

(** White space and line terminators of U+0000..U+00FF, as [trim]
    removes them: TAB, LF, VT, FF, CR, SP and NBSP. *)
Definition is_space (c : ascii) : bool :=
  let n := code c in
  (((9 <=? n) && (n <=? 13)) || (n =? 32) || (n =? 160))%nat.

Fixpoint trimStart (s : string) : string :=
  match s with
  | EmptyString => EmptyString
  | String c s' => if is_space c then trimStart s' else s
  end.

Fixpoint trimEnd (s : string) : string :=
  match s with
  | EmptyString => EmptyString
  | String c s' =>
      let t := trimEnd s' in
      if is_space c && negb (truthy t) then EmptyString else String c t
  end.

Definition trim (s : string) : string := trimEnd (trimStart s).

(** [s.substring(0, n)]. *)
Definition substring0 (n : nat) (s : string) : string :=
  String.substring 0 n s.

(** *** Objects used as dictionaries *)

(** The names every object inherits from [Object.prototype]: its methods,
    [constructor] and the accessor [__proto__]. *)
Definition Object_prototype : list string :=
  ["constructor"; "__defineGetter__"; "__defineSetter__"; "hasOwnProperty";
   "__lookupGetter__"; "__lookupSetter__"; "isPrototypeOf";
   "propertyIsEnumerable"; "toString"; "valueOf"; "__proto__"; "toLocaleString"].

Definition inherited (key : string) : bool :=
  bool_decide (key ∈ Object_prototype).

(** What [object[key]] finds on an object that [JSON.parse] made: the
    property of the object itself, else what [Object.prototype] has under
    that name (a function, or the prototype itself for [__proto__]: a
    truthy value without enumerable properties of its own), else
    [undefined]. *)
Inductive property (A : Type) : Type :=
| Own (a : A)
| Inherited
| Undefined.
Arguments Own {A} a.
Arguments Inherited {A}.
Arguments Undefined {A}.

Definition get {A} (object : gmap string A) (key : string) : property A :=
  match object !! key with
  | Some a => Own a
  | None => if inherited key then Inherited else Undefined
  end.

(** [object[key] = value]: the property is created or replaced.  Only
    [__proto__] on an object without such a property of its own goes to
    the accessor of [Object.prototype], which makes [value] the prototype
    and creates no property. *)
Definition set {A} (key : string) (value : A) (object : gmap string A)
  : gmap string A :=
  if String.eqb key "__proto__" && negb (bool_decide (is_Some (object !! key)))
  then object
  else <[key := value]> object.

End Js.

(** The characters of a string. *)
Definition chars (s : string) : list ascii := list_ascii_of_string s.

(** ** The summary of a note (getNotesForUser, the block that builds
       [summary]) *)

(** The class [[#*_~`\[\]]] of the first [replace]. *)
Definition is_markdown_formatting (c : ascii) : bool :=
  match c with
  | "#" | "*" | "_" | "~" | "`" | "[" | "]" => true
  | _ => false
  end%char.

(** [.replace(/[#*_~`\[\]]/g, '')] *)
Fixpoint remove_formatting (s : string) : string :=
  match s with
  | EmptyString => EmptyString
  | String c s' =>
      if is_markdown_formatting c then remove_formatting s'
      else String c (remove_formatting s')
  end.

Definition is_newline (c : ascii) : bool := (Js.code c =? 10)%nat.

(** [.replace(/\n+/g, ' ')]: every maximal run of newlines becomes one
    space.  [in_run] tells that the previous character was a newline. *)
Fixpoint newlines_to_spaces_from (in_run : bool) (s : string) : string :=
  match s with
  | EmptyString => EmptyString
  | String c s' =>
      if is_newline c then
        if in_run then newlines_to_spaces_from true s'
        else String " " (newlines_to_spaces_from true s')
      else String c (newlines_to_spaces_from false s')
  end.

Definition newlines_to_spaces (s : string) : string :=
  newlines_to_spaces_from false s.

(** The text the preview is cut from. *)
Definition plain_text (markdown : string) : string :=
  Js.trim (newlines_to_spaces (remove_formatting markdown)).

(** [let summary = ''; if (markdown) { summary = ...substring(0, 100);
    if (markdown.length > 100) summary += '...'; }] *)
Definition summary (markdown : string) : string :=
  if Js.truthy markdown then
    let summary := Js.substring0 100 (plain_text markdown) in
    if (100 <? String.length markdown)%nat then summary ++ "..." else summary
  else "".


(** ** Paths *)

Definition is_sep (c : ascii) : bool := (Js.code c =? 47)%nat.

Fixpoint drop_seps (l : list ascii) : list ascii :=
  match l with
  | c :: l' => if is_sep c then drop_seps l' else l
  | [] => []
  end.

Fixpoint take_segment (l : list ascii) : list ascii :=
  match l with
  | c :: l' => if is_sep c then [] else c :: take_segment l'
  | [] => []
  end.

(** [path.basename(p)] (POSIX): scanning from the end, the trailing
    separators are skipped and the characters up to the next separator
    are the result. *)
Definition basename (p : string) : string :=
  string_of_list_ascii
    (rev (take_segment (drop_seps (rev (list_ascii_of_string p))))).

(** The path helpers.  A path is kept as the names that vary in it: a user
    directory [DATA_DIR/<user>] as [<user>], a markdown file
    [DATA_DIR/<user>/notes/<note>.md] as the pair [(<user>, <note>)]. *)
Definition getUserDir (userId : string) : string := basename userId.
Definition getUserDatabasePath (userId : string) : string := getUserDir userId.
Definition getUserNotesDir (userId : string) : string := getUserDir userId.
Definition getNoteFilePath (userId noteId : string) : string * string :=
  (getUserNotesDir userId, basename noteId).
Definition getNoteMediaDir (userId noteId : string) : string * string :=
  (getUserNotesDir userId, basename noteId).
Definition getLegacyNoteDir (userId noteId : string) : string * string :=
  (basename userId, basename noteId).

(** The pairs above stand for the paths that [path.join] builds when the
    names in them are entries of a directory.  [path.join] resolves the
    names [""], ["."] and [".."], and the file system refuses a name that
    holds NUL or is longer than 255 bytes; the statements below that
    depend on where a path leads, or on a file being created, are about
    identifiers whose basename is none of these. *)

(** The length in UTF-8 of a string of characters up to U+00FF. *)
Fixpoint utf8_length (name : string) : nat :=
  match name with
  | EmptyString => 0
  | String c name' => (if (Js.code c <? 128)%nat then 1 else 2) + utf8_length name'
  end.

Fixpoint has_nul (name : string) : bool :=
  match name with
  | EmptyString => false
  | String c name' => (Js.code c =? 0)%nat || has_nul name'
  end.

(** A name that is one entry of a directory, also with the longest suffix
    the server appends to it ([".json"]). *)
Definition is_entry_name (name : string) : bool :=
  negb (String.eqb name "") && negb (String.eqb name ".")
  && negb (String.eqb name "..")
  && negb (has_nul name) && (utf8_length name <=? 250)%nat.

(** An identifier the store can keep files for. *)
Definition storable (id : string) : bool := is_entry_name (basename id).

(** ** Hexadecimal identifiers *)

Definition hex_digit (n : nat) : ascii :=
  match String.get n "0123456789abcdef" with
  | Some c => c
  | None => "0"%char
  end.

(** [buffer.toString('hex')], a buffer being a list of bytes. *)
Fixpoint toHex (buffer : list ascii) : string :=
  match buffer with
  | [] => EmptyString
  | b :: buffer' =>
      String (hex_digit (Js.code b / 16))
        (String (hex_digit (Js.code b mod 16)) (toHex buffer'))
  end.

(** ** Documents *)

(** A note as the server passes it around: the metadata keys and
    [markdown].  An entry of [database.notes] is such an object without
    the [markdown] key. *)
Record Note := mkNote {
  title : option string;
  markdown : option string;
  tags : option (list string);
  groups : option (list string);
  isPasswordProtected : option bool;
  password : option string;
  shareId : option string;
  createdAt : option string;
  updatedAt : option string
}.

Definition set_markdown (v : option string) (d : Note) : Note :=
  mkNote (title d) v (tags d) (groups d) (isPasswordProtected d)
         (password d) (shareId d) (createdAt d) (updatedAt d).
Definition set_groups (v : option (list string)) (d : Note) : Note :=
  mkNote (title d) (markdown d) (tags d) v (isPasswordProtected d)
         (password d) (shareId d) (createdAt d) (updatedAt d).
Definition set_password (v : option string) (d : Note) : Note :=
  mkNote (title d) (markdown d) (tags d) (groups d) (isPasswordProtected d)
         v (shareId d) (createdAt d) (updatedAt d).
Definition set_shareId (v : option string) (d : Note) : Note :=
  mkNote (title d) (markdown d) (tags d) (groups d) (isPasswordProtected d)
         (password d) v (createdAt d) (updatedAt d).
Definition set_createdAt (v : option string) (d : Note) : Note :=
  mkNote (title d) (markdown d) (tags d) (groups d) (isPasswordProtected d)
         (password d) (shareId d) v (updatedAt d).
Definition set_updatedAt (v : option string) (d : Note) : Note :=
  mkNote (title d) (markdown d) (tags d) (groups d) (isPasswordProtected d)
         (password d) (shareId d) (createdAt d) v.

(** An account of users.json. *)
Record Account := mkAccount {
  username : option string;
  account_password : option string;
  isAdmin : option bool;
  account_createdAt : option string
}.

(** A document of the shared directory. *)
Record ShareEntry := mkShareEntry {
  share_userId : string;
  share_noteId : string;
  share_createdAt : string
}.

(** The text of a JSON file on disk. *)
Inductive json (A : Type) : Type :=
| Malformed
| Parsed (a : A).
Arguments Malformed {A}.
Arguments Parsed {A} a.

(** A note directory of the two older layouts. *)
Record LegacyDir := mkLegacyDir {
  metadata_json : option (json Note);
  content_md : option string;
  note_json : option (json Note)
}.

(** ** The disk *)

Record FS := mkFS {
  users_file : option (json (gmap string Account));
  users_index_file : option (json (list string));
  user_dirs : gset string;
  notes_dirs : gset string;
  database_files : gmap string (json (gmap string Note));
  note_files : gmap (string * string) string;
  media_dirs : gmap (string * string) (list string);
  legacy_dirs : gmap (string * string) LegacyDir;
  shared_dir : bool;
  shared_files : gmap string (json ShareEntry)
}.

Definition set_users_file v (s : FS) : FS :=
  mkFS v (users_index_file s) (user_dirs s) (notes_dirs s) (database_files s)
       (note_files s) (media_dirs s) (legacy_dirs s) (shared_dir s) (shared_files s).
Definition set_users_index_file v (s : FS) : FS :=
  mkFS (users_file s) v (user_dirs s) (notes_dirs s) (database_files s)
       (note_files s) (media_dirs s) (legacy_dirs s) (shared_dir s) (shared_files s).
Definition set_user_dirs v (s : FS) : FS :=
  mkFS (users_file s) (users_index_file s) v (notes_dirs s) (database_files s)
       (note_files s) (media_dirs s) (legacy_dirs s) (shared_dir s) (shared_files s).
Definition set_notes_dirs v (s : FS) : FS :=
  mkFS (users_file s) (users_index_file s) (user_dirs s) v (database_files s)
       (note_files s) (media_dirs s) (legacy_dirs s) (shared_dir s) (shared_files s).
Definition set_database_files v (s : FS) : FS :=
  mkFS (users_file s) (users_index_file s) (user_dirs s) (notes_dirs s) v
       (note_files s) (media_dirs s) (legacy_dirs s) (shared_dir s) (shared_files s).
Definition set_note_files v (s : FS) : FS :=
  mkFS (users_file s) (users_index_file s) (user_dirs s) (notes_dirs s) (database_files s)
       v (media_dirs s) (legacy_dirs s) (shared_dir s) (shared_files s).
Definition set_media_dirs v (s : FS) : FS :=
  mkFS (users_file s) (users_index_file s) (user_dirs s) (notes_dirs s) (database_files s)
       (note_files s) v (legacy_dirs s) (shared_dir s) (shared_files s).
Definition set_shared_dir v (s : FS) : FS :=
  mkFS (users_file s) (users_index_file s) (user_dirs s) (notes_dirs s) (database_files s)
       (note_files s) (media_dirs s) (legacy_dirs s) v (shared_files s).
Definition set_shared_files v (s : FS) : FS :=
  mkFS (users_file s) (users_index_file s) (user_dirs s) (notes_dirs s) (database_files s)
       (note_files s) (media_dirs s) (legacy_dirs s) (shared_dir s) v.

(** ** Computations over the disk *)

Inductive exn : Type :=
| ENOENT        (* no such file or directory *)
| SyntaxError   (* JSON.parse *)
| TypeError.

Inductive result (A : Type) : Type :=
| Ok (a : A)
| Throw (e : exn).
Arguments Ok {A} a.
Arguments Throw {A} e.

Definition M (A : Type) : Type := FS -> FS * result A.

Definition ret {A} (a : A) : M A := fun s => (s, Ok a).
Definition throw {A} (e : exn) : M A := fun s => (s, Throw e).

Definition bind {A B} (m : M A) (k : A -> M B) : M B :=
  fun s =>
    match m s with
    | (s', Ok a) => k a s'
    | (s', Throw e) => (s', Throw e)
    end.

(** [try { m } catch (e) { h e }] *)
Definition try_catch {A} (m : M A) (h : exn -> M A) : M A :=
  fun s =>
    match m s with
    | (s', Ok a) => (s', Ok a)
    | (s', Throw e) => h e s'
    end.

Declare Scope fs_scope.
Delimit Scope fs_scope with fs.
Notation "x <~ m ;; k" := (bind m (fun x => k))
  (at level 20, m at level 99, k at level 200, only parsing) : fs_scope.
Notation "m ;; k" := (bind m (fun _ => k))
  (at level 100, k at level 200, only parsing, right associativity) : fs_scope.
Local Open Scope fs_scope.

(** [for (const x of l) { body x }] *)
Fixpoint for_each {A} (l : list A) (body : A -> M unit) : M unit :=
  match l with
  | [] => ret tt
  | x :: l' => body x ;; for_each l' body
  end.

(** *** File-system calls, one per kind of path *)

Definition readFile_text (f : option string) : result string :=
  match f with
  | Some text => Ok text
  | None => Throw ENOENT
  end.

(** [JSON.parse(await fs.readFile(path, 'utf-8'))] *)
Definition readFile_json {A} (f : option (json A)) : result A :=
  match f with
  | Some (Parsed a) => Ok a
  | Some Malformed => Throw SyntaxError
  | None => Throw ENOENT
  end.

Definition access (exists_ : bool) : result unit :=
  if exists_ then Ok tt else Throw ENOENT.

Definition read {A} (f : FS -> result A) : M A := fun s => (s, f s).
Definition write (f : FS -> FS) : M unit := fun s => (f s, Ok tt).

(** A write below a directory fails when the directory is missing. *)
Definition write_in (dir_exists : FS -> bool) (f : FS -> FS) : M unit :=
  fun s => if dir_exists s then (f s, Ok tt) else (s, Throw ENOENT).

Definition has_user_dir (dir : string) (s : FS) : bool :=
  bool_decide (dir ∈ user_dirs s).
Definition has_notes_dir (dir : string) (s : FS) : bool :=
  bool_decide (dir ∈ notes_dirs s).
Definition has_database (path : string) (s : FS) : bool :=
  bool_decide (is_Some (database_files s !! path)).
Definition has_note_file (path : string * string) (s : FS) : bool :=
  bool_decide (is_Some (note_files s !! path)).

(** [fs.mkdir(userDir, { recursive: true })] *)
Definition mkdir_user_dir (dir : string) : M unit :=
  write (fun s => set_user_dirs ({[dir]} ∪ user_dirs s) s).

(** [fs.mkdir(notesDir, { recursive: true })]: the parent comes with it. *)
Definition mkdir_notes_dir (dir : string) : M unit :=
  write (fun s => set_notes_dirs ({[dir]} ∪ notes_dirs s)
                    (set_user_dirs ({[dir]} ∪ user_dirs s) s)).

Definition writeFile_database (path : string) (database : gmap string Note) : M unit :=
  write_in (has_user_dir path)
    (fun s => set_database_files (<[path := Parsed database]> (database_files s)) s).

Definition writeFile_note (path : string * string) (text : string) : M unit :=
  write_in (has_notes_dir path.1)
    (fun s => set_note_files (<[path := text]> (note_files s)) s).

(** [fs.unlink(notePath)] *)
Definition unlink_note (path : string * string) : M unit :=
  fun s => if has_note_file path s
           then (set_note_files (delete path (note_files s)) s, Ok tt)
           else (s, Throw ENOENT).

(** [fs.rm(mediaDir, { recursive: true, force: true })] *)
Definition rm_media_dir (path : string * string) : M unit :=
  write (fun s => set_media_dirs (delete path (media_dirs s)) s).

(** ** The store *)

Definition loadUsers : M (gmap string Account) :=
  try_catch (read (fun s => readFile_json (users_file s)))
            (fun _ => ret ∅).

Definition saveUsers (users : gmap string Account) : M unit :=
  write (set_users_file (Some (Parsed users))).

Definition ensureSharedDir : M unit :=
  try_catch (read (fun s => access (shared_dir s)))
            (fun _ => write (set_shared_dir true)).

(** [index.users.includes(userId)] *)
Definition array_includes (l : list string) (x : string) : bool :=
  bool_decide (x ∈ l).

Definition addUserToSystemIndex (userId : string) : M unit :=
  try_catch
    (index <~ read (fun s => readFile_json (users_index_file s)) ;;
     if negb (array_includes index userId)
     then write (set_users_index_file (Some (Parsed (index ++ [userId])%list)))
     else ret tt)
    (fun _ => ret tt).

Definition ensureUserDir (userId : string) : M string :=
  let userDir := getUserDir userId in
  let notesDir := getUserNotesDir userId in
  let dbPath := getUserDatabasePath userId in
  try_catch (read (fun s => access (has_user_dir userDir s)))
    (fun _ =>
       mkdir_user_dir userDir ;;
       mkdir_notes_dir notesDir ;;
       writeFile_database dbPath ∅ ;;
       addUserToSystemIndex userId) ;;
  try_catch (read (fun s => access (has_notes_dir notesDir s)))
    (fun _ => mkdir_notes_dir notesDir) ;;
  try_catch (read (fun s => access (has_database dbPath s)))
    (fun _ => writeFile_database dbPath ∅) ;;
  ret userDir.

Definition loadUserDatabase (userId : string) : M (gmap string Note) :=
  let dbPath := getUserDatabasePath userId in
  try_catch (read (fun s => readFile_json (database_files s !! dbPath)))
            (fun _ => ret ∅).

Definition saveUserDatabase (userId : string) (database : gmap string Note) : M unit :=
  writeFile_database (getUserDatabasePath userId) database.

(** The files of a legacy note directory; none when the directory is
    missing. *)
Definition legacy_dir (s : FS) (dir : string * string) : LegacyDir :=
  default (mkLegacyDir None None None) (legacy_dirs s !! dir).

Definition readLegacyNoteData (userId noteId : string) : M Note :=
  let legacyDir := getLegacyNoteDir userId noteId in
  try_catch
    (metadata <~ read (fun s => readFile_json (metadata_json (legacy_dir s legacyDir))) ;;
     markdown <~ try_catch
                   (read (fun s => readFile_text (content_md (legacy_dir s legacyDir))))
                   (fun _ => ret "") ;;
     ret (set_markdown (Some markdown) metadata))
    (fun _ => read (fun s => readFile_json (note_json (legacy_dir s legacyDir)))).

(** An object without fields. *)
Definition no_fields : Note :=
  mkNote None None None None None None None None None.

(** [{ ...noteMetadata }] of what the lookup in the index found. *)
Definition spread (noteMetadata : Js.property Note) : Note :=
  match noteMetadata with
  | Js.Own metadata => metadata
  | Js.Inherited | Js.Undefined => no_fields
  end.

Definition readNoteData (userId noteId : string) : M Note :=
  database <~ loadUserDatabase userId ;;
  match Js.get database noteId with
  | Js.Undefined => readLegacyNoteData userId noteId
  | noteMetadata =>
      let notePath := getNoteFilePath userId noteId in
      markdown <~ try_catch
                    (read (fun s => readFile_text (note_files s !! notePath)))
                    (fun _ => ret "") ;;
      ret (set_markdown (Some markdown) (spread noteMetadata))
  end.

(** [const { markdown, ...metadata } = data] *)
Definition metadata_of (data : Note) : Note := set_markdown None data.

Definition writeNoteData (userId noteId : string) (data : Note) : M unit :=
  let metadata := metadata_of data in
  database <~ loadUserDatabase userId ;;
  saveUserDatabase userId (Js.set noteId metadata database) ;;
  let notePath := getNoteFilePath userId noteId in
  writeFile_note notePath (Js.or_string (markdown data) "").

(** The two awaited writes of [writeNoteData], in the order the function
    performs them.  Another request can run between them and sees the
    disk as the first one left it. *)
Definition writeNoteData_index_step (userId noteId : string) (data : Note) : M unit :=
  database <~ loadUserDatabase userId ;;
  saveUserDatabase userId (Js.set noteId (metadata_of data) database).

Definition writeNoteData_content_step (userId noteId : string) (data : Note) : M unit :=
  writeFile_note (getNoteFilePath userId noteId) (Js.or_string (markdown data) "").

(** The disks a concurrent request can observe once the write has begun:
    after the first awaited write, and after the second when the first
    did not throw. *)
Definition writeNoteData_observable (userId noteId : string) (data : Note)
    (s : FS) : list FS :=
  match writeNoteData_index_step userId noteId data s with
  | (s1, Ok _) => [s1; (writeNoteData_content_step userId noteId data s1).1]
  | (s1, Throw _) => [s1]
  end.

(** ** What the server takes from its platform *)

(** The date parser and bcrypt are used as given.  [Date_getTime x] is
    [new Date(x).getTime()], with [None] for NaN; [bcrypt_hash salt p] is
    the hash [bcrypt.hash(p, 10)] resolves to when it draws [salt]. *)
Class Platform := {
  Date_getTime : option string -> option Z;
  bcrypt_hash : string -> string -> string;
  bcrypt_compare : string -> string -> bool
}.

(** ** Replies of the route handlers *)

Inductive message : Type :=
| Text (s : string)
| MessageOf (e : exn).   (* [error.message] *)

Inductive reply (A : Type) : Type :=
| Success (body : A)                        (* [{ success: true, ... }] *)
| Failure (status : nat) (error : message). (* [res.status(n).json({ success: false, error })] *)
Arguments Success {A} body.
Arguments Failure {A} status error.

(** A loop that carries the variables it assigns. *)
Fixpoint fold_each {A B} (l : list A) (acc : B) (body : B -> A -> M B) : M B :=
  match l with
  | [] => ret acc
  | x :: l' => acc' <~ body acc x ;; fold_each l' acc' body
  end.

(** ** Listing: getNotesForUser *)

Record NoteEntry := mkNoteEntry {
  entry_id : string;
  entry_name : string;
  entry_path : string;
  entry_type : string;
  entry_tags : list string;
  entry_groups : list string;
  entry_isPasswordProtected : bool;
  entry_isShared : bool;
  entry_shareId : option string;
  entry_createdAt : option string;
  entry_updatedAt : option string;
  entry_summary : string
}.

Section Listing.
Context `{Platform}.

(** [new Date(b.updatedAt) - new Date(a.updatedAt)], [None] for NaN. *)
Definition compare_updatedAt (a b : NoteEntry) : option Z :=
  match Date_getTime (entry_updatedAt b), Date_getTime (entry_updatedAt a) with
  | Some tb, Some ta => Some (tb - ta)%Z
  | _, _ => None
  end.

(** The comparator puts [a] after [b] when it returns a positive number. *)
Definition sorts_after (a b : NoteEntry) : bool :=
  match compare_updatedAt a b with
  | Some v => (0 <? v)%Z
  | None => false
  end.

Fixpoint sort_insert (x : NoteEntry) (sorted : list NoteEntry) : list NoteEntry :=
  match sorted with
  | [] => [x]
  | y :: sorted' =>
      if sorts_after y x then x :: y :: sorted'
      else y :: sort_insert x sorted'
  end.

(** [notes.sort(comparator)]: a stable sort. *)
Definition sort_notes (notes : list NoteEntry) : list NoteEntry :=
  fold_left (fun sorted x => sort_insert x sorted) notes [].

Definition note_entry (noteId : string) (metadata : Note) (markdown : string) : NoteEntry :=
  {| entry_id := noteId;
     entry_name := Js.or_string (title metadata) "Untitled";
     entry_path := noteId;
     entry_type := "file";
     entry_tags := Js.or_list (tags metadata);
     entry_groups := Js.or_list (groups metadata);
     entry_isPasswordProtected := Js.or_false (isPasswordProtected metadata);
     entry_isShared := Js.truthy_opt (shareId metadata);
     entry_shareId := shareId metadata;
     entry_createdAt := createdAt metadata;
     entry_updatedAt := updatedAt metadata;
     entry_summary := summary markdown |}.

Definition getNotesForUser (userId : string) : M (list NoteEntry) :=
  database <~ loadUserDatabase userId ;;
  notes <~ fold_each (map_to_list database) []
    (fun notes '(noteId, metadata) =>
       try_catch
         (let notePath := getNoteFilePath userId noteId in
          markdown <~ try_catch
                        (read (fun s => readFile_text (note_files s !! notePath)))
                        (fun _ => ret "") ;;
          ret (notes ++ [note_entry noteId metadata markdown])%list)
         (fun _ => ret notes)) ;;
  ret (sort_notes notes).

End Listing.

(** ** Search: searchNotes and GET /api/search *)

Record SearchResult := mkSearchResult {
  result_name : string;
  result_path : string;
  result_preview : string;
  result_tags : list string
}.

(** [metadata.tags && metadata.tags.some(tag => tag.toLowerCase().includes(query))] *)
Definition tagsMatch (metadata : Note) (query : string) : bool :=
  match tags metadata with
  | Some l => existsb (fun tag => Js.includes (Js.toLowerCase tag) query) l
  | None => false
  end.

Definition searchNotes (userId query : string) : M (list SearchResult) :=
  database <~ loadUserDatabase userId ;;
  fold_each (map_to_list database) []
    (fun results '(noteId, metadata) =>
       try_catch
         (let notePath := getNoteFilePath userId noteId in
          markdown <~ try_catch
                        (read (fun s => readFile_text (note_files s !! notePath)))
                        (fun _ => ret "") ;;
          let tagsMatch := tagsMatch metadata query in
          (* [metadata.title.toLowerCase()] throws on a missing title *)
          title <~ match title metadata with
                   | Some t => ret t
                   | None => throw TypeError
                   end ;;
          if Js.includes (Js.toLowerCase title) query
             || (Js.truthy markdown && Js.includes (Js.toLowerCase markdown) query)
             || tagsMatch
          then ret (results ++
                      [ {| result_name := title;
                           result_path := noteId;
                           result_preview :=
                             if Js.truthy markdown then Js.substring0 100 markdown else "";
                           result_tags := Js.or_list (tags metadata) |} ])%list
          else ret results)
         (fun _ => ret results)).

(** GET /api/search: [q] is the query parameter, [None] when the request
    has none. *)
Definition get_api_search (userId : string) (q : option string)
  : M (reply (list SearchResult)) :=
  try_catch
    (ensureUserDir userId ;;
     query <~ match q with
              | Some q => ret (Js.toLowerCase q)
              | None => throw TypeError
              end ;;
     results <~ searchNotes userId query ;;
     ret (Success results))
    (fun error => ret (Failure 500 (MessageOf error))).

(** ** DELETE /api/file/:noteId *)

Definition delete_api_file (userId noteId : string) : M (reply unit) :=
  try_catch
    (database <~ loadUserDatabase userId ;;
     saveUserDatabase userId (delete noteId database) ;;
     try_catch (unlink_note (getNoteFilePath userId noteId)) (fun _ => ret tt) ;;
     try_catch (rm_media_dir (getNoteMediaDir userId noteId)) (fun _ => ret tt) ;;
     ret (Success tt))
    (fun error => ret (Failure 500 (MessageOf error))).

(** ** Share links *)

Definition writeFile_shared (name : string) (entry : ShareEntry) : M unit :=
  write_in shared_dir
    (fun s => set_shared_files (<[name := Parsed entry]> (shared_files s)) s).

Definition unlink_shared (name : string) : M unit :=
  fun s => if bool_decide (is_Some (shared_files s !! name))
           then (set_shared_files (delete name (shared_files s)) s, Ok tt)
           else (s, Throw ENOENT).

(** POST /api/file/share/:noteId.  [randomBytes] is what
    [crypto.randomBytes(16)] returns; [now] and [now'] are the two
    timestamps taken.  The body of the reply is [shareId]; [shareUrl],
    which prefixes it with the configured base URL, is left out. *)
Definition post_api_file_share (randomBytes : list ascii) (now now' : string)
    (userId noteId : string) : M (reply (option string)) :=
  try_catch
    (data <~ readNoteData userId noteId ;;
     data <~ (if negb (Js.truthy_opt (shareId data)) then
                let data := set_shareId (Some (toHex randomBytes)) data in
                let data := set_updatedAt (Some now) data in
                writeNoteData userId noteId data ;;
                ensureSharedDir ;;
                (* the file [SHARED_DIR/<shareId>.json] *)
                writeFile_shared (toHex randomBytes)
                  (mkShareEntry userId noteId now') ;;
                ret data
              else ret data) ;;
     ret (Success (shareId data)))
    (fun error => ret (Failure 500 (MessageOf error))).

(** DELETE /api/file/share/:noteId *)
Definition delete_api_file_share (now : string) (userId noteId : string)
  : M (reply unit) :=
  try_catch
    (data <~ readNoteData userId noteId ;;
     (if Js.truthy_opt (shareId data) then
        let sharedPath := basename (default "" (shareId data)) in
        try_catch (unlink_shared sharedPath) (fun _ => ret tt) ;;
        let data := set_shareId None data in
        let data := set_updatedAt (Some now) data in
        writeNoteData userId noteId data
      else ret tt) ;;
     ret (Success tt))
    (fun error => ret (Failure 500 (MessageOf error))).

Record SharedNote := mkSharedNote {
  shared_title : option string;
  shared_markdown : option string;
  shared_tags : list string;
  shared_createdAt : option string;
  shared_updatedAt : option string
}.

Definition shared_view (fileData : Note) : SharedNote :=
  {| shared_title := title fileData;
     shared_markdown := markdown fileData;
     shared_tags := Js.or_list (tags fileData);
     shared_createdAt := createdAt fileData;
     shared_updatedAt := updatedAt fileData |}.

Section Sharing.
Context `{Platform}.

(** The password check of GET /api/shared/:shareId on the note read;
    [given] is the [password] query parameter. *)
Definition shared_reply (fileData : Note) (given : option string)
  : reply SharedNote :=
  if Js.or_false (isPasswordProtected fileData)
     && Js.truthy_opt (password fileData)
  then
    if negb (Js.truthy_opt given)
    then Failure 401 (Text "Password required")
    else if negb (bcrypt_compare (default "" given)
                                 (default "" (password fileData)))
         then Failure 401 (Text "Invalid password")
         else Success (shared_view fileData)
  else Success (shared_view fileData).

(** GET /api/shared/:shareId *)
Definition get_api_shared (shareId : string) (given : option string)
  : M (reply SharedNote) :=
  try_catch
    (let sharedPath := basename shareId in
     sharedData <~ read (fun s => readFile_json (shared_files s !! sharedPath)) ;;
     fileData <~ readNoteData (share_userId sharedData) (share_noteId sharedData) ;;
     ret (shared_reply fileData given))
    (fun _ => ret (Failure 404 (Text "Shared file not found"))).

End Sharing.

(** ** POST /api/file/:noteId *)

Record SaveRequest := mkSaveRequest {
  req_markdown : option string;
  req_title : option string;
  req_tags : option (list string);
  req_groups : option (list string);
  req_password : option string;
  req_isPasswordProtected : option bool
}.

Section Saving.
Context `{Platform}.

(** [if (isPasswordProtected && password)] *)
Definition new_password_given (body : SaveRequest) : bool :=
  Js.or_false (req_isPasswordProtected body) && Js.truthy_opt (req_password body).

(** The object the handler starts from; [created] and [updated] are the
    two timestamps taken. *)
Definition fresh_data (created updated : string) (body : SaveRequest) : Note :=
  {| title := Some (Js.or_string (req_title body) "Untitled");
     markdown := req_markdown body;
     tags := Some (Js.or_list (req_tags body));
     groups := Some (Js.or_list (req_groups body));
     isPasswordProtected := Some (Js.or_false (req_isPasswordProtected body));
     password := None;
     shareId := None;
     createdAt := Some created;
     updatedAt := Some updated |}.

(** The assignments of the [try] block once [existingData] is read. *)
Definition carry_forward (salt : string) (body : SaveRequest)
    (existingData data : Note) : Note :=
  let data := set_createdAt (createdAt existingData) data in
  let data := set_shareId (shareId existingData) data in
  let data := match req_groups body with   (* [if (!groups)] *)
              | Some _ => data
              | None => set_groups (Some (Js.or_list (groups existingData))) data
              end in
  if new_password_given body then
    set_password (Some (bcrypt_hash salt (default "" (req_password body)))) data
  else if Js.or_false (req_isPasswordProtected body)
          && Js.truthy_opt (password existingData)
       then set_password (password existingData) data
       else data.

Definition post_api_file (created updated salt : string)
    (userId noteId : string) (body : SaveRequest) : M (reply unit) :=
  try_catch
    (ensureUserDir userId ;;
     let data := fresh_data created updated body in
     data <~ try_catch
               (existingData <~ readNoteData userId noteId ;;
                ret (carry_forward salt body existingData data))
               (fun _ =>
                  if new_password_given body
                  then ret (set_password
                              (Some (bcrypt_hash salt (default "" (req_password body))))
                              data)
                  else ret data) ;;
     writeNoteData userId noteId data ;;
     ret (Success tt))
    (fun error => ret (Failure 500 (MessageOf error))).

End Saving.

(** ** POST /api/admin/import *)

(** The backup document.  Its objects are kept as the lists of entries
    that [Object.entries] walks. *)
Record BackupDatabase := mkBackupDatabase {
  backup_notes : option (list (string * Note))          (* [database.notes] *)
}.

Record BackupUserData := mkBackupUserData {
  backup_database : option BackupDatabase;              (* [userData.database] *)
  backup_note_files : option (list (string * string))   (* [userData.notes] *)
}.

Record BackupUsersIndex := mkBackupUsersIndex {
  backup_index_users : option (list string)             (* [usersIndex.users] *)
}.

Record Backup := mkBackup {
  version : option string;
  users : option (list (string * Account));
  usersIndex : option BackupUsersIndex;
  userData : option (list (string * BackupUserData))
}.

(** [if (!existingIndex.users.includes(username)) existingIndex.users.push(username)] *)
Definition push_new (index : list string) (username : string) : list string :=
  if negb (array_includes index username) then (index ++ [username])%list else index.

(** The loop over [userData.database.notes]: the merged index and the
    counter. *)
Definition merge_notes (existingDb : gmap string Note) (importedNotes : nat)
    (notes : list (string * Note)) : gmap string Note * nat :=
  fold_left
    (fun '(db, n) '(noteId, noteData) =>
       match Js.get db noteId with   (* [if (!existingDb.notes[noteId])] *)
       | Js.Undefined => (Js.set noteId noteData db, S n)
       | _ => (db, n)
       end)
    notes (existingDb, importedNotes).

(** The loop over [userData.notes]. *)
Definition import_note_files (username : string) (notes : option (list (string * string)))
  : M unit :=
  match notes with
  | Some notes =>
      for_each notes
        (fun '(noteId, markdown) =>
           let notePath := getNoteFilePath username noteId in
           try_catch (read (fun s => access (has_note_file notePath s)))
                     (fun _ => writeFile_note notePath markdown))
  | None => ret tt
  end.

(** One round of the loop over [backup.userData]; it returns the counter
    [importedNotes].  The counter keeps what the merge added when a later
    write throws, hence the inner handler. *)
Definition import_user_data (importedNotes : nat) (username : string)
    (userData : BackupUserData) : M nat :=
  try_catch
    (ensureUserDir username ;;
     match backup_database userData with
     | Some database =>
         existingDb <~ loadUserDatabase username ;;
         let '(existingDb, importedNotes) :=
           merge_notes existingDb importedNotes (Js.or_list (backup_notes database)) in
         try_catch
           (saveUserDatabase username existingDb ;;
            import_note_files username (backup_note_files userData))
           (fun _ => ret tt) ;;
         ret importedNotes
     | None =>
         import_note_files username (backup_note_files userData) ;;
         ret importedNotes
     end)
    (fun _ => ret importedNotes).

Definition import_users (existingUsers : gmap string Account)
    (users : list (string * Account)) : M (gmap string Account * nat) :=
  fold_each users (existingUsers, 0)
    (fun '(existingUsers, importedUsers) '(username, userData) =>
       match Js.get existingUsers username with   (* [if (!existingUsers[username])] *)
       | Js.Undefined =>
           ensureUserDir username ;;
           ret (Js.set username userData existingUsers, S importedUsers)
       | _ => ret (existingUsers, importedUsers)
       end).

Definition import_users_index (usersIndex : option BackupUsersIndex) : M unit :=
  match usersIndex with
  | Some usersIndex =>
      try_catch
        (existingIndex <~ read (fun s => readFile_json (users_index_file s)) ;;
         let existingIndex :=
           fold_left push_new (Js.or_list (backup_index_users usersIndex)) existingIndex in
         write (set_users_index_file (Some (Parsed existingIndex))))
        (fun _ => ret tt)
  | None => ret tt
  end.

(** [file] is the uploaded file: [None] without an upload, otherwise its
    text as [JSON.parse] sees it.  The body of the reply is the pair of
    counters [(users, notes)]. *)
Definition post_api_admin_import (file : option (json Backup)) : M (reply (nat * nat)) :=
  try_catch
    (match file with
     | None => ret (Failure 400 (Text "No backup file provided"))
     | Some content =>
         backup <~ match content with
                   | Parsed backup => ret backup
                   | Malformed => throw SyntaxError
                   end ;;
         match Js.truthy_opt (version backup), users backup, userData backup with
         | true, Some users, Some userData =>
             existingUsers <~ loadUsers ;;
             imported <~ import_users existingUsers users ;;
             saveUsers imported.1 ;;
             import_users_index (usersIndex backup) ;;
             importedNotes <~ fold_each userData 0
                                (fun n '(username, userData) =>
                                   import_user_data n username userData) ;;
             ret (Success (imported.2, importedNotes))
         | _, _, _ => ret (Failure 400 (Text "Invalid backup file format"))
         end
     end)
    (fun error => ret (Failure 500 (MessageOf error))).

(** ** What a reader finds, and the specification's reading of it *)

(** The index of a user as a reader sees it: empty when database.json is
    missing or does not parse. *)
Definition index_of (s : FS) (userId : string) : gmap string Note :=
  match database_files s !! getUserDatabasePath userId with
  | Some (Parsed database) => database
  | _ => ∅
  end.

(** What [readNoteData] makes of the lookup in the index: the fields
    found with the text of the content file, the empty string when that
    file is missing. *)
Definition from_index (s : FS) (userId noteId : string) : option Note :=
  match Js.get (index_of s userId) noteId with
  | Js.Undefined => None
  | found =>
      Some (set_markdown
              (Some (default "" (note_files s !! getNoteFilePath userId noteId)))
              (spread found))
  end.

(** (a) of the specification: the entry of the metadata index with the
    text of the content file, the empty string when that file is
    missing. *)
Definition spec_from_index (s : FS) (userId noteId : string) : option Note :=
  match index_of s userId !! noteId with
  | Some metadata =>
      Some (set_markdown
              (Some (default "" (note_files s !! getNoteFilePath userId noteId)))
              metadata)
  | None => None
  end.

(** (b.1) the split legacy shape: metadata.json with content.md. *)
Definition from_legacy_split (s : FS) (userId noteId : string) : option Note :=
  let d := legacy_dir s (getLegacyNoteDir userId noteId) in
  match metadata_json d with
  | Some (Parsed metadata) =>
      Some (set_markdown (Some (default "" (content_md d))) metadata)
  | _ => None
  end.

(** (b.2) the combined legacy shape: note.json, the content inline. *)
Definition from_legacy_combined (s : FS) (userId noteId : string) : option Note :=
  match note_json (legacy_dir s (getLegacyNoteDir userId noteId)) with
  | Some (Parsed note) => Some note
  | _ => None
  end.

(** The resolution order of the specification: the first source that has
    data. *)
Definition read_spec (s : FS) (userId noteId : string) : option Note :=
  match spec_from_index s userId noteId with
  | Some note => Some note
  | None =>
      match from_legacy_split s userId noteId with
      | Some note => Some note
      | None => from_legacy_combined s userId noteId
      end
  end.

(** What [readLegacyNoteData] returns. *)
Definition legacy_result (s : FS) (userId noteId : string) : result Note :=
  match from_legacy_split s userId noteId with
  | Some note => Ok note
  | None => readFile_json (note_json (legacy_dir s (getLegacyNoteDir userId noteId)))
  end.

(** What [readNoteData] returns. *)
Definition read_result (s : FS) (userId noteId : string) : result Note :=
  match from_index s userId noteId with
  | Some note => Ok note
  | None => legacy_result s userId noteId
  end.

(** A string of [n] copies of [c]. *)
Fixpoint repeat_char (c : ascii) (n : nat) : string :=
  match n with
  | O => EmptyString
  | S n' => String c (repeat_char c n')
  end.

(** The summary as the specification words it: markdown punctuation
    stripped, white space collapsed (every run of white space becomes one
    space, none is left at the ends), the text cut at the preview length,
    the ellipsis exactly when the cut dropped something. *)
Fixpoint collapse_from (in_run : bool) (s : string) : string :=
  match s with
  | EmptyString => EmptyString
  | String c s' =>
      if Js.is_space c then
        if in_run then collapse_from true s'
        else String " " (collapse_from true s')
      else String c (collapse_from false s')
  end.

Definition collapse_whitespace (s : string) : string :=
  Js.trim (collapse_from false s).

Definition summary_spec (markdown : string) : string :=
  let text := collapse_whitespace (remove_formatting markdown) in
  if (100 <? String.length text)%nat
  then Js.substring0 100 text ++ "..."
  else text.

(** What the code does instead, in words that do not depend on how the
    functions above are written. *)

Definition starts_with_newline (s : string) : bool :=
  match s with
  | String c _ => is_newline c
  | EmptyString => false
  end.

(** [t] is [s] with every maximal run of newlines replaced by one space. *)
Inductive newline_runs_replaced : string -> string -> Prop :=
| runs_done : newline_runs_replaced "" ""
| runs_keep (c : ascii) (s t : string) :
    is_newline c = false ->
    newline_runs_replaced s t ->
    newline_runs_replaced (String c s) (String c t)
| runs_run (k : nat) (s t : string) :
    starts_with_newline s = false ->
    newline_runs_replaced s t ->
    newline_runs_replaced (repeat_char "010" (S k) ++ s) (String " " t).

(** [t] is [s] without the white space at its two ends. *)
Definition ends_trimmed (s t : string) : Prop :=
  (exists pre post : string,
     s = pre ++ t ++ post
     /\ Forall (fun c => Js.is_space c = true) (chars pre)
     /\ Forall (fun c => Js.is_space c = true) (chars post))
  /\ (forall c, head (chars t) = Some c -> Js.is_space c = false)
  /\ (forall c, last (chars t) = Some c -> Js.is_space c = false).

(** ** Statements of the specification that are tested below *)

(** Every database.json lies in a user directory that exists. *)
Definition disk_wf (s : FS) : Prop :=
  forall dir : string, is_Some (database_files s !! dir) -> dir ∈ user_dirs s.

(** A write is observed in order: no disk that a concurrent request can
    see during [writeNoteData] shows the new metadata entry together with
    content other than the new content. *)
Definition content_never_behind_metadata : Prop :=
  forall (s : FS) (userId noteId : string) (data : Note) (s' : FS) (note : Note),
    s' ∈ writeNoteData_observable userId noteId data s ->
    readNoteData userId noteId s' = (s', Ok note) ->
    metadata_of note = metadata_of data ->
    markdown note = Some (Js.or_string (markdown data) "").


(** A share that has been created resolves: the token the handler
    answers with leads, in the Share Registry, to the originating user
    and note. *)
Definition created_share_resolves : Prop :=
  forall (s s1 : FS) (randomBytes : list ascii) (now now' userId noteId token : string),
    post_api_file_share randomBytes now now' userId noteId s
    = (s1, Ok (Success (Some token))) ->
    exists created : string,
      shared_files s1 !! basename token
      = Some (Parsed (mkShareEntry userId noteId created)).

(** Deleting a shared note destroys its Share Entry. *)
Definition delete_destroys_share : Prop :=
  forall (s : FS) (userId noteId token : string) (note : Note) (entry : ShareEntry),
    read_result s userId noteId = Ok note ->
    shareId note = Some token ->
    shared_files s !! token = Some (Parsed entry) ->
    share_userId entry = userId ->
    share_noteId entry = noteId ->
    shared_files (delete_api_file userId noteId s).1 !! token = None.

(** The disk that DELETE /api/file/:noteId leaves when it succeeds. *)
Definition after_delete (userId noteId : string) (s : FS) : FS :=
  set_media_dirs (delete (getNoteMediaDir userId noteId) (media_dirs s))
    (set_note_files (delete (getNoteFilePath userId noteId) (note_files s))
       (set_database_files
          (<[getUserDatabasePath userId := Parsed (delete noteId (index_of s userId))]>
             (database_files s)) s)).

(** The disk after the index write of [writeNoteData], and after both
    writes. *)
Definition after_index_write (userId noteId : string) (data : Note) (s : FS) : FS :=
  set_database_files
    (<[getUserDatabasePath userId :=
         Parsed (Js.set noteId (metadata_of data) (index_of s userId))]>
       (database_files s)) s.

Definition after_write (userId noteId : string) (data : Note) (s : FS) : FS :=
  let s1 := after_index_write userId noteId data s in
  set_note_files
    (<[getNoteFilePath userId noteId := Js.or_string (markdown data) ""]> (note_files s1)) s1.

(** The index of the user can take an entry under the identifier: every
    identifier but ["__proto__"], and that one too when the index has it
    already. *)
Definition can_store (s : FS) (userId noteId : string) : Prop :=
  noteId <> "__proto__" \/ is_Some (index_of s userId !! noteId).

(** The disk after POST /api/file/share/:noteId has made a link for the
    note read as [data], and after DELETE /api/file/share/:noteId has
    removed the link [token] of the note read as [data]. *)
Definition after_share_created (randomBytes : list ascii) (now now' : string)
    (userId noteId : string) (data : Note) (s : FS) : FS :=
  let data := set_updatedAt (Some now) (set_shareId (Some (toHex randomBytes)) data) in
  let s1 := set_shared_dir true (after_write userId noteId data s) in
  set_shared_files
    (<[toHex randomBytes := Parsed (mkShareEntry userId noteId now')]> (shared_files s1)) s1.

Definition after_share_revoked (now userId noteId token : string) (data : Note)
    (s : FS) : FS :=
  after_write userId noteId (set_updatedAt (Some now) (set_shareId None data))
    (set_shared_files (delete (basename token) (shared_files s)) s).

(** What GET /api/shared/:shareId answers. *)
Definition shared_result `{Platform} (s : FS) (shareId : string) (given : option string)
  : reply SharedNote :=
  match shared_files s !! basename shareId with
  | Some (Parsed sharedData) =>
      match read_result s (share_userId sharedData) (share_noteId sharedData) with
      | Ok fileData => shared_reply fileData given
      | Throw _ => Failure 404 (Text "Shared file not found")
      end
  | _ => Failure 404 (Text "Shared file not found")
  end.

(** The disk after [addUserToSystemIndex]. *)
Definition index_registered (userId : string) (s : FS) : FS :=
  match users_index_file s with
  | Some (Parsed index) =>
      if array_includes index userId then s
      else set_users_index_file (Some (Parsed (index ++ [userId])%list)) s
  | _ => s
  end.

(** The disk after [ensureUserDir]: both directories exist, database.json
    is created empty when the user directory or the file was missing, and
    the user is registered when the user directory was missing. *)
Definition ensured (userId : string) (s : FS) : FS :=
  let dir := getUserDir userId in
  set_user_dirs ({[dir]} ∪ user_dirs s)
    (set_notes_dirs ({[dir]} ∪ notes_dirs s)
       (set_database_files
          (if has_user_dir dir s && has_database dir s
           then database_files s
           else <[dir := Parsed ∅]> (database_files s))
          (if has_user_dir dir s then s else index_registered userId s))).

(** ** Sample disks and documents *)

Definition empty_disk : FS :=
  {| users_file := None;
     users_index_file := None;
     user_dirs := ∅;
     notes_dirs := ∅;
     database_files := ∅;
     note_files := ∅;
     media_dirs := ∅;
     legacy_dirs := ∅;
     shared_dir := false;
     shared_files := ∅ |}.

(** The disk after alice's store has been created. *)
Definition alice_disk : FS :=
  {| users_file := None;
     users_index_file := Some (Parsed ["alice"]);
     user_dirs := {["alice"]};
     notes_dirs := {["alice"]};
     database_files := {["alice" := Parsed ∅]};
     note_files := ∅;
     media_dirs := ∅;
     legacy_dirs := ∅;
     shared_dir := true;
     shared_files := ∅ |}.

Definition groceries : Note :=
  {| title := Some "Groceries";
     markdown := Some "- milk";
     tags := Some ["home"];
     groups := Some ["Work"];
     isPasswordProtected := Some false;
     password := None;
     shareId := None;
     createdAt := Some "2024-01-01T00:00:00.000Z";
     updatedAt := Some "2024-01-02T00:00:00.000Z" |}.

(** A platform to run the examples on: dates are not parsed, the hash of
    a password is the salt followed by the password. *)
Definition sample_platform : Platform :=
  {| Date_getTime := fun _ => None;
     bcrypt_hash := fun salt p => salt ++ p;
     bcrypt_compare := fun p h =>
       String.eqb (String.substring (String.length h - String.length p)
                                    (String.length p) h) p |}.

(** Alice's disk with the note [groceries] stored under [abc123]. *)
Definition groceries_disk : FS :=
  set_note_files {[("alice", "abc123") := "- milk"]}
    (set_database_files
       {["alice" := Parsed {["abc123" := metadata_of groceries]}]} alice_disk).

(** Alice's disk with [groceries] shared under the token [cafe]. *)
Definition shared_groceries : Note := set_shareId (Some "cafe") groceries.

Definition shared_disk : FS :=
  set_shared_files
    {["cafe" := Parsed (mkShareEntry "alice" "abc123" "2024-01-03T00:00:00.000Z")]}
    (set_note_files {[("alice", "abc123") := "- milk"]}
       (set_database_files
          {["alice" := Parsed {["abc123" := metadata_of shared_groceries]}]} alice_disk)).

(** Sixteen bytes as [crypto.randomBytes(16)] may return them. *)
Definition sample_bytes : list ascii :=
  ["a"; "b"; "c"; "d"; "e"; "f"; "g"; "h"; "i"; "j"; "k"; "l"; "m"; "n"; "o"; "p"]%char.

(** A save request that renames the note and keeps protection off. *)
Definition sample_request : SaveRequest :=
  {| req_markdown := Some "- milk, eggs";
     req_title := Some "Shopping";
     req_tags := Some ["home"; "food"];
     req_groups := None;
     req_password := None;
     req_isPasswordProtected := Some false |}.

(** The disk after alice shares [groceries] with [sample_bytes] drawn. *)
Definition after_share : FS :=
  (post_api_file_share sample_bytes "2024-01-03T00:00:00.000Z"
     "2024-01-03T00:00:00.001Z" "alice" "abc123" groceries_disk).1.

(** ** The state that a backup import leaves *)

(** The accounts a reader finds: none when users.json is missing or does
    not parse. *)
Definition users_of (s : FS) : gmap string Account :=
  match users_file s with
  | Some (Parsed users) => users
  | _ => ∅
  end.

(** The first entry of a key in a list of entries. *)
Fixpoint assoc {A} (l : list (string * A)) (k : string) : option A :=
  match l with
  | [] => None
  | (k', a) :: l' => if decide (k' = k) then Some a else assoc l' k
  end.

(** The entries of [l] whose key the dictionary does not find are added,
    in order. *)
Definition merge_new {A} (m : gmap string A) (l : list (string * A)) : gmap string A :=
  fold_left (fun m '(k, a) => match Js.get m k with
                              | Js.Undefined => <[k := a]> m
                              | _ => m
                              end) l m.

(** The keys that [merge_new] adds, in order. *)
Fixpoint new_keys {A} (m : gmap string A) (l : list (string * A)) : list string :=
  match l with
  | [] => []
  | (k, a) :: l' =>
      match Js.get m k with
      | Js.Undefined => k :: new_keys (<[k := a]> m) l'
      | _ => new_keys m l'
      end
  end.

(** Content files of the backup are written where none exists. *)
Fixpoint write_missing (username : string) (l : list (string * string)) (s : FS) : FS :=
  match l with
  | [] => s
  | (noteId, markdown) :: l' =>
      let notePath := getNoteFilePath username noteId in
      write_missing username l'
        (if has_note_file notePath s then s
         else set_note_files (<[notePath := markdown]> (note_files s)) s)
  end.

(** The disk after one round of the loop over [backup.userData]. *)
Definition user_data_state (username : string) (userData : BackupUserData) (s : FS) : FS :=
  let s1 := ensured username s in
  let s2 := match backup_database userData with
            | Some database =>
                set_database_files
                  (<[getUserDatabasePath username :=
                       Parsed (merge_new (index_of s1 username)
                                 (Js.or_list (backup_notes database)))]>
                     (database_files s1)) s1
            | None => s1
            end in
  write_missing username (Js.or_list (backup_note_files userData)) s2.

(** The number of notes one round adds to the index. *)
Definition user_data_count (username : string) (userData : BackupUserData) (s : FS) : nat :=
  match backup_database userData with
  | Some database =>
      length (new_keys (index_of (ensured username s) username)
                (Js.or_list (backup_notes database)))
  | None => 0
  end.

Definition users_index_state (usersIndex : option BackupUsersIndex) (s : FS) : FS :=
  match usersIndex, users_index_file s with
  | Some usersIndex, Some (Parsed existingIndex) =>
      set_users_index_file
        (Some (Parsed (fold_left push_new (Js.or_list (backup_index_users usersIndex))
                         existingIndex))) s
  | _, _ => s
  end.

Definition users_state (users : list (string * Account)) (s : FS) : FS :=
  set_users_file (Some (Parsed (merge_new (users_of s) users)))
    (fold_left (fun s username => ensured username s) (new_keys (users_of s) users) s).

Definition user_data_all (userData : list (string * BackupUserData)) (s : FS) : FS :=
  fold_left (fun s '(username, userData) => user_data_state username userData s)
            userData s.

(** The disk after the import of a backup with the users [users] and the
    user data [userData]. *)
Definition import_state (backup : Backup) (s : FS) : FS :=
  user_data_all (Js.or_list (userData backup))
    (users_index_state (usersIndex backup)
       (users_state (Js.or_list (users backup)) s)).

(** A backup the import accepts. *)
Definition valid_backup (backup : Backup) : Prop :=
  Js.truthy_opt (version backup) = true
  /\ is_Some (users backup) /\ is_Some (userData backup).

(** The counter [importedNotes] after the loop over [backup.userData]. *)
Fixpoint user_data_total (userData : list (string * BackupUserData)) (n : nat) (s : FS) : nat :=
  match userData with
  | [] => n
  | (username, ud) :: userData' =>
      user_data_total userData' (n + user_data_count username ud s)
        (user_data_state username ud s)
  end.

(** Nothing on the disk [s] is lost or changed on [s']: directories stay,
    parsed indexes and the users index keep their entries, content files
    keep their text. *)
Record grows (s s' : FS) : Prop := {
  grows_user_dirs : user_dirs s ⊆ user_dirs s';
  grows_notes_dirs : notes_dirs s ⊆ notes_dirs s';
  grows_database_some :
    forall dir, is_Some (database_files s !! dir) -> is_Some (database_files s' !! dir);
  grows_database :
    forall dir m, database_files s !! dir = Some (Parsed m) ->
      exists m', database_files s' !! dir = Some (Parsed m') /\ m ⊆ m';
  grows_note_files : note_files s ⊆ note_files s';
  grows_index :
    forall l, users_index_file s = Some (Parsed l) ->
      exists l', users_index_file s' = Some (Parsed l') /\ l ⊆ l';
  grows_index_unreadable :
    (forall l, users_index_file s <> Some (Parsed l)) ->
    users_index_file s' = users_index_file s
}.

(** The dictionary finds something under the key: a property of its own
    or one that every object inherits. *)
Definition found {A} (object : gmap string A) (key : string) : Prop :=
  Js.get object key <> Js.Undefined.

(** The data of one user of the backup is on the disk, as far as the
    import looks for it. *)
Definition user_data_present (username : string) (ud : BackupUserData) (s : FS) : Prop :=
  getUserDir username ∈ user_dirs s
  /\ getUserDir username ∈ notes_dirs s
  /\ is_Some (database_files s !! getUserDir username)
  /\ (forall database, backup_database ud = Some database ->
        exists m, database_files s !! getUserDir username = Some (Parsed m)
                  /\ forall noteId noteData,
                       (noteId, noteData) ∈ Js.or_list (backup_notes database) ->
                       found m noteId)
  /\ (forall noteId markdown,
        (noteId, markdown) ∈ Js.or_list (backup_note_files ud) ->
        is_Some (note_files s !! getNoteFilePath username noteId)).

(** Everything the backup holds is on the disk, as far as the import
    looks for it. *)
Definition imported (backup : Backup) (s : FS) : Prop :=
  (exists m, users_file s = Some (Parsed m)
             /\ forall username account,
                  (username, account) ∈ Js.or_list (users backup) ->
                  found m username)
  /\ (forall index l,
        usersIndex backup = Some index ->
        users_index_file s = Some (Parsed l) ->
        forall username, username ∈ Js.or_list (backup_index_users index) ->
                         username ∈ l)
  /\ (forall username ud,
        (username, ud) ∈ Js.or_list (userData backup) ->
        user_data_present username ud s).

(** The backup holds the index entry [noteData] for the note [noteId] of
    a user whose directory is [dir], and the text [markdown] for the
    content file [path]. *)
Definition backup_has_note (backup : Backup) (dir noteId : string) (noteData : Note)
  : Prop :=
  exists (username : string) (ud : BackupUserData) (database : BackupDatabase),
    (username, ud) ∈ Js.or_list (userData backup)
    /\ getUserDir username = dir
    /\ backup_database ud = Some database
    /\ (noteId, noteData) ∈ Js.or_list (backup_notes database).

Definition backup_has_file (backup : Backup) (path : string * string) (markdown : string)
  : Prop :=
  exists (username : string) (ud : BackupUserData) (noteId : string),
    (username, ud) ∈ Js.or_list (userData backup)
    /\ getNoteFilePath username noteId = path
    /\ (noteId, markdown) ∈ Js.or_list (backup_note_files ud).

(** What the disk [s'] has in its indexes and content files is on the
    disk [s] or in the backup. *)
Record sourced (backup : Backup) (s s' : FS) : Prop := {
  sourced_notes :
    forall dir m' noteId noteData,
      database_files s' !! dir = Some (Parsed m') ->
      m' !! noteId = Some noteData ->
      (exists m, database_files s !! dir = Some (Parsed m) /\ m !! noteId = Some noteData)
      \/ backup_has_note backup dir noteId noteData;
  sourced_files :
    forall path markdown,
      note_files s' !! path = Some markdown ->
      note_files s !! path = Some markdown \/ backup_has_file backup path markdown
}.

(** Every user name of the backup, and every note identifier that comes
    with a content file, is one the store can keep files for. *)
Definition backup_storable (backup : Backup) : Prop :=
  (forall username account,
     (username, account) ∈ Js.or_list (users backup) -> storable username = true)
  /\ (forall username ud,
        (username, ud) ∈ Js.or_list (userData backup) ->
        storable username = true
        /\ forall noteId markdown,
             (noteId, markdown) ∈ Js.or_list (backup_note_files ud) ->
             storable noteId = true).

(** A backup with a new account, a note alice has and a note she lacks. *)
Definition sample_backup : Backup :=
  {| version := Some "1.0";
     users := Some [("bob", {| username := Some "bob";
                               account_password := Some "$2b$10$hash";
                               isAdmin := Some false;
                               account_createdAt := Some "2024-01-05T00:00:00.000Z" |})];
     usersIndex := Some {| backup_index_users := Some ["alice"; "bob"] |};
     userData :=
       Some [("alice",
              {| backup_database :=
                   Some {| backup_notes :=
                             Some [("abc123", set_shareId (Some "stale") (metadata_of groceries));
                                   ("def456", metadata_of groceries)] |};
                 backup_note_files := Some [("abc123", "- bread"); ("def456", "- eggs")] |});
             ("bob",
              {| backup_database := Some {| backup_notes := Some [] |};
                 backup_note_files := Some [] |})] |}.

(** A backup with an account and a note named like methods that every
    object inherits. *)
Definition inherited_backup : Backup :=
  {| version := Some "1.0";
     users := Some [("constructor",
                     {| username := Some "constructor";
                        account_password := Some "$2b$10$hash";
                        isAdmin := Some false;
                        account_createdAt := Some "2024-01-05T00:00:00.000Z" |})];
     usersIndex := None;
     userData :=
       Some [("alice",
              {| backup_database :=
                   Some {| backup_notes := Some [("toString", metadata_of groceries)] |};
                 backup_note_files := Some [] |})] |}.

(** The disk after [sample_backup] is imported on [groceries_disk]. *)
Definition after_import : FS :=
  (post_api_admin_import (Some (Parsed sample_backup)) groceries_disk).1.

(** * More of server.js *)

(** ** Identifiers *)

(** [generateNoteId]: [crypto.randomBytes(8).toString('hex')], with
    [randomBytes] what [crypto.randomBytes(8)] returns. *)
Definition generateNoteId (randomBytes : list ascii) : string := toHex randomBytes.

(** The characters of a hexadecimal string. *)
Definition is_hex_char (c : ascii) : bool :=
  let n := Js.code c in
  (((48 <=? n) && (n <=? 57)) || ((97 <=? n) && (n <=? 102)))%nat.

(** ** Search, note by note *)

(** [q] occurs in [s]. *)
Definition contains (s q : string) : Prop :=
  exists pre post : string, s = pre ++ q ++ post.

(** The text of the content file of a note as listing and search read it:
    empty when the file is missing. *)
Definition content_of (s : FS) (userId noteId : string) : string :=
  default "" (note_files s !! getNoteFilePath userId noteId).

(** What one round of the loop of [searchNotes] adds to [results]. *)
Definition search_hit (s : FS) (userId query : string) (entry : string * Note)
  : option SearchResult :=
  let markdown := content_of s userId entry.1 in
  match title entry.2 with
  | None => None
  | Some title =>
      if Js.includes (Js.toLowerCase title) query
         || (Js.truthy markdown && Js.includes (Js.toLowerCase markdown) query)
         || tagsMatch entry.2 query
      then Some {| result_name := title;
                   result_path := entry.1;
                   result_preview :=
                     if Js.truthy markdown then Js.substring0 100 markdown else "";
                   result_tags := Js.or_list (tags entry.2) |}
      else None
  end.

(** ** Listing, note by note *)

Section ListingSpec.
Context `{Platform}.

(** The entry [getNotesForUser] builds for one entry of the index. *)
Definition entry_of (s : FS) (userId : string) (entry : string * Note) : NoteEntry :=
  note_entry entry.1 entry.2 (content_of s userId entry.1).

(** [b] is not newer than [a], both dates being valid. *)
Definition not_newer (a b : NoteEntry) : Prop :=
  exists ta tb : Z,
    Date_getTime (entry_updatedAt a) = Some ta
    /\ Date_getTime (entry_updatedAt b) = Some tb
    /\ (tb <= ta)%Z.

End ListingSpec.

(** A platform for dates in the form [toISOString] writes them, 24
    characters long: such strings are ordered in time as they are ordered
    character by character, and their value here is their rank in that
    order.  Anything else is an invalid date. *)
Fixpoint string_rank (acc : Z) (s : string) : Z :=
  match s with
  | EmptyString => acc
  | String c s' => string_rank (256 * acc + Z.of_nat (Js.code c))%Z s'
  end.

Definition iso_platform : Platform :=
  {| Date_getTime := fun o => match o with
                              | Some s => if (String.length s =? 24)%nat
                                          then Some (string_rank 0 s)
                                          else None
                              | None => None
                              end;
     bcrypt_hash := fun salt p => salt ++ p;
     bcrypt_compare := fun p h =>
       String.eqb (String.substring (String.length h - String.length p)
                                    (String.length p) h) p |}.

(** Alice's disk with a second, more recent note. *)
Definition recipes : Note :=
  {| title := Some "Recipes";
     markdown := Some "# Soup";
     tags := None;
     groups := None;
     isPasswordProtected := Some false;
     password := None;
     shareId := None;
     createdAt := Some "2024-03-01T00:00:00.000Z";
     updatedAt := Some "2024-03-01T10:00:00.000Z" |}.

Definition two_notes_disk : FS :=
  set_note_files {[("alice", "abc123") := "- milk"; ("alice", "fed987") := "# Soup"]}
    (set_database_files
       {["alice" := Parsed {["abc123" := metadata_of groceries;
                             "fed987" := metadata_of recipes]}]} alice_disk).

(** ** More sample disks *)

(** Alice's user directory exists, its notes directory does not. *)
Definition no_notes_dir_disk : FS :=
  set_notes_dirs ∅ alice_disk.

(** Alice's note [abc123] is in the index and also, in an older version,
    in a legacy directory of the combined shape. *)
Definition old_groceries : Note :=
  {| title := Some "Groceries (old)";
     markdown := Some "- tea";
     tags := None;
     groups := None;
     isPasswordProtected := None;
     password := None;
     shareId := None;
     createdAt := Some "2023-01-01T00:00:00.000Z";
     updatedAt := Some "2023-01-01T00:00:00.000Z" |}.

Definition legacy_disk : FS :=
  mkFS (users_file groceries_disk) (users_index_file groceries_disk)
       (user_dirs groceries_disk) (notes_dirs groceries_disk)
       (database_files groceries_disk) (note_files groceries_disk)
       (media_dirs groceries_disk)
       {[("alice", "abc123") := mkLegacyDir None None (Some (Parsed old_groceries))]}
       (shared_dir groceries_disk) (shared_files groceries_disk).

(** Alice's fresh store, and next to it a note of hers under the
    identifier [__proto__] in a legacy directory of the combined shape. *)
Definition proto_disk : FS :=
  mkFS (users_file alice_disk) (users_index_file alice_disk)
       (user_dirs alice_disk) (notes_dirs alice_disk)
       (database_files alice_disk) (note_files alice_disk)
       (media_dirs alice_disk)
       {[("alice", "__proto__") := mkLegacyDir None None (Some (Parsed old_groceries))]}
       (shared_dir alice_disk) (shared_files alice_disk).

(** Alice's note carries the share identifier [cafe], but the shared
    directory has no document for it (as after a restore from a backup,
    which holds no share documents). *)
Definition dangling_disk : FS := set_shared_files ∅ shared_disk.

(** [shared_groceries] protected by a password hash. *)
Definition protected_groceries : Note :=
  {| title := title shared_groceries;
     markdown := markdown shared_groceries;
     tags := tags shared_groceries;
     groups := groups shared_groceries;
     isPasswordProtected := Some true;
     password := Some "saltsecret1";
     shareId := shareId shared_groceries;
     createdAt := createdAt shared_groceries;
     updatedAt := updatedAt shared_groceries |}.

Definition protected_disk : FS :=
  set_database_files
    {["alice" := Parsed {["abc123" := metadata_of protected_groceries]}]} shared_disk.

(** ** The other note routes *)

(** GET /api/file/:noteId *)
Definition get_api_file (userId noteId : string) : M (reply Note) :=
  try_catch
    (data <~ readNoteData userId noteId ;;
     ret (Success data))
    (fun error => ret (Failure 500 (MessageOf error))).

(** POST /api/files/new.  [randomBytes] is what [crypto.randomBytes(8)]
    returns, [created] and [updated] the two timestamps taken; the body
    of the reply is [noteId]. *)
Definition post_api_files_new (randomBytes : list ascii) (created updated : string)
    (userId : string) (name : option string) : M (reply string) :=
  try_catch
    (ensureUserDir userId ;;
     let noteId := generateNoteId randomBytes in
     let data :=
       {| title := Some (Js.or_string name "Untitled");
          markdown := Some "";
          tags := Some [];
          groups := Some [];
          isPasswordProtected := Some false;
          password := None;
          shareId := None;
          createdAt := Some created;
          updatedAt := Some updated |} in
     writeNoteData userId noteId data ;;
     ret (Success noteId))
    (fun error => ret (Failure 500 (MessageOf error))).

(** POST /api/notes/import: one note from markdown. *)
Definition post_api_notes_import (randomBytes : list ascii) (created updated : string)
    (userId : string) (title content : option string) : M (reply string) :=
  try_catch
    (if negb (Js.truthy_opt title) || negb (Js.truthy_opt content)
     then ret (Failure 400 (Text "Title and content are required"))
     else
       ensureUserDir userId ;;
       let noteId := generateNoteId randomBytes in
       let data :=
         {| title := title;
            markdown := content;
            tags := Some [];
            groups := None;
            isPasswordProtected := Some false;
            password := None;
            shareId := None;
            createdAt := Some created;
            updatedAt := Some updated |} in
       writeNoteData userId noteId data ;;
       ret (Success noteId))
    (fun error => ret (Failure 500 (MessageOf error))).

(** POST /api/file/metadata/:noteId *)
Record MetadataRequest := mkMetadataRequest {
  meta_tags : option (list string);
  meta_groups : option (list string);
  meta_password : option string;
  meta_isPasswordProtected : option bool
}.

Definition set_tags (v : option (list string)) (d : Note) : Note :=
  mkNote (title d) (markdown d) v (groups d) (isPasswordProtected d)
         (password d) (shareId d) (createdAt d) (updatedAt d).
Definition set_isPasswordProtected (v : option bool) (d : Note) : Note :=
  mkNote (title d) (markdown d) (tags d) (groups d) v
         (password d) (shareId d) (createdAt d) (updatedAt d).

Section Metadata.
Context `{Platform}.

(** The assignments of the handler to the note it has read. *)
Definition update_metadata (now salt : string) (body : MetadataRequest) (data : Note) : Note :=
  let data := match meta_tags body with       (* [if (tags !== undefined)] *)
              | Some tags => set_tags (Some tags) data
              | None => data
              end in
  let data := match meta_groups body with
              | Some groups => set_groups (Some groups) data
              | None => data
              end in
  let data :=
    match meta_isPasswordProtected body with
    | Some isPasswordProtected =>
        let data := set_isPasswordProtected (Some isPasswordProtected) data in
        if isPasswordProtected && Js.truthy_opt (meta_password body)
        then set_password (Some (bcrypt_hash salt (default "" (meta_password body)))) data
        else if negb isPasswordProtected then set_password None data
             else data
    | None => data
    end in
  set_updatedAt (Some now) data.

Definition post_api_file_metadata (now salt : string) (userId noteId : string)
    (body : MetadataRequest) : M (reply unit) :=
  try_catch
    (data <~ readNoteData userId noteId ;;
     writeNoteData userId noteId (update_metadata now salt body data) ;;
     ret (Success tt))
    (fun error => ret (Failure 500 (MessageOf error))).

End Metadata.

(** A request that turns protection off and changes the tags. *)
Definition unprotect_request : MetadataRequest :=
  {| meta_tags := Some ["home"; "public"];
     meta_groups := None;
     meta_password := None;
     meta_isPasswordProtected := Some false |}.

(** ** The rate limit of the login *)

(** A record of the map [loginAttempts]. *)
Record Attempt := mkAttempt {
  count : nat;
  timestamp : Z
}.

Definition MAX_LOGIN_ATTEMPTS : nat := 5.
Definition LOCKOUT_TIME : Z := 15 * 60 * 1000.

(** [checkRateLimit(ip)], with [now] for [Date.now()]: the answer and the
    map as the call leaves it. *)
Definition checkRateLimit (ip : string) (now : Z) (loginAttempts : gmap string Attempt)
  : bool * gmap string Attempt :=
  match loginAttempts !! ip with
  | None => (true, loginAttempts)
  | Some record =>
      if (LOCKOUT_TIME <? now - timestamp record)%Z
      then (true, delete ip loginAttempts)
      else ((count record <? MAX_LOGIN_ATTEMPTS)%nat, loginAttempts)
  end.

(** [recordFailedAttempt(ip)]: [now] is the clock of the test, [now'] the
    clock read again for the new record. *)
Definition recordFailedAttempt (ip : string) (now now' : Z)
    (loginAttempts : gmap string Attempt) : gmap string Attempt :=
  match loginAttempts !! ip with
  | Some record =>
      if (LOCKOUT_TIME <? now - timestamp record)%Z
      then <[ip := mkAttempt 1 now']> loginAttempts
      else <[ip := mkAttempt (S (count record)) (timestamp record)]> loginAttempts
  | None => <[ip := mkAttempt 1 now']> loginAttempts
  end.

(** The failed logins of one address in a row, each with its two readings
    of the clock. *)
Definition record_failures (ip : string) (times : list (Z * Z))
    (loginAttempts : gmap string Attempt) : gmap string Attempt :=
  fold_left (fun loginAttempts '(now, now') =>
               recordFailedAttempt ip now now' loginAttempts)
            times loginAttempts.

(** ** Export of a user's notes: GET /api/notes/export *)

(** The characters the class [[a-z0-9]] matches when case is ignored. *)
Definition is_alnum (c : ascii) : bool :=
  let n := Js.code c in
  (((48 <=? n) && (n <=? 57)) || ((65 <=? n) && (n <=? 90))
   || ((97 <=? n) && (n <=? 122)))%nat.

(** [title.replace(/[^a-z0-9]/gi, '_')] *)
Fixpoint replace_unsafe (title : string) : string :=
  match title with
  | EmptyString => EmptyString
  | String c title' => String (if is_alnum c then c else "_"%char) (replace_unsafe title')
  end.

(** [metadata.title.replace(/[^a-z0-9]/gi, '_').toLowerCase()] *)
Definition safeTitle (title : string) : string :=
  Js.toLowerCase (replace_unsafe title).

(** The answer is the list of the entries appended to the archive, each a
    file name with its text, in the order of the appends. *)
Definition get_api_notes_export (userId : string) : M (reply (list (string * string))) :=
  try_catch
    (database <~ loadUserDatabase userId ;;
     if (length (map_to_list database) =? 0)%nat
     then ret (Failure 404 (Text "No notes found"))
     else
       archive <~ fold_each (map_to_list database) []
         (fun archive '(noteId, metadata) =>
            try_catch
              (let notePath := getNoteFilePath userId noteId in
               markdown <~ try_catch
                             (read (fun s => readFile_text (note_files s !! notePath)))
                             (fun _ => ret "") ;;
               (* [metadata.title.replace] throws on a note without title *)
               title <~ match title metadata with
                        | Some t => ret t
                        | None => throw TypeError
                        end ;;
               let safeTitle := safeTitle title in
               let filename := safeTitle ++ ".md" in
               ret (archive ++ [(filename, markdown)])%list)
              (fun _ => ret archive)) ;;
       ret (Success archive))
    (fun error => ret (Failure 500 (MessageOf error))).

(** What one round of the loop of the export appends to the archive. *)
Definition export_entry (s : FS) (userId : string) (entry : string * Note)
  : option (string * string) :=
  match title entry.2 with
  | Some t => Some (safeTitle t ++ ".md", content_of s userId entry.1)
  | None => None
  end.

(** The characters of an exported file name before its extension. *)
Definition is_safe_char (c : ascii) : bool :=
  let n := Js.code c in
  (((48 <=? n) && (n <=? 57)) || ((97 <=? n) && (n <=? 122)) || (n =? 95))%nat.

(** alice's notes "My Note" and "my-note". *)
Definition same_name_disk : FS :=
  {| users_file := None;
     users_index_file := None;
     user_dirs := {["alice"]};
     notes_dirs := {["alice"]};
     database_files :=
       {["alice" := Parsed (<["n1" := mkNote (Some "My Note") None None None None None
                                        None None None]>
                            (<["n2" := mkNote (Some "my-note") None None None None None
                                         None None None]> ∅))]};
     note_files := <[("alice", "n1") := "one"]> (<[("alice", "n2") := "two"]> ∅);
     media_dirs := ∅;
     legacy_dirs := ∅;
     shared_dir := false;
     shared_files := ∅ |}.

(** * Properties *)

#[local] Set Warnings "-clear-no-such-hyp".

(** ** Strings *)

Lemma append_empty_r (s : string) : s ++ "" = s.
Proof.
  induction s as [|c s IH]; [reflexivity|].
  change (String c (s ++ "") = String c s). by rewrite IH.
Qed.

Lemma append_cons (c : ascii) (s t : string) : String c s ++ t = String c (s ++ t).
Proof. reflexivity. Qed.

Lemma append_assoc (s t u : string) : (s ++ t) ++ u = s ++ t ++ u.
Proof.
  induction s as [|c s IH]; [reflexivity|].
  by rewrite !append_cons, IH.
Qed.

Lemma length_append (s1 s2 : string) :
  String.length (s1 ++ s2) = String.length s1 + String.length s2.
Proof.
  induction s1 as [|c s1 IH]; [reflexivity|].
  rewrite append_cons. cbn. by rewrite IH.
Qed.

Lemma chars_app (s t : string) : chars (s ++ t) = (chars s ++ chars t)%list.
Proof.
  unfold chars. induction s as [|c s IH]; [reflexivity|].
  rewrite append_cons. cbn. by rewrite IH.
Qed.

(** ** Summaries *)

Example summary_short : summary ("# Shopping" ++ String "010" (String "010" "- *milk*  ")) = "Shopping - milk".
Proof. reflexivity. Qed.

Lemma summary_long_heading :
  summary (repeat_char "#" 101) = "...".
Proof. vm_compute. reflexivity. Qed.

Lemma length_remove_formatting s :
  String.length (remove_formatting s) <= String.length s.
Proof.
  induction s as [|c s IH]; simpl; [lia|].
  destruct (is_markdown_formatting c); simpl; lia.
Qed.

Lemma length_newlines_to_spaces_from b s :
  String.length (newlines_to_spaces_from b s) <= String.length s.
Proof.
  revert b. induction s as [|c s IH]; intros b; simpl; [lia|].
  pose proof (IH true). pose proof (IH false).
  destruct (is_newline c); [destruct b|]; simpl; lia.
Qed.

Lemma length_trimStart s : String.length (Js.trimStart s) <= String.length s.
Proof.
  induction s as [|c s IH]; simpl; [lia|].
  destruct (Js.is_space c); simpl; lia.
Qed.

Lemma length_trimEnd s : String.length (Js.trimEnd s) <= String.length s.
Proof.
  induction s as [|c s IH]; simpl; [lia|].
  destruct (Js.is_space c && negb (Js.truthy (Js.trimEnd s))); simpl; lia.
Qed.

Lemma length_plain_text markdown :
  String.length (plain_text markdown) <= String.length markdown.
Proof.
  unfold plain_text, Js.trim, newlines_to_spaces.
  pose proof (length_trimEnd (Js.trimStart (newlines_to_spaces_from false (remove_formatting markdown)))).
  pose proof (length_trimStart (newlines_to_spaces_from false (remove_formatting markdown))).
  pose proof (length_newlines_to_spaces_from false (remove_formatting markdown)).
  pose proof (length_remove_formatting markdown).
  lia.
Qed.

(** The first [replace] deletes the formatting characters and nothing
    else. *)
Lemma remove_formatting_filter (s : string) :
  chars (remove_formatting s)
  = List.filter (fun c => negb (is_markdown_formatting c)) (chars s).
Proof.
  unfold chars. induction s as [|c s IH]; [reflexivity|].
  cbn. destruct (is_markdown_formatting c); cbn; by rewrite IH.
Qed.

Lemma is_newline_char (c : ascii) : is_newline c = true -> c = "010"%char.
Proof.
  unfold is_newline, Js.code. intros Hc. apply Nat.eqb_eq in Hc.
  rewrite <- (ascii_nat_embedding c), Hc. reflexivity.
Qed.

Lemma newlines_in_run (k : nat) (s : string) :
  newlines_to_spaces_from true (repeat_char "010" k ++ s)
  = newlines_to_spaces_from true s.
Proof. induction k as [|k IH]; [reflexivity|]. exact IH. Qed.

Lemma newlines_after_run (s : string) :
  starts_with_newline s = false ->
  newlines_to_spaces_from true s = newlines_to_spaces_from false s.
Proof. destruct s as [|c s]; [reflexivity|]. cbn. by intros ->. Qed.

Lemma newlines_run (k : nat) (s : string) :
  starts_with_newline s = false ->
  newlines_to_spaces_from false (repeat_char "010" (S k) ++ s)
  = String " " (newlines_to_spaces_from false s).
Proof.
  intros Hs. change (repeat_char "010" (S k) ++ s)
    with (String "010" (repeat_char "010" k ++ s)).
  cbn [newlines_to_spaces_from]. change (is_newline "010") with true. cbn iota.
  by rewrite newlines_in_run, newlines_after_run.
Qed.

Lemma split_newline_run (s : string) :
  exists (k : nat) (s' : string),
    s = repeat_char "010" k ++ s' /\ starts_with_newline s' = false.
Proof.
  induction s as [|c s (k & s' & -> & Hs')]; [by exists 0, ""|].
  destruct (is_newline c) eqn:Hc.
  - apply is_newline_char in Hc as ->. by exists (S k), s'.
  - by exists 0, (String c (repeat_char "010" k ++ s')).
Qed.

(** The second [replace] turns every maximal run of newlines into one
    space and changes nothing else. *)
Lemma newlines_to_spaces_runs (s : string) :
  newline_runs_replaced s (newlines_to_spaces s).
Proof.
  unfold newlines_to_spaces.
  remember (String.length s) as n eqn:Hn.
  assert (Hle : String.length s <= n) by lia. clear Hn.
  revert s Hle. induction n as [|n IH]; intros s Hle.
  { destruct s; [constructor | cbn in Hle; lia]. }
  destruct s as [|c s]; [constructor|]. cbn in Hle.
  destruct (is_newline c) eqn:Hc.
  - apply is_newline_char in Hc as ->.
    destruct (split_newline_run s) as (k & s' & -> & Hs').
    change (String "010" (repeat_char "010" k ++ s'))
      with (repeat_char "010" (S k) ++ s').
    rewrite newlines_run by done. apply runs_run; [done|].
    apply IH. rewrite length_append in Hle. lia.
  - cbn [newlines_to_spaces_from]. rewrite Hc.
    apply runs_keep; [done|]. apply IH. lia.
Qed.

Lemma trimStart_spec (s : string) :
  (exists pre : string,
     s = pre ++ Js.trimStart s /\ Forall (fun c => Js.is_space c = true) (chars pre))
  /\ (forall c, head (chars (Js.trimStart s)) = Some c -> Js.is_space c = false).
Proof.
  induction s as [|c s [(pre & Hpre & Hspace) Hhead]].
  { split; [by exists "" | done]. }
  cbn [Js.trimStart]. destruct (Js.is_space c) eqn:Hc.
  - split; [|done]. exists (String c pre). split.
    + rewrite append_cons. by rewrite <- Hpre.
    + by constructor.
  - split; [by exists ""|]. cbn. by intros ? [= <-].
Qed.

Lemma trimEnd_spec (s : string) :
  (exists post : string,
     s = Js.trimEnd s ++ post /\ Forall (fun c => Js.is_space c = true) (chars post))
  /\ (forall c, last (chars (Js.trimEnd s)) = Some c -> Js.is_space c = false)
  /\ (forall c, head (chars (Js.trimEnd s)) = Some c -> head (chars s) = Some c).
Proof.
  induction s as [|c s [(post & Hpost & Hspace) [Hlast Hhead]]].
  { split; [by exists "" | done]. }
  cbn [Js.trimEnd].
  destruct (Js.is_space c && negb (Js.truthy (Js.trimEnd s))) eqn:Hcond.
  - apply andb_true_iff in Hcond as [Hc Hempty].
    destruct (Js.trimEnd s); [|done]. cbn in Hpost.
    split; [|done]. exists (String c s). split; [done|].
    constructor; [done | by rewrite Hpost].
  - split; [|split].
    + exists post. split; [|done]. rewrite append_cons. by rewrite <- Hpost.
    + intros c'. cbn [chars list_ascii_of_string].
      destruct (Js.trimEnd s) as [|c1 t] eqn:Ht.
      * cbn. intros [= <-]. by destruct (Js.is_space c).
      * intros Hc'. apply Hlast.
        change (list_ascii_of_string (String c1 t)) with (c1 :: chars t) in Hc'.
        by rewrite last_cons_cons in Hc'.
    + done.
Qed.

(** [trim] removes the white space at the two ends and nothing else. *)
Lemma trim_spec (s : string) : ends_trimmed s (Js.trim s).
Proof.
  unfold Js.trim.
  destruct (trimStart_spec s) as [(pre & Hpre & Hspace_pre) Hhead].
  destruct (trimEnd_spec (Js.trimStart s))
    as [(post & Hpost & Hspace_post) [Hlast Hhead']].
  split; [|split; [|done]].
  - exists pre, post. by rewrite <- Hpost.
  - intros c Hc. apply Hhead. by apply Hhead'.
Qed.

(** C9, as stated, fails twice.  White space is not collapsed: two spaces
    inside the text stay two spaces.  And the ellipsis does not follow the
    cut: a note of 101 heading marks has an empty text, nothing is cut
    from it, and its summary is the ellipsis alone. *)
Lemma summary_spec_counterexample :
  summary "a  b" <> summary_spec "a  b"
  /\ summary (repeat_char "#" 101) <> summary_spec (repeat_char "#" 101).
Proof. split; vm_compute; discriminate. Qed.

(** C9 (amended): the summary is a function of the content alone, empty
    for empty content.  Otherwise the characters [# * _ ~ ` [ ]] are
    deleted, every maximal run of newlines becomes one space, the white
    space at the two ends is removed, and of the text so obtained the
    first 100 characters are kept; ["..."] is appended exactly when the
    content itself is longer than 100 characters.  The text is never
    longer than the content, so a preview that was cut always carries the
    ellipsis. *)
Theorem summary_of_content (markdown : string) :
  if Js.truthy markdown then
    exists stripped joined text : string,
      chars stripped
      = List.filter (fun c => negb (is_markdown_formatting c)) (chars markdown)
      /\ newline_runs_replaced stripped joined
      /\ ends_trimmed joined text
      /\ summary markdown
         = Js.substring0 100 text
           ++ (if (100 <? String.length markdown)%nat then "..." else "")
      /\ String.length text <= String.length markdown
  else summary markdown = "".
Proof.
  destruct markdown as [|c m]; [reflexivity|]. cbn [Js.truthy].
  exists (remove_formatting (String c m)),
         (newlines_to_spaces (remove_formatting (String c m))),
         (plain_text (String c m)).
  split; [apply remove_formatting_filter|].
  split; [apply newlines_to_spaces_runs|].
  split; [apply trim_spec|].
  split; [|apply length_plain_text].
  unfold summary. cbn [Js.truthy].
  destruct (100 <? String.length (String c m))%nat; [reflexivity|].
  by rewrite append_empty_r.
Qed.

Example summary_keeps_inner_spaces :
  summary (String "009" "a  b" ++ String "010" (String "010" "c ")) = "a  b c".
Proof. reflexivity. Qed.

(** ** Dictionaries *)

Lemma get_own {A} (object : gmap string A) (key : string) (a : A) :
  object !! key = Some a -> Js.get object key = Js.Own a.
Proof. unfold Js.get. by intros ->. Qed.

Lemma get_missing {A} (object : gmap string A) (key : string) :
  object !! key = None ->
  Js.get object key = if Js.inherited key then Js.Inherited else Js.Undefined.
Proof. unfold Js.get. by intros ->. Qed.

Lemma get_undefined {A} (object : gmap string A) (key : string) :
  Js.get object key = Js.Undefined
  <-> object !! key = None /\ Js.inherited key = false.
Proof.
  unfold Js.get. destruct (object !! key); [by split; [|intros []]|].
  destruct (Js.inherited key); by split; [|intros []].
Qed.

Lemma not_inherited_proto (key : string) :
  Js.inherited key = false -> key <> "__proto__".
Proof. by intros Hkey ->. Qed.

Lemma set_insert {A} (key : string) (value : A) (object : gmap string A) :
  key <> "__proto__" -> Js.set key value object = <[key := value]> object.
Proof.
  intros Hkey. unfold Js.set.
  destruct (String.eqb_spec key "__proto__"); done.
Qed.

Lemma set_own {A} (key : string) (value : A) (object : gmap string A) :
  is_Some (object !! key) -> Js.set key value object = <[key := value]> object.
Proof.
  intros Hown. unfold Js.set. rewrite bool_decide_eq_true_2 by done.
  by rewrite andb_false_r.
Qed.

Lemma lookup_set_ne {A} (key key' : string) (value : A) (object : gmap string A) :
  key' <> key -> Js.set key value object !! key' = object !! key'.
Proof.
  intros Hne. unfold Js.set. destruct (_ && _); [done|].
  by rewrite lookup_insert_ne.
Qed.

Lemma get_set_ne {A} (key key' : string) (value : A) (object : gmap string A) :
  key' <> key -> Js.get (Js.set key value object) key' = Js.get object key'.
Proof. intros Hne. unfold Js.get. by rewrite lookup_set_ne. Qed.

Lemma lookup_set {A} (key : string) (value : A) (object : gmap string A) :
  key <> "__proto__" -> Js.set key value object !! key = Some value.
Proof. intros Hkey. rewrite set_insert by done. apply lookup_insert_eq. Qed.

Lemma set_set {A} (key : string) (value value' : A) (object : gmap string A) :
  Js.set key value (Js.set key value' object) = Js.set key value object.
Proof.
  unfold Js.set at 2 3.
  destruct (String.eqb key "__proto__"
            && negb (bool_decide (is_Some (object !! key)))) eqn:Hskip.
  - unfold Js.set. by rewrite Hskip.
  - rewrite set_own by (rewrite lookup_insert_eq; by eexists).
    apply insert_insert_eq.
Qed.

(** ** Running the store *)

Lemma loadUserDatabase_run (s : FS) (userId : string) :
  loadUserDatabase userId s = (s, Ok (index_of s userId)).
Proof.
  unfold loadUserDatabase, index_of, try_catch, read, ret.
  destruct (database_files s !! getUserDatabasePath userId) as [[|database]|];
    reflexivity.
Qed.

Lemma readLegacyNoteData_run (s : FS) (userId noteId : string) :
  readLegacyNoteData userId noteId s = (s, legacy_result s userId noteId).
Proof.
  unfold readLegacyNoteData, legacy_result, from_legacy_split,
    try_catch, bind, read, ret.
  destruct (metadata_json (legacy_dir s (getLegacyNoteDir userId noteId)))
    as [[|metadata]|]; cbn; try reflexivity.
  destruct (content_md (legacy_dir s (getLegacyNoteDir userId noteId)));
    reflexivity.
Qed.

Lemma readNoteData_run (s : FS) (userId noteId : string) :
  readNoteData userId noteId s = (s, read_result s userId noteId).
Proof.
  unfold readNoteData, read_result, from_index, bind.
  rewrite loadUserDatabase_run.
  destruct (Js.get (index_of s userId) noteId) as [metadata| |];
    [| |apply readLegacyNoteData_run];
    unfold try_catch, read, ret;
    destruct (note_files s !! getNoteFilePath userId noteId); reflexivity.
Qed.

(** What a reader gets for a note of the index. *)
Lemma read_result_own (s : FS) (userId noteId : string) (metadata : Note) :
  index_of s userId !! noteId = Some metadata ->
  read_result s userId noteId
  = Ok (set_markdown
          (Some (default "" (note_files s !! getNoteFilePath userId noteId)))
          metadata).
Proof.
  intros Hidx. unfold read_result, from_index. by rewrite (get_own _ _ _ Hidx).
Qed.

(** ** Reading a note *)

(** On an identifier that is no name of [Object.prototype], and on every
    identifier that is in the index, [readNoteData] resolves as the
    specification says: the index entry with the text of the content
    file, then the split legacy shape, then the combined one; it throws
    exactly when none of the three has data. *)
Theorem readNoteData_resolves (s : FS) (userId noteId : string) :
  Js.inherited noteId = false \/ is_Some (index_of s userId !! noteId) ->
  readNoteData userId noteId s =
    (s, match read_spec s userId noteId with
        | Some note => Ok note
        | None =>
            Throw (match note_json (legacy_dir s (getLegacyNoteDir userId noteId)) with
                   | Some _ => SyntaxError
                   | None => ENOENT
                   end)
        end).
Proof.
  intros Hkey. rewrite readNoteData_run.
  unfold read_result, from_index, read_spec, spec_from_index, Js.get,
    legacy_result, from_legacy_combined.
  destruct (index_of s userId !! noteId) as [metadata|]; [reflexivity|].
  destruct Hkey as [-> | [? [=]]].
  destruct (from_legacy_split s userId noteId); [reflexivity|].
  destruct (note_json (legacy_dir s (getLegacyNoteDir userId noteId)))
    as [[|note]|]; reflexivity.
Qed.

Lemma readNoteData_resolves_witness :
  (Js.inherited "abc123" = false \/ is_Some (index_of legacy_disk "alice" !! "abc123"))
  /\ readNoteData "alice" "abc123" legacy_disk =
       (legacy_disk,
        match read_spec legacy_disk "alice" "abc123" with
        | Some note => Ok note
        | None =>
            Throw (match note_json (legacy_dir legacy_disk
                                      (getLegacyNoteDir "alice" "abc123")) with
                   | Some _ => SyntaxError
                   | None => ENOENT
                   end)
        end).
Proof.
  assert (Hkey : Js.inherited "abc123" = false
                 \/ is_Some (index_of legacy_disk "alice" !! "abc123"))
    by (left; reflexivity).
  split; [exact Hkey|].
  exact (readNoteData_resolves legacy_disk "alice" "abc123" Hkey).
Defined.

(** C2 fails on the code.  On alice's fresh store no source has a note
    "constructor": the index is empty and there is no legacy directory.
    Yet [readNoteData] does not throw: [database.notes["constructor"]] is
    the function every object inherits, which is truthy, and the reader
    returns an object that has the (empty) content and nothing else; GET
    /api/file/constructor answers with it. *)
Theorem readNoteData_finds_inherited :
  read_spec alice_disk "alice" "constructor" = None
  /\ readNoteData "alice" "constructor" alice_disk
     = (alice_disk, Ok (set_markdown (Some "") no_fields))
  /\ get_api_file "alice" "constructor" alice_disk
     = (alice_disk, Ok (Success (set_markdown (Some "") no_fields))).
Proof. repeat split; vm_compute; reflexivity. Qed.

Example read_index_without_content :
  readNoteData "alice" "abc123"
    (set_database_files {["alice" := Parsed {["abc123" := metadata_of groceries]}]} alice_disk)
  = (set_database_files {["alice" := Parsed {["abc123" := metadata_of groceries]}]} alice_disk,
     Ok (set_markdown (Some "") groceries)).
Proof. vm_compute. reflexivity. Qed.

(** ** Writing a note *)

Lemma writeNoteData_steps (userId noteId : string) (data : Note) (s : FS) :
  writeNoteData userId noteId data s =
    bind (writeNoteData_index_step userId noteId data)
         (fun _ => writeNoteData_content_step userId noteId data) s.
Proof.
  unfold writeNoteData, writeNoteData_index_step, writeNoteData_content_step, bind.
  rewrite loadUserDatabase_run.
  destruct (saveUserDatabase userId _ s) as [s1 [[]|e]]; reflexivity.
Qed.

(** The disk after the index write of [writeNoteData]. *)
Lemma index_step_run (userId noteId : string) (data : Note) (s : FS) :
  has_user_dir (getUserDir userId) s = true ->
  writeNoteData_index_step userId noteId data s =
    (after_index_write userId noteId data s, Ok tt).
Proof.
  intros Hdir. unfold writeNoteData_index_step, bind.
  rewrite loadUserDatabase_run.
  unfold saveUserDatabase, writeFile_database, write_in, getUserDatabasePath.
  by rewrite Hdir.
Qed.

Lemma set_markdown_metadata_of (v : option string) (data : Note) :
  set_markdown v (metadata_of data) = set_markdown v data.
Proof. reflexivity. Qed.

Lemma writeNoteData_run (userId noteId : string) (data : Note) (s : FS) :
  writeNoteData userId noteId data s =
    if has_user_dir (getUserDir userId) s then
      if has_notes_dir (getUserNotesDir userId) s
      then (after_write userId noteId data s, Ok tt)
      else (after_index_write userId noteId data s, Throw ENOENT)
    else (s, Throw ENOENT).
Proof.
  unfold writeNoteData, bind. rewrite loadUserDatabase_run.
  unfold saveUserDatabase, writeFile_database, write_in, getUserDatabasePath.
  destruct (has_user_dir (getUserDir userId) s); [|reflexivity].
  unfold writeFile_note, write_in.
  change (has_notes_dir (getNoteFilePath userId noteId).1 ?s')
    with (has_notes_dir (getUserNotesDir userId) s).
  destruct (has_notes_dir (getUserNotesDir userId) s); reflexivity.
Qed.

Lemma index_after_index_write (userId noteId : string) (data : Note) (s : FS) :
  index_of (after_index_write userId noteId data s) userId
  = Js.set noteId (metadata_of data) (index_of s userId).
Proof. unfold index_of at 1, after_index_write. cbn. by rewrite lookup_insert_eq. Qed.

Lemma lookup_set_stored {A} (key : string) (value : A) (object : gmap string A) :
  key <> "__proto__" \/ is_Some (object !! key) ->
  Js.set key value object !! key = Some value.
Proof.
  intros [Hkey|Hown]; [by apply lookup_set|].
  rewrite set_own by done. apply lookup_insert_eq.
Qed.

Lemma read_after_index_write (userId noteId : string) (data : Note) (s : FS) :
  can_store s userId noteId ->
  read_result (after_index_write userId noteId data s) userId noteId
  = Ok (set_markdown
          (Some (default "" (note_files s !! getNoteFilePath userId noteId))) data).
Proof.
  intros Hkey. rewrite (read_result_own _ _ _ (metadata_of data)); [reflexivity|].
  rewrite index_after_index_write. by apply lookup_set_stored.
Qed.

Lemma read_after_write (userId noteId : string) (data : Note) (s : FS) :
  can_store s userId noteId ->
  read_result (after_write userId noteId data s) userId noteId
  = Ok (set_markdown (Some (Js.or_string (markdown data) "")) data).
Proof.
  intros Hkey. rewrite (read_result_own _ _ _ (metadata_of data)).
  - unfold after_write. cbn. by rewrite lookup_insert_eq.
  - change (index_of (after_write userId noteId data s) userId)
      with (index_of (after_index_write userId noteId data s) userId).
    rewrite index_after_index_write. by apply lookup_set_stored.
Qed.


(** C1, as stated, fails: on alice's fresh store the first write of a note
    leaves a disk on which a reader finds the new index entry with empty
    content, before the content file is written. *)
Lemma content_never_behind_metadata_counterexample :
  ~ content_never_behind_metadata.
Proof.
  intros Hclaim.
  pose (s1 := set_database_files
                {["alice" := Parsed {["abc123" := metadata_of groceries]}]}
                alice_disk).
  specialize (Hclaim alice_disk "alice" "abc123" groceries s1
                (set_markdown (Some "") groceries)).
  assert (Hobs : s1 ∈ writeNoteData_observable "alice" "abc123" groceries alice_disk).
  { vm_compute writeNoteData_observable. apply list_elem_of_here. }
  assert (Hread : readNoteData "alice" "abc123" s1
                  = (s1, Ok (set_markdown (Some "") groceries))).
  { vm_compute. reflexivity. }
  specialize (Hclaim Hobs Hread eq_refl).
  discriminate Hclaim.
Qed.

(** C1 (amended): on a store whose directories exist, and for an
    identifier that names a directory entry and is not ["__proto__"],
    [writeNoteData] writes the index entry first and the content file
    second and succeeds; a reader
    between the two writes gets the new metadata with the content the
    file had before the write (the empty string when the file was
    missing, never an error), and a reader after the second write gets
    the new metadata with the new content. *)
Theorem writeNoteData_index_then_content (s : FS) (userId noteId : string) (data : Note) :
  has_user_dir (getUserDir userId) s = true ->
  has_notes_dir (getUserNotesDir userId) s = true ->
  storable noteId = true ->
  noteId <> "__proto__" ->
  exists s1 s2 : FS,
    writeNoteData_observable userId noteId data s = [s1; s2]
    /\ writeNoteData userId noteId data s = (s2, Ok tt)
    /\ readNoteData userId noteId s1 =
         (s1, Ok (set_markdown
                    (Some (default "" (note_files s !! getNoteFilePath userId noteId)))
                    data))
    /\ readNoteData userId noteId s2 =
         (s2, Ok (set_markdown (Some (Js.or_string (markdown data) "")) data)).
Proof.
  intros Hdir Hnotes _ Hkey.
  pose proof (index_step_run userId noteId data s Hdir) as Hstep.
  assert (Hcontent : writeNoteData_content_step userId noteId data
                       (after_index_write userId noteId data s)
                     = (after_write userId noteId data s, Ok tt)).
  { unfold writeNoteData_content_step, writeFile_note, write_in.
    change (has_notes_dir (getNoteFilePath userId noteId).1
              (after_index_write userId noteId data s))
      with (has_notes_dir (getUserNotesDir userId) s).
    by rewrite Hnotes. }
  exists (after_index_write userId noteId data s), (after_write userId noteId data s).
  repeat split.
  - unfold writeNoteData_observable. rewrite Hstep, Hcontent. reflexivity.
  - by rewrite writeNoteData_run, Hdir, Hnotes.
  - rewrite readNoteData_run. rewrite read_after_index_write; [done | by left].
  - rewrite readNoteData_run. rewrite read_after_write; [done | by left].
Qed.

Lemma writeNoteData_index_then_content_witness :
  has_user_dir (getUserDir "alice") alice_disk = true
  /\ has_notes_dir (getUserNotesDir "alice") alice_disk = true
  /\ storable "abc123" = true
  /\ "abc123" <> "__proto__"
  /\ exists s1 s2 : FS,
       writeNoteData_observable "alice" "abc123" groceries alice_disk = [s1; s2]
       /\ writeNoteData "alice" "abc123" groceries alice_disk = (s2, Ok tt)
       /\ readNoteData "alice" "abc123" s1 =
            (s1, Ok (set_markdown
                       (Some (default "" (note_files alice_disk
                                            !! getNoteFilePath "alice" "abc123")))
                       groceries))
       /\ readNoteData "alice" "abc123" s2 =
            (s2, Ok (set_markdown (Some (Js.or_string (markdown groceries) "")) groceries)).
Proof.
  split; [vm_compute; reflexivity|].
  split; [vm_compute; reflexivity|].
  split; [reflexivity|].
  split; [discriminate|].
  apply (writeNoteData_index_then_content alice_disk "alice" "abc123" groceries);
    [vm_compute; reflexivity | vm_compute; reflexivity | reflexivity | discriminate].
Defined.

(** Under ["__proto__"] nothing can be stored that is not there already:
    the assignment of [writeNoteData] reaches the accessor of the
    prototype, the index is written back as it was, and the reader
    afterwards finds the content and no field of the note. *)
Example write_under_proto :
  (writeNoteData "alice" "__proto__" groceries alice_disk).2 = Ok tt
  /\ index_of (writeNoteData "alice" "__proto__" groceries alice_disk).1 "alice" = ∅
  /\ read_result (writeNoteData "alice" "__proto__" groceries alice_disk).1
       "alice" "__proto__"
     = Ok (set_markdown (Some "- milk") no_fields).
Proof. repeat split; vm_compute; reflexivity. Qed.

(** ** A user without a store *)

(** C8: when database.json of a user is missing or does not parse,
    [loadUserDatabase] returns the empty index and [getNotesForUser] the
    empty list; neither throws and neither touches the disk. *)
Theorem no_store_reads_empty `{Platform} (s : FS) (userId : string) :
  database_files s !! getUserDatabasePath userId = None
  \/ database_files s !! getUserDatabasePath userId = Some Malformed ->
  loadUserDatabase userId s = (s, Ok ∅)
  /\ getNotesForUser userId s = (s, Ok []).
Proof.
  intros Hfile.
  assert (Hload : loadUserDatabase userId s = (s, Ok ∅)).
  { rewrite loadUserDatabase_run. unfold index_of.
    destruct Hfile as [-> | ->]; reflexivity. }
  split; [exact Hload|].
  unfold getNotesForUser, bind. rewrite Hload.
  rewrite map_to_list_empty. reflexivity.
Qed.

Lemma no_store_reads_empty_witness :
  (database_files empty_disk !! getUserDatabasePath "bob" = None
   \/ database_files empty_disk !! getUserDatabasePath "bob" = Some Malformed)
  /\ loadUserDatabase "bob" empty_disk = (empty_disk, Ok ∅)
  /\ @getNotesForUser sample_platform "bob" empty_disk = (empty_disk, Ok []).
Proof.
  split; [left; reflexivity|].
  apply (@no_store_reads_empty sample_platform empty_disk "bob").
  left. reflexivity.
Defined.

(** ** Search *)

(** C6 fails on the code: the note [groceries] belongs to the group
    "Work", and a search for "work" through GET /api/search does not find
    it, because [searchNotes] never looks at [metadata.groups]. *)
Theorem search_ignores_groups :
  existsb (fun group => Js.includes (Js.toLowerCase group) (Js.toLowerCase "work"))
          (Js.or_list (groups groceries)) = true
  /\ get_api_search "alice" (Some "work") groceries_disk
     = (groceries_disk, Ok (Success [])).
Proof. split; vm_compute; reflexivity. Qed.

Example search_finds_title :
  (get_api_search "alice" (Some "GROC") groceries_disk).2
  = Ok (Success [ {| result_name := "Groceries"; result_path := "abc123";
                     result_preview := "- milk"; result_tags := ["home"] |} ]).
Proof. vm_compute. reflexivity. Qed.

(** ** Deleting a note *)

Lemma unlink_note_run (path : string * string) (s : FS) :
  try_catch (unlink_note path) (fun _ => ret tt) s
  = (set_note_files (delete path (note_files s)) s, Ok tt).
Proof.
  unfold try_catch, unlink_note, has_note_file, ret.
  case_bool_decide as Hfile; [reflexivity|].
  rewrite delete_id; [by destruct s|].
  by apply eq_None_not_Some.
Qed.

Lemma delete_api_file_run (s : FS) (userId noteId : string) :
  delete_api_file userId noteId s =
    if has_user_dir (getUserDir userId) s
    then (after_delete userId noteId s, Ok (Success tt))
    else (s, Ok (Failure 500 (MessageOf ENOENT))).
Proof.
  unfold delete_api_file, try_catch at 1, bind at 1.
  rewrite loadUserDatabase_run.
  unfold saveUserDatabase, writeFile_database, write_in, getUserDatabasePath.
  unfold bind at 1.
  destruct (has_user_dir (getUserDir userId) s); [|reflexivity].
  unfold bind at 1. rewrite unlink_note_run. reflexivity.
Qed.

(** C7 fails on the code: DELETE /api/file/:noteId does not create the
    store of the user before it writes database.json.  For a user whose
    directory does not exist yet the write throws and the handler answers
    500, where the claim says that deleting a nonexistent note is not an
    error.  The routes next to it call [ensureUserDir] first: saving the
    same note for the same user on the same disk succeeds. *)
Theorem delete_without_store_fails :
  delete_api_file "bob" "abc123" empty_disk
  = (empty_disk, Ok (Failure 500 (MessageOf ENOENT)))
  /\ (@post_api_file sample_platform "2024-02-01T00:00:00.000Z"
        "2024-02-01T00:00:00.001Z" "salt" "bob" "abc123" sample_request empty_disk).2
     = Ok (Success tt).
Proof. split; vm_compute; reflexivity. Qed.

(** For a user whose directory exists, and a user name and a note
    identifier that name directory entries, delete succeeds whatever is
    left of the note; afterwards the index has no entry for the note, the
    content file and the media directory are gone, and a second delete
    succeeds and changes nothing. *)
Theorem delete_api_file_idempotent (s : FS) (userId noteId : string) :
  has_user_dir (getUserDir userId) s = true ->
  storable userId = true ->
  storable noteId = true ->
  delete_api_file userId noteId s = (after_delete userId noteId s, Ok (Success tt))
  /\ index_of (after_delete userId noteId s) userId !! noteId = None
  /\ note_files (after_delete userId noteId s) !! getNoteFilePath userId noteId = None
  /\ media_dirs (after_delete userId noteId s) !! getNoteMediaDir userId noteId = None
  /\ delete_api_file userId noteId (after_delete userId noteId s)
     = (after_delete userId noteId s, Ok (Success tt)).
Proof.
  intros Hdir _ _.
  assert (Hidx : index_of (after_delete userId noteId s) userId
                 = delete noteId (index_of s userId)).
  { unfold index_of at 1, after_delete. cbn. by rewrite lookup_insert_eq. }
  split; [by rewrite delete_api_file_run, Hdir|].
  split; [rewrite Hidx; apply lookup_delete_eq|].
  split; [apply lookup_delete_eq|].
  split; [apply lookup_delete_eq|].
  rewrite delete_api_file_run.
  change (has_user_dir (getUserDir userId) (after_delete userId noteId s))
    with (has_user_dir (getUserDir userId) s).
  rewrite Hdir. f_equal.
  unfold after_delete at 1. rewrite Hidx.
  unfold after_delete; cbn.
  by rewrite !delete_delete_eq, insert_insert_eq.
Qed.

Lemma delete_api_file_idempotent_witness :
  has_user_dir (getUserDir "alice") groceries_disk = true
  /\ storable "alice" = true
  /\ storable "abc123" = true
  /\ delete_api_file "alice" "abc123" groceries_disk
     = (after_delete "alice" "abc123" groceries_disk, Ok (Success tt))
  /\ index_of (after_delete "alice" "abc123" groceries_disk) "alice" !! "abc123" = None
  /\ note_files (after_delete "alice" "abc123" groceries_disk)
       !! getNoteFilePath "alice" "abc123" = None
  /\ media_dirs (after_delete "alice" "abc123" groceries_disk)
       !! getNoteMediaDir "alice" "abc123" = None
  /\ delete_api_file "alice" "abc123" (after_delete "alice" "abc123" groceries_disk)
     = (after_delete "alice" "abc123" groceries_disk, Ok (Success tt)).
Proof.
  split; [vm_compute; reflexivity|].
  split; [vm_compute; reflexivity|].
  split; [vm_compute; reflexivity|].
  apply (delete_api_file_idempotent groceries_disk "alice" "abc123");
    vm_compute; reflexivity.
Defined.

(** C5, as stated, fails: alice's note is shared under the token "cafe";
    after the note is deleted the document of that token is still in the
    shared directory. *)
Lemma delete_destroys_share_counterexample : ~ delete_destroys_share.
Proof.
  intros Hclaim.
  specialize (Hclaim shared_disk "alice" "abc123" "cafe"
                (set_markdown (Some "- milk") shared_groceries)
                (mkShareEntry "alice" "abc123" "2024-01-03T00:00:00.000Z")).
  vm_compute in Hclaim.
  specialize (Hclaim eq_refl eq_refl eq_refl eq_refl eq_refl).
  discriminate Hclaim.
Qed.

(** C5 (amended): deleting a note does not touch the Share Registry: the
    shared directory holds the same documents after DELETE
    /api/file/:noteId as before, the Share Entry of the deleted note
    among them. *)
Theorem delete_keeps_share_registry (s : FS) (userId noteId : string) :
  shared_files (delete_api_file userId noteId s).1 = shared_files s.
Proof.
  rewrite delete_api_file_run.
  destruct (has_user_dir (getUserDir userId) s); reflexivity.
Qed.

(** ** Paths of hexadecimal identifiers *)

Lemma drop_seps_id (l : list ascii) :
  Forall (fun c => is_sep c = false) l -> drop_seps l = l.
Proof. intros Hl. destruct Hl as [|c l Hc _]; simpl; [done|]. by rewrite Hc. Qed.

Lemma take_segment_id (l : list ascii) :
  Forall (fun c => is_sep c = false) l -> take_segment l = l.
Proof.
  induction 1 as [|c l Hc _ IH]; simpl; [done|]. by rewrite Hc, IH.
Qed.

Lemma basename_plain (p : string) :
  Forall (fun c => is_sep c = false) (list_ascii_of_string p) -> basename p = p.
Proof.
  intros Hp. unfold basename.
  assert (Hrev : Forall (fun c => is_sep c = false) (rev (list_ascii_of_string p))).
  { by apply Forall_rev. }
  rewrite drop_seps_id, take_segment_id by done.
  by rewrite rev_involutive, string_of_list_ascii_of_string.
Qed.

Lemma hex_digit_no_sep (n : nat) : is_sep (hex_digit n) = false.
Proof. do 16 (destruct n as [|n]; [reflexivity|]). reflexivity. Qed.

Lemma toHex_no_sep (buffer : list ascii) :
  Forall (fun c => is_sep c = false) (list_ascii_of_string (toHex buffer)).
Proof.
  induction buffer as [|b buffer IH]; simpl; [constructor|].
  repeat constructor; auto using hex_digit_no_sep.
Qed.

Lemma basename_toHex (buffer : list ascii) : basename (toHex buffer) = toHex buffer.
Proof. apply basename_plain, toHex_no_sep. Qed.

Lemma truthy_toHex (buffer : list ascii) :
  length buffer = 16 -> Js.truthy (toHex buffer) = true.
Proof. destruct buffer; [discriminate | reflexivity]. Qed.

(** ** Share links *)

Lemma get_api_shared_run `{Platform} (s : FS) (shareId : string) (given : option string) :
  get_api_shared shareId given s = (s, Ok (shared_result s shareId given)).
Proof.
  unfold get_api_shared, shared_result, try_catch, bind, read, ret.
  destruct (shared_files s !! basename shareId) as [[|sharedData]|]; cbn;
    try reflexivity.
  rewrite readNoteData_run.
  destruct (read_result s (share_userId sharedData) (share_noteId sharedData));
    reflexivity.
Qed.

Lemma ensureSharedDir_run (s : FS) :
  ensureSharedDir s = (set_shared_dir true s, Ok tt).
Proof.
  unfold ensureSharedDir, try_catch, read, write, access.
  destruct s as [? ? ? ? ? ? ? ? [] ?]; reflexivity.
Qed.

Lemma unlink_shared_run (name : string) (s : FS) :
  try_catch (unlink_shared name) (fun _ => ret tt) s
  = (set_shared_files (delete name (shared_files s)) s, Ok tt).
Proof.
  unfold try_catch, unlink_shared, ret.
  case_bool_decide as Hfile; [done|].
  rewrite delete_id by (by apply eq_None_not_Some). by destruct s.
Qed.

(** POST /api/file/share/:noteId on a note that carries no share
    identifier, in a store that can be written. *)
Lemma post_api_file_share_fresh (randomBytes : list ascii) (now now' userId noteId : string)
    (data : Note) (s : FS) :
  read_result s userId noteId = Ok data ->
  Js.truthy_opt (shareId data) = false ->
  has_user_dir (getUserDir userId) s = true ->
  has_notes_dir (getUserNotesDir userId) s = true ->
  post_api_file_share randomBytes now now' userId noteId s
  = (after_share_created randomBytes now now' userId noteId data s,
     Ok (Success (Some (toHex randomBytes)))).
Proof.
  intros Hread Hfresh Hdir Hnotes.
  unfold post_api_file_share, try_catch at 1, bind at 1.
  rewrite readNoteData_run, Hread, Hfresh. cbn [negb].
  unfold bind at 1, bind at 1. rewrite writeNoteData_run, Hdir, Hnotes.
  unfold bind at 1. rewrite ensureSharedDir_run.
  unfold bind at 1, writeFile_shared, write_in. reflexivity.
Qed.

(** POST /api/file/share/:noteId on a note that carries a share
    identifier. *)
Lemma post_api_file_share_again (randomBytes : list ascii) (now now' userId noteId token : string)
    (data : Note) (s : FS) :
  read_result s userId noteId = Ok data ->
  shareId data = Some token ->
  Js.truthy token = true ->
  post_api_file_share randomBytes now now' userId noteId s
  = (s, Ok (Success (Some token))).
Proof.
  intros Hread Hshare Htruthy.
  unfold post_api_file_share, try_catch at 1, bind at 1.
  rewrite readNoteData_run, Hread, Hshare. cbn [Js.truthy_opt].
  rewrite Htruthy. cbn. by rewrite Hshare.
Qed.

(** DELETE /api/file/share/:noteId on a note that carries a share
    identifier, in a store that can be written. *)
Lemma delete_api_file_share_run (now userId noteId token : string) (data : Note) (s : FS) :
  read_result s userId noteId = Ok data ->
  shareId data = Some token ->
  Js.truthy token = true ->
  has_user_dir (getUserDir userId) s = true ->
  has_notes_dir (getUserNotesDir userId) s = true ->
  delete_api_file_share now userId noteId s
  = (after_share_revoked now userId noteId token data s, Ok (Success tt)).
Proof.
  intros Hread Hshare Htruthy Hdir Hnotes.
  unfold delete_api_file_share, try_catch at 1, bind at 1.
  rewrite readNoteData_run, Hread. rewrite Hshare.
  change (default "" (Some token)) with token.
  cbn [Js.truthy_opt]. rewrite Htruthy.
  unfold bind at 1, bind at 1.
  rewrite unlink_shared_run, writeNoteData_run.
  change (has_user_dir (getUserDir userId) (set_shared_files ?f s))
    with (has_user_dir (getUserDir userId) s).
  change (has_notes_dir (getUserNotesDir userId) (set_shared_files ?f s))
    with (has_notes_dir (getUserNotesDir userId) s).
  by rewrite Hdir, Hnotes.
Qed.

Lemma read_after_share_created (randomBytes : list ascii) (now now' userId noteId : string)
    (data : Note) (s : FS) :
  can_store s userId noteId ->
  read_result (after_share_created randomBytes now now' userId noteId data s) userId noteId
  = Ok (set_markdown (Some (Js.or_string (markdown data) ""))
          (set_updatedAt (Some now) (set_shareId (Some (toHex randomBytes)) data))).
Proof.
  intros Hkey.
  exact (read_after_write userId noteId
           (set_updatedAt (Some now) (set_shareId (Some (toHex randomBytes)) data)) s Hkey).
Qed.

Lemma read_after_share_revoked (now userId noteId token : string) (data : Note) (s : FS) :
  can_store s userId noteId ->
  read_result (after_share_revoked now userId noteId token data s) userId noteId
  = Ok (set_markdown (Some (Js.or_string (markdown data) ""))
          (set_updatedAt (Some now) (set_shareId None data))).
Proof.
  intros Hkey.
  exact (read_after_write userId noteId (set_updatedAt (Some now) (set_shareId None data))
           (set_shared_files (delete (basename token) (shared_files s)) s) Hkey).
Qed.

(** C4, as stated, fails: alice's note carries the share identifier
    "cafe" and the shared directory has no document for it (a restore
    from a backup leaves such notes, the backup holding no share
    documents).  Creating a share answers with "cafe" and writes nothing,
    and "cafe" resolves to nothing. *)
Lemma created_share_resolves_counterexample : ~ created_share_resolves.
Proof.
  intros Hclaim.
  destruct (Hclaim dangling_disk dangling_disk sample_bytes
              "2024-01-04T00:00:00.000Z" "2024-01-04T00:00:00.001Z"
              "alice" "abc123" "cafe") as [created Hentry].
  - vm_compute. reflexivity.
  - vm_compute in Hentry. discriminate Hentry.
Qed.

(** C4 (amended): take a note that carries no share identifier yet,
    stored under an identifier that names a directory entry and is not
    ["__proto__"], in a store whose directories exist.  POST /api/file/share/:noteId succeeds with the
    token drawn; the Share Registry then holds under that token the
    originating user and note, the note carries the token, and GET
    /api/shared/ of the token answers from that very note: with its
    title, content, tags and dates when no password hash protects it, and
    after the password check otherwise.  DELETE
    /api/file/share/:noteId then succeeds; afterwards GET /api/shared/ of
    the token answers 404 "Shared file not found" and the note read back
    has no [shareId]. *)
Theorem share_create_resolve_revoke `{Platform}
    (s : FS) (randomBytes : list ascii) (now now' later userId noteId : string)
    (note : Note) :
  length randomBytes = 16 ->
  read_result s userId noteId = Ok note ->
  Js.truthy_opt (shareId note) = false ->
  has_user_dir (getUserDir userId) s = true ->
  has_notes_dir (getUserNotesDir userId) s = true ->
  storable noteId = true ->
  noteId <> "__proto__" ->
  let token := toHex randomBytes in
  let shared := set_markdown (Some (Js.or_string (markdown note) ""))
                  (set_updatedAt (Some now) (set_shareId (Some token) note)) in
  exists s1 s2 : FS,
    post_api_file_share randomBytes now now' userId noteId s
    = (s1, Ok (Success (Some token)))
    /\ shared_files s1 !! basename token
       = Some (Parsed (mkShareEntry userId noteId now'))
    /\ read_result s1 userId noteId = Ok shared
    /\ (forall given : option string,
          get_api_shared token given s1 = (s1, Ok (shared_reply shared given)))
    /\ (Js.or_false (isPasswordProtected note) && Js.truthy_opt (password note) = false ->
        forall given : option string,
          get_api_shared token given s1 = (s1, Ok (Success (shared_view shared))))
    /\ delete_api_file_share later userId noteId s1 = (s2, Ok (Success tt))
    /\ (forall given : option string,
          get_api_shared token given s2
          = (s2, Ok (Failure 404 (Text "Shared file not found"))))
    /\ read_result s2 userId noteId
       = Ok (set_updatedAt (Some later) (set_shareId None shared)).
Proof.
  intros Hlen Hread Hfresh Hdir Hnotes _ Hkey token shared.
  set (s1 := after_share_created randomBytes now now' userId noteId note s).
  set (s2 := after_share_revoked later userId noteId token shared s1).
  assert (Htoken : basename token = token) by apply basename_toHex.
  assert (Hentry : shared_files s1 !! basename token
                   = Some (Parsed (mkShareEntry userId noteId now'))).
  { rewrite Htoken. unfold s1, after_share_created. cbn. apply lookup_insert_eq. }
  assert (Hread1 : read_result s1 userId noteId = Ok shared).
  { apply read_after_share_created. by left. }
  assert (Hkey1 : can_store s1 userId noteId) by (by left).
  exists s1, s2.
  split; [by apply post_api_file_share_fresh|].
  split; [exact Hentry|]. split; [exact Hread1|].
  assert (Hget : forall given : option string,
             get_api_shared token given s1 = (s1, Ok (shared_reply shared given))).
  { intros given. rewrite get_api_shared_run. unfold shared_result.
    rewrite Hentry. cbn. by rewrite Hread1. }
  split; [exact Hget|].
  split.
  { intros Hopen given. rewrite Hget. unfold shared_reply.
    change (isPasswordProtected shared) with (isPasswordProtected note).
    change (password shared) with (password note).
    by rewrite Hopen. }
  split.
  { apply (delete_api_file_share_run later userId noteId token shared s1);
      [exact Hread1 | reflexivity | by apply truthy_toHex | exact Hdir | exact Hnotes]. }
  split.
  { intros given. rewrite get_api_shared_run. unfold shared_result.
    replace (shared_files s2 !! basename token) with (@None (json ShareEntry));
      [reflexivity|].
    unfold s2, after_share_revoked. cbn. symmetry. apply lookup_delete_eq. }
  unfold s2. rewrite read_after_share_revoked by done.
  unfold shared. cbn. by destruct (markdown note) as [[|c m]|].
Qed.

Lemma share_create_resolve_revoke_witness :
  length sample_bytes = 16
  /\ read_result groceries_disk "alice" "abc123" = Ok (set_markdown (Some "- milk") groceries)
  /\ Js.truthy_opt (shareId (set_markdown (Some "- milk") groceries)) = false
  /\ has_user_dir (getUserDir "alice") groceries_disk = true
  /\ has_notes_dir (getUserNotesDir "alice") groceries_disk = true
  /\ storable "abc123" = true
  /\ "abc123" <> "__proto__"
  /\ let token := toHex sample_bytes in
     let shared := set_markdown
                     (Some (Js.or_string (markdown (set_markdown (Some "- milk") groceries)) ""))
                     (set_updatedAt (Some "2024-01-03T00:00:00.000Z")
                        (set_shareId (Some token) (set_markdown (Some "- milk") groceries))) in
     exists s1 s2 : FS,
       post_api_file_share sample_bytes "2024-01-03T00:00:00.000Z"
         "2024-01-03T00:00:00.001Z" "alice" "abc123" groceries_disk
       = (s1, Ok (Success (Some token)))
       /\ shared_files s1 !! basename token
          = Some (Parsed (mkShareEntry "alice" "abc123" "2024-01-03T00:00:00.001Z"))
       /\ read_result s1 "alice" "abc123" = Ok shared
       /\ (forall given : option string,
             @get_api_shared sample_platform token given s1
             = (s1, Ok (@shared_reply sample_platform shared given)))
       /\ (Js.or_false (isPasswordProtected (set_markdown (Some "- milk") groceries))
           && Js.truthy_opt (password (set_markdown (Some "- milk") groceries)) = false ->
           forall given : option string,
             @get_api_shared sample_platform token given s1
             = (s1, Ok (Success (shared_view shared))))
       /\ delete_api_file_share "2024-01-05T00:00:00.000Z" "alice" "abc123" s1
          = (s2, Ok (Success tt))
       /\ (forall given : option string,
             @get_api_shared sample_platform token given s2
             = (s2, Ok (Failure 404 (Text "Shared file not found"))))
       /\ read_result s2 "alice" "abc123"
          = Ok (set_updatedAt (Some "2024-01-05T00:00:00.000Z") (set_shareId None shared)).
Proof.
  assert (H2 : read_result groceries_disk "alice" "abc123"
               = Ok (set_markdown (Some "- milk") groceries))
    by (vm_compute; reflexivity).
  assert (H4 : has_user_dir (getUserDir "alice") groceries_disk = true)
    by (vm_compute; reflexivity).
  assert (H5 : has_notes_dir (getUserNotesDir "alice") groceries_disk = true)
    by (vm_compute; reflexivity).
  assert (H6 : "abc123" <> "__proto__") by discriminate.
  split; [reflexivity|]. split; [exact H2|]. split; [reflexivity|].
  split; [exact H4|]. split; [exact H5|]. split; [reflexivity|]. split; [exact H6|].
  exact (@share_create_resolve_revoke sample_platform groceries_disk sample_bytes
           "2024-01-03T00:00:00.000Z" "2024-01-03T00:00:00.001Z"
           "2024-01-05T00:00:00.000Z" "alice" "abc123" _ eq_refl H2 eq_refl H4 H5
           eq_refl H6).
Defined.

Example shared_link_answers :
  (@get_api_shared sample_platform "6162636465666768696a6b6c6d6e6f70" None after_share).2
  = Ok (Success {| shared_title := Some "Groceries";
                   shared_markdown := Some "- milk";
                   shared_tags := ["home"];
                   shared_createdAt := Some "2024-01-01T00:00:00.000Z";
                   shared_updatedAt := Some "2024-01-03T00:00:00.000Z" |}).
Proof. vm_compute. reflexivity. Qed.

(** ** Creating a store *)

Lemma addUserToSystemIndex_run (userId : string) (s : FS) :
  addUserToSystemIndex userId s = (index_registered userId s, Ok tt).
Proof.
  unfold addUserToSystemIndex, index_registered, try_catch, bind, read, write, ret.
  destruct (users_index_file s) as [[|index]|]; cbn; try reflexivity.
  destruct (array_includes index userId); reflexivity.
Qed.

Lemma FS_eq (s s' : FS) :
  users_file s = users_file s' ->
  users_index_file s = users_index_file s' ->
  user_dirs s = user_dirs s' ->
  notes_dirs s = notes_dirs s' ->
  database_files s = database_files s' ->
  note_files s = note_files s' ->
  media_dirs s = media_dirs s' ->
  legacy_dirs s = legacy_dirs s' ->
  shared_dir s = shared_dir s' ->
  shared_files s = shared_files s' ->
  s = s'.
Proof. destruct s, s'; cbn; intros; subst; reflexivity. Qed.

Lemma index_registered_frame (userId : string) (s : FS) :
  users_file (index_registered userId s) = users_file s
  /\ user_dirs (index_registered userId s) = user_dirs s
  /\ notes_dirs (index_registered userId s) = notes_dirs s
  /\ database_files (index_registered userId s) = database_files s
  /\ note_files (index_registered userId s) = note_files s
  /\ media_dirs (index_registered userId s) = media_dirs s
  /\ legacy_dirs (index_registered userId s) = legacy_dirs s
  /\ shared_dir (index_registered userId s) = shared_dir s
  /\ shared_files (index_registered userId s) = shared_files s.
Proof.
  unfold index_registered.
  destruct (users_index_file s) as [[|index]|]; try done.
  destruct (array_includes index userId); done.
Qed.

Ltac ensured_leaf :=
  f_equal; unfold ensured;
  repeat match goal with
         | H : has_user_dir _ _ = _ |- _ => rewrite H
         | H : has_database _ _ = _ |- _ => rewrite H
         end;
  repeat match goal with
         | H : has_user_dir _ _ = true |- _ =>
             pose proof (proj1 (bool_decide_eq_true _) H); clear H
         | H : has_notes_dir _ _ = true |- _ =>
             pose proof (proj1 (bool_decide_eq_true _) H); clear H
         end;
  apply FS_eq; cbn; try reflexivity; try set_solver.

Lemma ensureUserDir_run (userId : string) (s : FS) :
  ensureUserDir userId s = (ensured userId s, Ok (getUserDir userId)).
Proof.
  unfold ensureUserDir, getUserNotesDir, getUserDatabasePath.
  set (dir := getUserDir userId).
  unfold mkdir_user_dir, mkdir_notes_dir, writeFile_database,
    bind, try_catch, read, write, write_in, ret, access.
  destruct (has_user_dir dir s) eqn:Hdir.
  - (* the user directory exists *)
    destruct (has_notes_dir dir s) eqn:Hnotes.
    + destruct (has_database dir s) eqn:Hdb.
      * subst dir. ensured_leaf.
      * rewrite Hdir. subst dir. ensured_leaf.
    + change (has_database dir (set_notes_dirs _ (set_user_dirs _ s)))
        with (has_database dir s).
      destruct (has_database dir s) eqn:Hdb.
      * subst dir. ensured_leaf.
      * unfold has_user_dir at 1. cbn.
        rewrite bool_decide_eq_true_2 by set_solver.
        subst dir. ensured_leaf.
  - (* the user directory is created *)
    unfold has_user_dir at 1. cbn.
    rewrite bool_decide_eq_true_2 by set_solver.
    rewrite addUserToSystemIndex_run.
    match goal with |- context [index_registered userId ?s0] => set (s1 := s0) end.
    destruct (index_registered_frame userId s1)
      as (Hu & Hud & Hnd & Hdb & Hnf & Hmd & Hld & Hsd & Hsf).
    assert (Hnotes1 : has_notes_dir dir (index_registered userId s1) = true).
    { unfold has_notes_dir. rewrite Hnd. apply bool_decide_eq_true_2.
      unfold s1; cbn. set_solver. }
    assert (Hdb1 : has_database dir (index_registered userId s1) = true).
    { unfold has_database. rewrite Hdb. apply bool_decide_eq_true_2.
      unfold s1; cbn. rewrite lookup_insert_eq. eauto. }
    rewrite Hnotes1, Hdb1. f_equal.
    unfold ensured. fold dir. rewrite Hdir. cbn [andb].
    destruct (index_registered_frame userId s)
      as (Hu' & Hud' & Hnd' & Hdb' & Hnf' & Hmd' & Hld' & Hsd' & Hsf').
    apply FS_eq; cbn; rewrite ?Hu, ?Hud, ?Hnd, ?Hdb, ?Hnf, ?Hmd, ?Hld, ?Hsd, ?Hsf;
      unfold s1; cbn; try done.
    + unfold index_registered. cbn.
      destruct (users_index_file s) as [[|index]|]; try done.
      destruct (array_includes index userId); done.
    + clear. set_solver.
Qed.

Lemma ensured_has_user_dir (userId : string) (s : FS) :
  has_user_dir (getUserDir userId) (ensured userId s) = true.
Proof. apply bool_decide_eq_true_2. unfold ensured. cbn. set_solver. Qed.

Lemma ensured_has_notes_dir (userId : string) (s : FS) :
  has_notes_dir (getUserNotesDir userId) (ensured userId s) = true.
Proof. apply bool_decide_eq_true_2. unfold ensured. cbn. set_solver. Qed.

Lemma ensured_note_files (userId : string) (s : FS) :
  note_files (ensured userId s) = note_files s.
Proof.
  unfold ensured. cbn.
  destruct (has_user_dir (getUserDir userId) s); [done|].
  apply index_registered_frame.
Qed.

Lemma ensured_legacy_dirs (userId : string) (s : FS) :
  legacy_dirs (ensured userId s) = legacy_dirs s.
Proof.
  unfold ensured. cbn.
  destruct (has_user_dir (getUserDir userId) s); [done|].
  apply index_registered_frame.
Qed.

Lemma ensured_database_files (userId : string) (s : FS) :
  database_files (ensured userId s) =
    if has_user_dir (getUserDir userId) s && has_database (getUserDir userId) s
    then database_files s
    else <[getUserDir userId := Parsed ∅]> (database_files s).
Proof.
  unfold ensured. cbn.
  by destruct (has_user_dir (getUserDir userId) s).
Qed.

(** On a well-formed disk [ensureUserDir] does not change what a reader
    finds in any index. *)
Lemma index_of_ensured (userId userId' : string) (s : FS) :
  disk_wf s -> index_of (ensured userId s) userId' = index_of s userId'.
Proof.
  intros Hwf. unfold index_of. rewrite ensured_database_files.
  destruct (has_user_dir (getUserDir userId) s && has_database (getUserDir userId) s)
    eqn:Hboth; [done|].
  assert (Hnone : database_files s !! getUserDir userId = None).
  { apply andb_false_iff in Hboth as [Hdir | Hdb].
    - apply eq_None_not_Some. intros Hsome.
      apply bool_decide_eq_false in Hdir. by apply Hdir, Hwf.
    - apply eq_None_not_Some. by apply bool_decide_eq_false in Hdb. }
  unfold getUserDatabasePath.
  destruct (decide (getUserDir userId = getUserDir userId')) as [Heq | Hne].
  - rewrite <- Heq, lookup_insert_eq, Hnone. done.
  - by rewrite lookup_insert_ne.
Qed.

Lemma read_result_ensured (userId userId' noteId : string) (s : FS) :
  disk_wf s ->
  read_result (ensured userId s) userId' noteId = read_result s userId' noteId.
Proof.
  intros Hwf.
  unfold read_result, from_index, legacy_result, from_legacy_split, legacy_dir.
  by rewrite index_of_ensured, ensured_note_files, ensured_legacy_dirs.
Qed.

(** ** Saving a note *)


Lemma disk_wf_dom (s : FS) :
  dom (database_files s) ⊆ user_dirs s -> disk_wf s.
Proof. intros Hdom dir Hsome. apply Hdom. by apply elem_of_dom. Qed.



Example save_under_proto :
  (exists note : Note,
     read_spec proto_disk "alice" "__proto__" = Some note
     /\ createdAt note = Some "2023-01-01T00:00:00.000Z")
  /\ exists s' : FS,
       @post_api_file sample_platform "2024-02-01T00:00:00.000Z"
         "2024-02-01T00:00:00.001Z" "salt" "alice" "__proto__" sample_request proto_disk
       = (s', Ok (Success tt))
       /\ read_result s' "alice" "__proto__"
          = Ok (set_markdown (req_markdown sample_request) no_fields).
Proof.
  split; [eexists; split; vm_compute; reflexivity|].
  eexists. split; vm_compute; reflexivity.
Qed.



(** ** Importing a backup *)

(** *** The loops of the import as functions on the disk *)

Lemma merge_notes_run (notes : list (string * Note)) :
  forall (db : gmap string Note) (n : nat),
    merge_notes db n notes = (merge_new db notes, n + length (new_keys db notes)).
Proof.
  unfold merge_notes, merge_new.
  induction notes as [|[noteId noteData] notes IH]; intros db n; cbn.
  - f_equal. lia.
  - destruct (Js.get db noteId) eqn:Hget; rewrite ?IH; cbn; try (f_equal; lia).
    apply get_undefined in Hget as [_ Hkey].
    rewrite set_insert by (by apply not_inherited_proto).
    f_equal. lia.
Qed.

Lemma import_users_run (users : list (string * Account)) :
  forall (m : gmap string Account) (n : nat) (s : FS),
    fold_each users (m, n)
      (fun '(existingUsers, importedUsers) '(username, userData) =>
         match Js.get existingUsers username with
         | Js.Undefined =>
             ensureUserDir username ;;
             ret (Js.set username userData existingUsers, S importedUsers)
         | _ => ret (existingUsers, importedUsers)
         end) s
    = (fold_left (fun s username => ensured username s) (new_keys m users) s,
       Ok (merge_new m users, n + length (new_keys m users))).
Proof.
  unfold merge_new.
  induction users as [|[username userData] users IH]; intros m n s; cbn.
  - unfold ret. do 3 f_equal. lia.
  - unfold bind at 1. destruct (Js.get m username) eqn:Hget.
    + cbn. apply IH.
    + cbn. apply IH.
    + apply get_undefined in Hget as [_ Hkey].
      rewrite set_insert by (by apply not_inherited_proto).
      unfold bind at 1. rewrite ensureUserDir_run. cbn.
      rewrite IH. do 3 f_equal. lia.
Qed.

Lemma import_users_index_run (usersIndex : option BackupUsersIndex) (s : FS) :
  import_users_index usersIndex s = (users_index_state usersIndex s, Ok tt).
Proof.
  unfold import_users_index, users_index_state.
  destruct usersIndex as [usersIndex|]; [|reflexivity].
  unfold try_catch, bind, read, write, ret.
  destruct (users_index_file s) as [[|existingIndex]|]; reflexivity.
Qed.

Lemma write_missing_has_notes_dir (username : string) (l : list (string * string)) :
  forall s : FS, notes_dirs (write_missing username l s) = notes_dirs s.
Proof.
  induction l as [|[noteId markdown] l IH]; intros s; cbn; [done|].
  rewrite IH. by destruct (has_note_file _ s).
Qed.

Lemma import_note_files_run (username : string) (notes : option (list (string * string))) (s : FS) :
  has_notes_dir (getUserNotesDir username) s = true ->
  import_note_files username notes s
  = (write_missing username (Js.or_list notes) s, Ok tt).
Proof.
  destruct notes as [l|]; [|reflexivity]. cbn.
  revert s. induction l as [|[noteId markdown] l IH]; intros s Hdir; cbn; [done|].
  unfold bind at 1, try_catch, read, access, writeFile_note, write_in.
  change (has_notes_dir (getNoteFilePath username noteId).1 s)
    with (has_notes_dir (getUserNotesDir username) s).
  rewrite Hdir.
  destruct (has_note_file (getNoteFilePath username noteId) s); cbn;
    apply IH; exact Hdir.
Qed.

Lemma import_user_data_run (n : nat) (username : string) (userData : BackupUserData) (s : FS) :
  import_user_data n username userData s
  = (user_data_state username userData s,
     Ok (n + user_data_count username userData s)).
Proof.
  unfold import_user_data, user_data_state, user_data_count, try_catch at 1, bind at 1.
  rewrite ensureUserDir_run.
  destruct (backup_database userData) as [database|].
  - unfold bind at 1. rewrite loadUserDatabase_run, merge_notes_run.
    unfold bind at 1, try_catch at 1, bind at 1.
    unfold saveUserDatabase, writeFile_database, write_in.
    unfold getUserDatabasePath at 1. rewrite ensured_has_user_dir.
    rewrite import_note_files_run by apply ensured_has_notes_dir.
    reflexivity.
  - unfold bind at 1.
    rewrite import_note_files_run by apply ensured_has_notes_dir.
    cbn. do 2 f_equal. lia.
Qed.

Lemma import_user_data_all_run (userData : list (string * BackupUserData)) :
  forall (n : nat) (s : FS),
    fold_each userData n
      (fun n '(username, userData) => import_user_data n username userData) s
    = (user_data_all userData s, Ok (user_data_total userData n s)).
Proof.
  unfold user_data_all.
  induction userData as [|[username ud] userData IH]; intros n s; cbn; [done|].
  unfold bind at 1. rewrite import_user_data_run. apply IH.
Qed.

Lemma post_api_admin_import_run (backup : Backup) (s : FS) :
  valid_backup backup ->
  post_api_admin_import (Some (Parsed backup)) s
  = (import_state backup s,
     Ok (Success
           (length (new_keys (users_of s) (Js.or_list (users backup))),
            user_data_total (Js.or_list (userData backup)) 0
              (users_index_state (usersIndex backup)
                 (users_state (Js.or_list (users backup)) s))))).
Proof.
  intros (Hversion & [users Husers] & [userData HuserData]).
  unfold post_api_admin_import, import_state, try_catch at 1, bind at 1.
  cbn [ret]. rewrite Hversion, Husers, HuserData. cbn [Js.or_list].
  unfold bind at 1, loadUsers, try_catch at 1, read at 1.
  assert (Hload : (match readFile_json (users_file s) with
                   | Ok a => (s, Ok a)
                   | Throw _ => ret ∅ s
                   end) = (s, Ok (users_of s))).
  { unfold users_of, ret. by destruct (users_file s) as [[|m]|]. }
  rewrite Hload. unfold bind at 1, import_users. rewrite import_users_run.
  unfold bind at 1, saveUsers, write. cbn [fst snd].
  unfold bind at 1. rewrite import_users_index_run.
  unfold bind at 1. rewrite import_user_data_all_run.
  reflexivity.
Qed.

(** *** Adding what is missing *)

Lemma assoc_is_Some {A} (l : list (string * A)) (k : string) (a : A) :
  (k, a) ∈ l -> is_Some (assoc l k).
Proof.
  induction l as [|[k' a'] l IH]; intros Hin; [by apply elem_of_nil in Hin|].
  cbn. case_decide; [eauto|].
  apply elem_of_cons in Hin as [[= -> ->] | Hin]; [done | by apply IH].
Qed.

Lemma assoc_elem {A} (l : list (string * A)) (k : string) (a : A) :
  assoc l k = Some a -> (k, a) ∈ l.
Proof.
  induction l as [|[k' a'] l IH]; [done|]. cbn.
  case_decide as Heq.
  - intros [= <-]. subst k'. apply list_elem_of_here.
  - intros Ha. by apply list_elem_of_further, IH.
Qed.

(** What the merge leaves under a key: the entry the dictionary had, else
    the first entry of the list, unless the key is a name that every
    object inherits: such an entry is never added. *)
Lemma merge_new_lookup {A} (l : list (string * A)) :
  forall (m : gmap string A) (k : string),
    merge_new m l !! k = match m !! k with
                         | Some a => Some a
                         | None => if Js.inherited k then None else assoc l k
                         end.
Proof.
  unfold merge_new.
  induction l as [|[k' a'] l IH]; intros m k; cbn.
  - destruct (m !! k); [done|]. by destruct (Js.inherited k).
  - rewrite IH. unfold Js.get. destruct (m !! k') eqn:Hk'.
    + destruct (m !! k) eqn:Hk; [done|].
      case_decide; [congruence | done].
    + destruct (Js.inherited k') eqn:Hinh.
      * destruct (m !! k) eqn:Hk; [done|].
        case_decide as Heq; [|done]. subst k'. by rewrite Hinh.
      * case_decide as Heq.
        -- subst k'. by rewrite lookup_insert_eq, Hk', Hinh.
        -- by rewrite lookup_insert_ne.
Qed.

Lemma merge_new_subseteq {A} (m : gmap string A) (l : list (string * A)) :
  m ⊆ merge_new m l.
Proof.
  apply map_subseteq_spec. intros k a Hk. by rewrite merge_new_lookup, Hk.
Qed.

Lemma found_own {A} (m : gmap string A) (k : string) :
  is_Some (m !! k) -> found m k.
Proof. intros [a Ha]. unfold found. by rewrite (get_own _ _ _ Ha). Qed.

Lemma found_weaken {A} (m m' : gmap string A) (k : string) :
  m ⊆ m' -> found m k -> found m' k.
Proof.
  unfold found, Js.get. intros Hsub.
  destruct (m !! k) as [a|] eqn:Hk.
  - by rewrite (lookup_weaken _ _ _ _ Hk Hsub).
  - destruct (m' !! k); [done|]. by destruct (Js.inherited k).
Qed.

Lemma merge_new_has_key {A} (m : gmap string A) (l : list (string * A)) (k : string) (a : A) :
  (k, a) ∈ l -> found (merge_new m l) k.
Proof.
  intros Hin. unfold found, Js.get. rewrite merge_new_lookup.
  destruct (m !! k); [done|].
  destruct (Js.inherited k); [done|].
  by destruct (assoc_is_Some l k a Hin) as [a' ->].
Qed.

Lemma merge_new_saturated {A} (l : list (string * A)) :
  forall m : gmap string A,
    (forall k a, (k, a) ∈ l -> found m k) ->
    merge_new m l = m /\ new_keys m l = [].
Proof.
  unfold merge_new.
  induction l as [|[k a] l IH]; intros m Hall; cbn; [done|].
  assert (Hk : found m k) by (by eapply Hall, list_elem_of_here).
  assert (Hrest : forall k0 a0, (k0, a0) ∈ l -> found m k0).
  { intros k0 a0 Hin. apply (Hall k0 a0). by apply list_elem_of_further. }
  unfold found in Hk. destruct (Js.get m k); [by apply IH | by apply IH | done].
Qed.

Lemma fold_push_new_subseteq (names : list string) :
  forall index : list string, index ⊆ fold_left push_new names index.
Proof.
  induction names as [|name names IH]; intros index; cbn; [done|].
  etrans; [|apply IH]. unfold push_new.
  destruct (array_includes index name); cbn; [done|].
  intros x Hx. apply elem_of_app. by left.
Qed.

Lemma fold_push_new_has (names : list string) :
  forall (index : list string) (name : string),
    name ∈ names -> name ∈ fold_left push_new names index.
Proof.
  induction names as [|name' names IH]; intros index name Hin;
    [by apply elem_of_nil in Hin|].
  cbn. apply elem_of_cons in Hin as [-> | Hin]; [|by apply IH].
  apply fold_push_new_subseteq. unfold push_new, array_includes.
  case_bool_decide; cbn; [done|]. apply elem_of_app. right. apply list_elem_of_here.
Qed.

Lemma fold_push_new_saturated (names : list string) :
  forall index : list string,
    (forall name, name ∈ names -> name ∈ index) ->
    fold_left push_new names index = index.
Proof.
  induction names as [|name names IH]; intros index Hall; cbn; [done|].
  unfold push_new at 2, array_includes.
  rewrite bool_decide_eq_true_2 by (apply Hall, list_elem_of_here). cbn.
  apply IH. intros name' Hin. by apply Hall, list_elem_of_further.
Qed.

(** *** The import only adds *)

Lemma grows_refl (s : FS) : grows s s.
Proof. split; try done; eauto. Qed.

Lemma grows_trans (s1 s2 s3 : FS) : grows s1 s2 -> grows s2 s3 -> grows s1 s3.
Proof.
  intros H12 H23. split.
  - etrans; [apply H12 | apply H23].
  - etrans; [apply H12 | apply H23].
  - intros dir Hsome. by apply H23, H12.
  - intros dir m Hm.
    destruct (grows_database _ _ H12 dir m Hm) as (m2 & Hm2 & Hsub2).
    destruct (grows_database _ _ H23 dir m2 Hm2) as (m3 & Hm3 & Hsub3).
    exists m3. split; [done | by etrans].
  - etrans; [apply H12 | apply H23].
  - intros l Hl.
    destruct (grows_index _ _ H12 l Hl) as (l2 & Hl2 & Hsub2).
    destruct (grows_index _ _ H23 l2 Hl2) as (l3 & Hl3 & Hsub3).
    exists l3. split; [done | by etrans].
  - intros Hunreadable.
    pose proof (grows_index_unreadable _ _ H12 Hunreadable) as H2.
    rewrite <- H2. apply H23. intros l. rewrite H2. apply Hunreadable.
Qed.

Lemma grows_index_of (s s' : FS) (userId : string) :
  grows s s' -> index_of s userId ⊆ index_of s' userId.
Proof.
  intros Hgrows. unfold index_of.
  destruct (database_files s !! getUserDatabasePath userId) as [[|m]|] eqn:Hfile;
    try apply map_empty_subseteq.
  destruct (grows_database _ _ Hgrows _ m Hfile) as (m' & -> & Hsub). exact Hsub.
Qed.

Lemma index_registered_users_index (userId : string) (s : FS) :
  (forall l, users_index_file s = Some (Parsed l) ->
     exists l', users_index_file (index_registered userId s) = Some (Parsed l') /\ l ⊆ l')
  /\ ((forall l, users_index_file s <> Some (Parsed l)) ->
      users_index_file (index_registered userId s) = users_index_file s).
Proof.
  unfold index_registered.
  destruct (users_index_file s) as [[|index]|] eqn:Hfile; split; try done.
  - intros l [= <-]. destruct (array_includes index userId); cbn.
    + exists index. by rewrite Hfile.
    + eexists. split; [done|]. intros x Hx. apply elem_of_app. by left.
  - intros Hno. by destruct (Hno index).
Qed.

Lemma ensured_users_index_file (userId : string) (s : FS) :
  users_index_file (ensured userId s) =
    users_index_file (if has_user_dir (getUserDir userId) s then s
                      else index_registered userId s).
Proof. reflexivity. Qed.

Lemma ensured_users_file (userId : string) (s : FS) :
  users_file (ensured userId s) = users_file s.
Proof.
  unfold ensured. cbn.
  destruct (has_user_dir (getUserDir userId) s); [done|].
  apply index_registered_frame.
Qed.

Lemma database_missing_when_created (userId : string) (s : FS) :
  disk_wf s ->
  has_user_dir (getUserDir userId) s && has_database (getUserDir userId) s = false ->
  database_files s !! getUserDir userId = None.
Proof.
  intros Hwf Hboth. apply eq_None_not_Some. intros Hsome.
  apply andb_false_iff in Hboth as [Hdir | Hdb].
  - apply bool_decide_eq_false in Hdir. by apply Hdir, Hwf.
  - by apply bool_decide_eq_false in Hdb.
Qed.

Lemma ensured_grows (userId : string) (s : FS) :
  disk_wf s -> grows s (ensured userId s).
Proof.
  intros Hwf. split.
  - unfold ensured. cbn. set_solver.
  - unfold ensured. cbn. set_solver.
  - intros dir Hsome. rewrite ensured_database_files.
    destruct (_ && _); [done|].
    destruct (decide (getUserDir userId = dir)) as [<- | Hne].
    + rewrite lookup_insert_eq. eauto.
    + by rewrite lookup_insert_ne.
  - intros dir m Hm. rewrite ensured_database_files.
    destruct (_ && _) eqn:Hboth; [eauto|].
    pose proof (database_missing_when_created userId s Hwf Hboth) as Hnone.
    destruct (decide (getUserDir userId = dir)) as [<- | Hne]; [congruence|].
    rewrite lookup_insert_ne by done. eauto.
  - by rewrite ensured_note_files.
  - intros l Hl. rewrite ensured_users_index_file.
    destruct (has_user_dir (getUserDir userId) s); [eauto|].
    by apply index_registered_users_index.
  - intros Hno. rewrite ensured_users_index_file.
    destruct (has_user_dir (getUserDir userId) s); [done|].
    by apply index_registered_users_index.
Qed.

Lemma ensured_wf (userId : string) (s : FS) :
  disk_wf s -> disk_wf (ensured userId s).
Proof.
  intros Hwf dir. rewrite ensured_database_files.
  unfold ensured; cbn.
  destruct (_ && _).
  - intros Hsome. apply elem_of_union_r. by apply Hwf.
  - destruct (decide (getUserDir userId = dir)) as [<- | Hne].
    + intros _. apply elem_of_union_l. by apply elem_of_singleton.
    + rewrite lookup_insert_ne by done. intros Hsome.
      apply elem_of_union_r. by apply Hwf.
Qed.

Lemma ensured_present (userId : string) (s : FS) :
  getUserDir userId ∈ user_dirs (ensured userId s)
  /\ getUserDir userId ∈ notes_dirs (ensured userId s)
  /\ is_Some (database_files (ensured userId s) !! getUserDir userId).
Proof.
  split; [unfold ensured; cbn; set_solver|].
  split; [unfold ensured; cbn; set_solver|].
  rewrite ensured_database_files.
  destruct (has_user_dir _ s); cbn; [|rewrite lookup_insert_eq; eauto].
  destruct (has_database _ s) eqn:Hdb; [|rewrite lookup_insert_eq; eauto].
  by apply bool_decide_eq_true in Hdb.
Qed.

(** The disk is already as [ensureUserDir] leaves it. *)
Lemma ensured_id (userId : string) (s : FS) :
  getUserDir userId ∈ user_dirs s ->
  getUserDir userId ∈ notes_dirs s ->
  is_Some (database_files s !! getUserDir userId) ->
  ensured userId s = s.
Proof.
  intros Hdir Hnotes Hdb. unfold ensured.
  rewrite (bool_decide_eq_true_2 _ Hdir : has_user_dir _ s = true).
  rewrite (bool_decide_eq_true_2 _ Hdb : has_database _ s = true).
  apply FS_eq; cbn; try done; set_solver.
Qed.

Lemma write_missing_frame (username : string) (l : list (string * string)) :
  forall s : FS,
    users_file (write_missing username l s) = users_file s
    /\ users_index_file (write_missing username l s) = users_index_file s
    /\ user_dirs (write_missing username l s) = user_dirs s
    /\ notes_dirs (write_missing username l s) = notes_dirs s
    /\ database_files (write_missing username l s) = database_files s
    /\ note_files s ⊆ note_files (write_missing username l s).
Proof.
  induction l as [|[noteId markdown] l IH]; intros s; cbn; [done|].
  destruct (IH (if has_note_file (getNoteFilePath username noteId) s then s
                else set_note_files
                       (<[getNoteFilePath username noteId := markdown]> (note_files s)) s))
    as (-> & -> & -> & -> & -> & Hsub).
  destruct (has_note_file (getNoteFilePath username noteId) s) eqn:Hfile;
    repeat split; try done.
  etrans; [|exact Hsub]. cbn. apply insert_subseteq.
  apply eq_None_not_Some. by apply bool_decide_eq_false in Hfile.
Qed.

Lemma write_missing_has (username : string) (l : list (string * string)) :
  forall (s : FS) (noteId markdown : string),
    (noteId, markdown) ∈ l ->
    is_Some (note_files (write_missing username l s) !! getNoteFilePath username noteId).
Proof.
  induction l as [|[noteId' markdown'] l IH]; intros s noteId markdown Hin;
    [by apply elem_of_nil in Hin|].
  cbn. apply elem_of_cons in Hin as [[= -> ->] | Hin]; [|by eapply IH].
  match goal with |- context [write_missing username l ?s0] => set (s1 := s0) end.
  assert (Hthere : is_Some (note_files s1 !! getNoteFilePath username noteId')).
  { unfold s1. destruct (has_note_file _ s) eqn:Hfile.
    - by apply bool_decide_eq_true in Hfile.
    - cbn. rewrite lookup_insert_eq. eauto. }
  destruct Hthere as [text Htext].
  destruct (write_missing_frame username l s1) as (_ & _ & _ & _ & _ & Hsub).
  exists text. by eapply lookup_weaken.
Qed.

Lemma write_missing_id (username : string) (l : list (string * string)) (s : FS) :
  (forall noteId markdown, (noteId, markdown) ∈ l ->
     is_Some (note_files s !! getNoteFilePath username noteId)) ->
  write_missing username l s = s.
Proof.
  induction l as [|[noteId markdown] l IH]; intros Hall; cbn; [done|].
  rewrite (bool_decide_eq_true_2 _ (Hall noteId markdown (list_elem_of_here _ _))
           : has_note_file _ s = true).
  apply IH. intros n md Hin. by apply (Hall n md), list_elem_of_further.
Qed.

Lemma write_missing_grows (username : string) (l : list (string * string)) (s : FS) :
  grows s (write_missing username l s).
Proof.
  destruct (write_missing_frame username l s) as (Hu & Hi & Hud & Hnd & Hdb & Hsub).
  split; rewrite ?Hud, ?Hnd, ?Hdb, ?Hi; try done; eauto.
Qed.

(** The disk after the merged index of a user is saved. *)
Lemma save_merged_grows (username : string) (notes : list (string * Note)) (s : FS) :
  grows s (set_database_files
             (<[getUserDatabasePath username :=
                  Parsed (merge_new (index_of s username) notes)]> (database_files s)) s).
Proof.
  split; cbn; try done; eauto.
  - intros dir Hsome.
    destruct (decide (getUserDatabasePath username = dir)) as [<- | Hne].
    + rewrite lookup_insert_eq. eauto.
    + by rewrite lookup_insert_ne.
  - intros dir m Hm.
    destruct (decide (getUserDatabasePath username = dir)) as [<- | Hne].
    + rewrite lookup_insert_eq. eexists. split; [done|].
      unfold index_of. rewrite Hm. apply merge_new_subseteq.
    + rewrite lookup_insert_ne by done. eauto.
Qed.

Lemma user_data_state_grows (username : string) (ud : BackupUserData) (s : FS) :
  disk_wf s -> grows s (user_data_state username ud s).
Proof.
  intros Hwf. unfold user_data_state.
  eapply grows_trans; [|apply write_missing_grows].
  eapply grows_trans; [by apply ensured_grows|].
  destruct (backup_database ud); [apply save_merged_grows | apply grows_refl].
Qed.

Lemma user_data_state_wf (username : string) (ud : BackupUserData) (s : FS) :
  disk_wf s -> disk_wf (user_data_state username ud s).
Proof.
  intros Hwf dir. unfold user_data_state.
  match goal with |- context [write_missing username ?l ?s0] =>
    destruct (write_missing_frame username l s0) as (_ & _ & -> & _ & -> & _)
  end.
  pose proof (ensured_wf username s Hwf) as Hwf1.
  destruct (backup_database ud); [|apply Hwf1]. cbn.
  destruct (decide (getUserDatabasePath username = dir)) as [<- | Hne].
  - intros _. apply ensured_present.
  - rewrite lookup_insert_ne by done. apply Hwf1.
Qed.

Lemma user_data_state_users_file (username : string) (ud : BackupUserData) (s : FS) :
  users_file (user_data_state username ud s) = users_file s.
Proof.
  unfold user_data_state.
  match goal with |- context [write_missing username ?l ?s0] =>
    destruct (write_missing_frame username l s0) as (-> & _)
  end.
  destruct (backup_database ud); cbn; apply ensured_users_file.
Qed.

Lemma user_data_state_present (username : string) (ud : BackupUserData) (s : FS) :
  user_data_present username ud (user_data_state username ud s).
Proof.
  unfold user_data_present, user_data_state.
  match goal with |- context [write_missing username ?l ?s0] =>
    set (s2 := s0);
    destruct (write_missing_frame username l s2) as (_ & _ & Hud & Hnd & Hdb & _)
  end.
  rewrite Hud, Hnd, Hdb.
  destruct (ensured_present username s) as (Hdir & Hnotes & Hfile).
  split; [by unfold s2; destruct (backup_database ud)|].
  split; [by unfold s2; destruct (backup_database ud)|].
  split.
  { unfold s2. destruct (backup_database ud); [|done]. cbn.
    rewrite lookup_insert_eq. eauto. }
  split.
  - intros database Hdatabase. unfold s2. rewrite Hdatabase. cbn.
    rewrite lookup_insert_eq. eexists. split; [done|].
    intros noteId noteData Hin. by eapply merge_new_has_key.
  - intros noteId markdown Hin. by eapply write_missing_has.
Qed.

Lemma user_data_present_grows (username : string) (ud : BackupUserData) (s s' : FS) :
  grows s s' -> user_data_present username ud s -> user_data_present username ud s'.
Proof.
  intros Hgrows (Hdir & Hnotes & Hfile & Hdatabase & Hfiles).
  split; [by apply (grows_user_dirs _ _ Hgrows)|].
  split; [by apply (grows_notes_dirs _ _ Hgrows)|].
  split; [by apply (grows_database_some _ _ Hgrows)|].
  split.
  - intros database Hsome.
    destruct (Hdatabase database Hsome) as (m & Hm & Hkeys).
    destruct (grows_database _ _ Hgrows _ m Hm) as (m' & Hm' & Hsub).
    exists m'. split; [done|]. intros noteId noteData Hin.
    eapply found_weaken; [exact Hsub | by eapply Hkeys].
  - intros noteId markdown Hin.
    destruct (Hfiles noteId markdown Hin) as [text Htext].
    exists text. eapply lookup_weaken; [exact Htext|]. apply Hgrows.
Qed.

(** When the data of a user is on the disk, its round changes nothing and
    counts nothing. *)
Lemma user_data_state_id (username : string) (ud : BackupUserData) (s : FS) :
  user_data_present username ud s ->
  user_data_state username ud s = s /\ user_data_count username ud s = 0.
Proof.
  intros (Hdir & Hnotes & Hfile & Hdatabase & Hfiles).
  unfold user_data_state, user_data_count.
  rewrite (ensured_id username s Hdir Hnotes Hfile).
  destruct (backup_database ud) as [database|].
  - destruct (Hdatabase database eq_refl) as (m & Hm & Hkeys).
    assert (Hindex : index_of s username = m)
      by (unfold index_of, getUserDatabasePath; by rewrite Hm).
    rewrite Hindex.
    destruct (merge_new_saturated (Js.or_list (backup_notes database)) m Hkeys)
      as [-> ->].
    split; [|done].
    rewrite insert_id by done.
    replace (set_database_files (database_files s) s) with s by (by destruct s).
    by apply write_missing_id.
  - split; [|done]. by apply write_missing_id.
Qed.

Lemma user_data_all_grows (userData : list (string * BackupUserData)) :
  forall s : FS,
    disk_wf s ->
    grows s (user_data_all userData s)
    /\ disk_wf (user_data_all userData s)
    /\ users_file (user_data_all userData s) = users_file s.
Proof.
  unfold user_data_all.
  induction userData as [|[username ud] userData IH]; intros s Hwf; cbn.
  - split; [apply grows_refl | done].
  - destruct (IH (user_data_state username ud s)) as (Hgrows & Hwf' & Hfile);
      [by apply user_data_state_wf|].
    split; [|split; [done|]].
    + eapply grows_trans; [by apply user_data_state_grows | done].
    + by rewrite Hfile, user_data_state_users_file.
Qed.

Lemma user_data_all_present (userData : list (string * BackupUserData)) :
  forall (s : FS) (username : string) (ud : BackupUserData),
    disk_wf s ->
    (username, ud) ∈ userData ->
    user_data_present username ud (user_data_all userData s).
Proof.
  unfold user_data_all.
  induction userData as [|[username' ud'] userData IH]; intros s username ud Hwf Hin;
    [by apply elem_of_nil in Hin|].
  cbn. apply elem_of_cons in Hin as [[= -> ->] | Hin].
  - eapply user_data_present_grows; [|apply user_data_state_present].
    apply (user_data_all_grows userData). by apply user_data_state_wf.
  - apply IH; [by apply user_data_state_wf | done].
Qed.

Lemma user_data_all_id (userData : list (string * BackupUserData)) (s : FS) :
  (forall username ud, (username, ud) ∈ userData -> user_data_present username ud s) ->
  user_data_all userData s = s /\ forall n, user_data_total userData n s = n.
Proof.
  unfold user_data_all.
  induction userData as [|[username ud] userData IH]; intros Hall; cbn; [done|].
  destruct (user_data_state_id username ud s) as [-> ->];
    [apply Hall, list_elem_of_here|].
  destruct IH as [-> Htotal].
  { intros u d Hin. by apply Hall, list_elem_of_further. }
  split; [done|]. intros n. rewrite Htotal. lia.
Qed.

Lemma users_index_state_grows (usersIndex : option BackupUsersIndex) (s : FS) :
  grows s (users_index_state usersIndex s).
Proof.
  unfold users_index_state.
  destruct usersIndex as [index|]; [|apply grows_refl].
  destruct (users_index_file s) as [[|existingIndex]|] eqn:Hfile; try apply grows_refl.
  split; cbn; try done; eauto.
  - intros l Hl. rewrite Hfile in Hl. injection Hl as <-.
    eexists. split; [done|]. apply fold_push_new_subseteq.
  - intros Hno. rewrite Hfile in Hno. by destruct (Hno existingIndex).
Qed.

Lemma users_index_state_frame (usersIndex : option BackupUsersIndex) (s : FS) :
  users_file (users_index_state usersIndex s) = users_file s
  /\ user_dirs (users_index_state usersIndex s) = user_dirs s
  /\ database_files (users_index_state usersIndex s) = database_files s.
Proof.
  unfold users_index_state.
  destruct usersIndex as [index|]; [|done].
  by destruct (users_index_file s) as [[|existingIndex]|].
Qed.

Lemma users_index_state_wf (usersIndex : option BackupUsersIndex) (s : FS) :
  disk_wf s -> disk_wf (users_index_state usersIndex s).
Proof.
  intros Hwf dir.
  destruct (users_index_state_frame usersIndex s) as (_ & -> & ->). apply Hwf.
Qed.

Lemma users_index_state_has (index : BackupUsersIndex) (s : FS) (l : list string) :
  users_index_file (users_index_state (Some index) s) = Some (Parsed l) ->
  forall username, username ∈ Js.or_list (backup_index_users index) -> username ∈ l.
Proof.
  unfold users_index_state.
  destruct (users_index_file s) as [[|existingIndex]|] eqn:Hfile; cbn;
    rewrite ?Hfile; try done.
  intros [= <-] username Hin. by apply fold_push_new_has.
Qed.

Lemma fold_ensured_grows (usernames : list string) :
  forall s : FS,
    disk_wf s ->
    let s' := fold_left (fun s username => ensured username s) usernames s in
    grows s s' /\ disk_wf s' /\ users_file s' = users_file s.
Proof.
  induction usernames as [|username usernames IH]; intros s Hwf; cbn.
  - split; [apply grows_refl | done].
  - destruct (IH (ensured username s)) as (Hgrows & Hwf' & Hfile);
      [by apply ensured_wf|].
    split; [|split; [done|]].
    + eapply grows_trans; [by apply ensured_grows | done].
    + by rewrite Hfile, ensured_users_file.
Qed.

Lemma users_state_grows (users : list (string * Account)) (s : FS) :
  disk_wf s ->
  grows s (users_state users s)
  /\ disk_wf (users_state users s)
  /\ users_file (users_state users s) = Some (Parsed (merge_new (users_of s) users)).
Proof.
  intros Hwf. unfold users_state.
  destruct (fold_ensured_grows (new_keys (users_of s) users) s Hwf)
    as (Hgrows & Hwf' & _).
  split; [|split; [exact Hwf' | done]].
  destruct Hgrows. split; done.
Qed.

(** After an import everything the backup holds is on the disk. *)
Lemma import_state_imported (backup : Backup) (s : FS) :
  disk_wf s -> imported backup (import_state backup s).
Proof.
  intros Hwf. unfold import_state.
  destruct (users_state_grows (Js.or_list (users backup)) s Hwf) as (_ & Hwf1 & Hfile1).
  set (s1 := users_state (Js.or_list (users backup)) s) in *.
  pose proof (users_index_state_wf (usersIndex backup) s1 Hwf1) as Hwf2.
  set (s2 := users_index_state (usersIndex backup) s1) in *.
  destruct (user_data_all_grows (Js.or_list (userData backup)) s2 Hwf2)
    as (Hgrows3 & _ & Hfile3).
  split; [|split].
  - eexists. split.
    + rewrite Hfile3. unfold s2.
      destruct (users_index_state_frame (usersIndex backup) s1) as (-> & _).
      exact Hfile1.
    + intros username account Hin. by eapply merge_new_has_key.
  - intros index l Hindex Hl username Hin.
    destruct (users_index_file s2) as [[|l2]|] eqn:Hfile2.
    + rewrite (grows_index_unreadable _ _ Hgrows3) in Hl; [congruence|].
      intros l'. by rewrite Hfile2.
    + destruct (grows_index _ _ Hgrows3 l2 Hfile2) as (l3 & Hl3 & Hsub).
      rewrite Hl in Hl3. injection Hl3 as <-. apply Hsub.
      unfold s2 in Hfile2. rewrite Hindex in Hfile2.
      by eapply users_index_state_has.
    + rewrite (grows_index_unreadable _ _ Hgrows3) in Hl; [congruence|].
      intros l'. by rewrite Hfile2.
  - intros username ud Hin. by apply user_data_all_present.
Qed.

(** On a disk that holds everything of the backup the import changes
    nothing and counts nothing. *)
Lemma import_state_id (backup : Backup) (s : FS) :
  imported backup s ->
  import_state backup s = s
  /\ new_keys (users_of s) (Js.or_list (users backup)) = []
  /\ user_data_total (Js.or_list (userData backup)) 0
       (users_index_state (usersIndex backup)
          (users_state (Js.or_list (users backup)) s)) = 0.
Proof.
  intros ((m & Hm & Hkeys) & Hindex & Hdata).
  assert (Husers : users_of s = m) by (unfold users_of; by rewrite Hm).
  destruct (merge_new_saturated (Js.or_list (users backup)) m Hkeys) as [Hmerge Hnew].
  assert (H1 : users_state (Js.or_list (users backup)) s = s).
  { unfold users_state. rewrite Husers, Hmerge, Hnew. cbn.
    rewrite <- Hm. by destruct s. }
  assert (H2 : users_index_state (usersIndex backup) s = s).
  { unfold users_index_state.
    destruct (usersIndex backup) as [index|] eqn:Hidx; [|done].
    destruct (users_index_file s) as [[|l]|] eqn:Hfile; try done.
    rewrite fold_push_new_saturated by (by apply (Hindex index l)).
    rewrite <- Hfile. by destruct s. }
  unfold import_state. rewrite H1, H2.
  destruct (user_data_all_id (Js.or_list (userData backup)) s Hdata) as [-> Htotal].
  by rewrite Husers, Hnew, Htotal.
Qed.

(** *** The import adds nothing but what the backup holds *)

Lemma sourced_refl (backup : Backup) (s : FS) : sourced backup s s.
Proof. split; [left; eauto | by left]. Qed.

Lemma sourced_trans (backup : Backup) (s1 s2 s3 : FS) :
  sourced backup s1 s2 -> sourced backup s2 s3 -> sourced backup s1 s3.
Proof.
  intros H12 H23. split.
  - intros dir m3 noteId noteData Hm3 Hnote.
    destruct (sourced_notes _ _ _ H23 dir m3 noteId noteData Hm3 Hnote)
      as [(m2 & Hm2 & Hnote2) | Hbackup]; [|by right].
    by apply (sourced_notes _ _ _ H12 dir m2).
  - intros path markdown Hfile.
    destruct (sourced_files _ _ _ H23 path markdown Hfile) as [Hfile2 | Hbackup];
      [|by right].
    by apply (sourced_files _ _ _ H12).
Qed.

Lemma ensured_sourced (backup : Backup) (userId : string) (s : FS) :
  sourced backup s (ensured userId s).
Proof.
  split.
  - intros dir m' noteId noteData. rewrite ensured_database_files.
    destruct (_ && _); [left; eauto|].
    destruct (decide (getUserDir userId = dir)) as [<- | Hne].
    + rewrite lookup_insert_eq. by intros [= <-].
    + rewrite lookup_insert_ne by done. left. eauto.
  - intros path markdown. rewrite ensured_note_files. by left.
Qed.

Lemma fold_ensured_sourced (backup : Backup) (usernames : list string) :
  forall s : FS,
    sourced backup s (fold_left (fun s username => ensured username s) usernames s).
Proof.
  induction usernames as [|username usernames IH]; intros s; cbn.
  - apply sourced_refl.
  - eapply sourced_trans; [apply ensured_sourced | apply IH].
Qed.

Lemma write_missing_sourced (backup : Backup) (username : string) (ud : BackupUserData) :
  (username, ud) ∈ Js.or_list (userData backup) ->
  forall (l : list (string * string)) (s : FS),
    l ⊆ Js.or_list (backup_note_files ud) ->
    sourced backup s (write_missing username l s).
Proof.
  intros Hin. induction l as [|[noteId markdown] l IH]; intros s Hl; cbn.
  { apply sourced_refl. }
  assert (Hhere : (noteId, markdown) ∈ Js.or_list (backup_note_files ud))
    by apply Hl, list_elem_of_here.
  assert (Hrest : l ⊆ Js.or_list (backup_note_files ud)).
  { intros x Hx. by apply Hl, list_elem_of_further. }
  eapply sourced_trans; [|by apply IH].
  destruct (has_note_file (getNoteFilePath username noteId) s); [apply sourced_refl|].
  split; [left; eauto|].
  intros path text. cbn.
  destruct (decide (getNoteFilePath username noteId = path)) as [<- | Hne].
  - rewrite lookup_insert_eq. intros [= <-]. right. by exists username, ud, noteId.
  - rewrite lookup_insert_ne by done. by left.
Qed.

Lemma user_data_state_sourced (backup : Backup) (username : string) (ud : BackupUserData)
    (s : FS) :
  (username, ud) ∈ Js.or_list (userData backup) ->
  sourced backup s (user_data_state username ud s).
Proof.
  intros Hin. unfold user_data_state.
  eapply sourced_trans; [|by apply (write_missing_sourced backup username ud)].
  eapply sourced_trans; [apply ensured_sourced|].
  destruct (backup_database ud) as [database|] eqn:Hdatabase; [|apply sourced_refl].
  split; [|by left].
  intros dir m' noteId noteData. cbn.
  destruct (decide (getUserDatabasePath username = dir)) as [<- | Hne].
  - rewrite lookup_insert_eq. intros [= <-]. rewrite merge_new_lookup.
    destruct (index_of (ensured username s) username !! noteId) as [x|] eqn:Hlocal.
    + intros [= <-]. left. unfold index_of in Hlocal.
      destruct (database_files (ensured username s) !! getUserDatabasePath username)
        as [[|m]|] eqn:Hfile; [done | | done].
      rewrite ensured_database_files in Hfile. eauto.
    + destruct (Js.inherited noteId); [done|]. intros Hassoc. right.
      exists username, ud, database. repeat split; try done.
      by apply assoc_elem.
  - rewrite lookup_insert_ne by done. left. eauto.
Qed.

Lemma user_data_all_sourced (backup : Backup) (entries : list (string * BackupUserData)) :
  entries ⊆ Js.or_list (userData backup) ->
  forall s : FS, sourced backup s (user_data_all entries s).
Proof.
  unfold user_data_all.
  induction entries as [|[username ud] entries IH]; intros Hsub s; cbn.
  { apply sourced_refl. }
  eapply sourced_trans.
  - apply user_data_state_sourced. apply Hsub, list_elem_of_here.
  - apply IH. intros x Hx. by apply Hsub, list_elem_of_further.
Qed.

Lemma import_state_sourced (backup : Backup) (s : FS) :
  sourced backup s (import_state backup s).
Proof.
  unfold import_state.
  eapply sourced_trans; [|by apply user_data_all_sourced].
  apply (sourced_trans _ _ (users_state (Js.or_list (users backup)) s)).
  - unfold users_state.
    pose proof (fold_ensured_sourced backup
                  (new_keys (users_of s) (Js.or_list (users backup))) s) as [Hn Hf].
    split; [exact Hn | exact Hf].
  - unfold users_index_state.
    destruct (usersIndex backup); [|apply sourced_refl].
    destruct (users_index_file _) as [[|existingIndex]|]; try apply sourced_refl.
    split; [left; eauto | by left].
Qed.

(** C3 fails on the code.  The backup holds an account "constructor" and,
    for alice, a note "toString"; alice's disk has neither.  The import
    tests [existingUsers[username]] and [existingDb.notes[noteId]], which
    find the methods every object inherits under these names: the account
    is not created, the note is not added, and the import reports that it
    imported nothing. *)
Theorem import_skips_inherited_names :
  users_of groceries_disk !! "constructor" = None
  /\ index_of groceries_disk "alice" !! "toString" = None
  /\ exists s' : FS,
       post_api_admin_import (Some (Parsed inherited_backup)) groceries_disk
       = (s', Ok (Success (0, 0)))
       /\ users_of s' !! "constructor" = None
       /\ index_of s' "alice" !! "toString" = None.
Proof.
  split; [reflexivity|]. split; [reflexivity|].
  eexists. split; [vm_compute; reflexivity|].
  split; vm_compute; reflexivity.
Qed.

(** Backup import is additive and idempotent.  On a disk whose database
    files lie in existing user directories, the import of a valid backup
    whose names the store can keep files for succeeds; importing the same
    backup again leaves the disk exactly as the first import left it and
    counts no user and no note.  Accounts: a local account is kept as it
    is; an account only the backup has is created as the backup has it,
    unless its name is a name that every object inherits.  Notes: every
    local index entry is kept as it is, every other entry is one the
    backup holds for that user directory and identifier, and every note
    of the backup's index whose identifier is no inherited name is in the
    index afterwards.  Content: every local content file keeps its text,
    every other content file has a text the backup holds for it, and
    every content file of the backup exists afterwards. *)
Theorem import_additive_idempotent (backup : Backup) (s : FS) :
  disk_wf s ->
  valid_backup backup ->
  backup_storable backup ->
  exists (s' : FS) (counts : nat * nat),
    post_api_admin_import (Some (Parsed backup)) s = (s', Ok (Success counts))
    /\ post_api_admin_import (Some (Parsed backup)) s' = (s', Ok (Success (0, 0)))
    /\ (forall username : string,
          users_of s' !! username =
            match users_of s !! username with
            | Some account => Some account
            | None => if Js.inherited username then None
                      else assoc (Js.or_list (users backup)) username
            end)
    /\ (forall userId : string, index_of s userId ⊆ index_of s' userId)
    /\ (forall (userId noteId : string) (noteData : Note),
          index_of s' userId !! noteId = Some noteData ->
          index_of s userId !! noteId = Some noteData
          \/ backup_has_note backup (getUserDir userId) noteId noteData)
    /\ (forall username ud database noteId noteData,
          (username, ud) ∈ Js.or_list (userData backup) ->
          backup_database ud = Some database ->
          (noteId, noteData) ∈ Js.or_list (backup_notes database) ->
          Js.inherited noteId = false ->
          is_Some (index_of s' username !! noteId))
    /\ note_files s ⊆ note_files s'
    /\ (forall (path : string * string) (markdown : string),
          note_files s' !! path = Some markdown ->
          note_files s !! path = Some markdown
          \/ backup_has_file backup path markdown)
    /\ (forall username ud noteId markdown,
          (username, ud) ∈ Js.or_list (userData backup) ->
          (noteId, markdown) ∈ Js.or_list (backup_note_files ud) ->
          is_Some (note_files s' !! getNoteFilePath username noteId)).
Proof.
  intros Hwf Hvalid _.
  pose proof (import_state_imported backup s Hwf) as Himported.
  destruct (import_state_id backup (import_state backup s) Himported)
    as (Hid & Hnew & Htotal).
  destruct (users_state_grows (Js.or_list (users backup)) s Hwf)
    as (Hgrows1 & Hwf1 & Hfile1).
  pose proof (users_index_state_grows (usersIndex backup)
                (users_state (Js.or_list (users backup)) s)) as Hgrows2.
  pose proof (users_index_state_wf (usersIndex backup) _ Hwf1) as Hwf2.
  destruct (user_data_all_grows (Js.or_list (userData backup)) _ Hwf2)
    as (Hgrows3 & _ & Hfile3).
  assert (Hgrows : grows s (import_state backup s)).
  { unfold import_state. eapply grows_trans; [exact Hgrows1|].
    eapply grows_trans; [exact Hgrows2 | exact Hgrows3]. }
  pose proof (import_state_sourced backup s) as Hsourced.
  destruct Himported as (_ & _ & Hpresent).
  eexists _, _. split; [by apply post_api_admin_import_run|].
  split.
  { rewrite post_api_admin_import_run by done. rewrite Hid at 1.
    by rewrite Hnew, Htotal. }
  split.
  { intros username. rewrite <- merge_new_lookup. f_equal.
    unfold users_of at 1, import_state. rewrite Hfile3.
    destruct (users_index_state_frame (usersIndex backup)
                (users_state (Js.or_list (users backup)) s)) as (-> & _).
    by rewrite Hfile1. }
  split; [intros userId; by apply grows_index_of|].
  split.
  { intros userId noteId noteData. unfold index_of at 1.
    destruct (database_files (import_state backup s) !! getUserDatabasePath userId)
      as [[|m']|] eqn:Hfile; [done| |done].
    intros Hnote.
    destruct (sourced_notes _ _ _ Hsourced _ m' noteId noteData Hfile Hnote)
      as [(m & Hm & Hlocal) | Hbackup]; [|by right].
    left. unfold index_of. by rewrite Hm. }
  split.
  { intros username ud database noteId noteData Hin Hdatabase Hnote Hkey.
    destruct (Hpresent username ud Hin) as (_ & _ & _ & Hdb & _).
    destruct (Hdb database Hdatabase) as (m & Hm & Hkeys).
    unfold index_of, getUserDatabasePath. rewrite Hm.
    specialize (Hkeys noteId noteData Hnote).
    unfold found, Js.get in Hkeys. rewrite Hkey in Hkeys.
    destruct (m !! noteId); [eauto | done]. }
  split; [apply Hgrows|].
  split; [apply Hsourced|].
  intros username ud noteId markdown Hin Hnote.
  destruct (Hpresent username ud Hin) as (_ & _ & _ & _ & Hfiles).
  by eapply Hfiles.
Qed.

Lemma sample_backup_storable : backup_storable sample_backup.
Proof.
  split.
  - intros username account Hin. cbn in Hin.
    apply elem_of_cons in Hin as [[= -> _] | Hin]; [reflexivity|].
    by apply elem_of_nil in Hin.
  - intros username ud Hin. cbn in Hin.
    apply elem_of_cons in Hin as [[= -> ->] | Hin].
    { split; [reflexivity|]. intros noteId markdown Hnote. cbn in Hnote.
      apply elem_of_cons in Hnote as [[= -> _] | Hnote]; [reflexivity|].
      apply elem_of_cons in Hnote as [[= -> _] | Hnote]; [reflexivity|].
      by apply elem_of_nil in Hnote. }
    apply elem_of_cons in Hin as [[= -> ->] | Hin]; [|by apply elem_of_nil in Hin].
    split; [reflexivity|]. intros noteId markdown Hnote. cbn in Hnote.
    by apply elem_of_nil in Hnote.
Qed.

Lemma import_additive_idempotent_witness :
  disk_wf groceries_disk
  /\ valid_backup sample_backup
  /\ backup_storable sample_backup
  /\ exists (s' : FS) (counts : nat * nat),
       post_api_admin_import (Some (Parsed sample_backup)) groceries_disk
       = (s', Ok (Success counts))
       /\ post_api_admin_import (Some (Parsed sample_backup)) s'
          = (s', Ok (Success (0, 0)))
       /\ (forall username : string,
             users_of s' !! username =
               match users_of groceries_disk !! username with
               | Some account => Some account
               | None => if Js.inherited username then None
                         else assoc (Js.or_list (users sample_backup)) username
               end)
       /\ (forall userId : string, index_of groceries_disk userId ⊆ index_of s' userId)
       /\ (forall (userId noteId : string) (noteData : Note),
             index_of s' userId !! noteId = Some noteData ->
             index_of groceries_disk userId !! noteId = Some noteData
             \/ backup_has_note sample_backup (getUserDir userId) noteId noteData)
       /\ (forall username ud database noteId noteData,
             (username, ud) ∈ Js.or_list (userData sample_backup) ->
             backup_database ud = Some database ->
             (noteId, noteData) ∈ Js.or_list (backup_notes database) ->
             Js.inherited noteId = false ->
             is_Some (index_of s' username !! noteId))
       /\ note_files groceries_disk ⊆ note_files s'
       /\ (forall (path : string * string) (markdown : string),
             note_files s' !! path = Some markdown ->
             note_files groceries_disk !! path = Some markdown
             \/ backup_has_file sample_backup path markdown)
       /\ (forall username ud noteId markdown,
             (username, ud) ∈ Js.or_list (userData sample_backup) ->
             (noteId, markdown) ∈ Js.or_list (backup_note_files ud) ->
             is_Some (note_files s' !! getNoteFilePath username noteId)).
Proof.
  assert (Hwf : disk_wf groceries_disk).
  { apply disk_wf_dom. apply (bool_decide_unpack _). vm_compute. exact I. }
  assert (Hvalid : valid_backup sample_backup).
  { split; [reflexivity|]. split; eexists; reflexivity. }
  split; [exact Hwf|]. split; [exact Hvalid|].
  split; [exact sample_backup_storable|].
  exact (import_additive_idempotent sample_backup groceries_disk Hwf Hvalid
           sample_backup_storable).
Defined.

Example import_counts :
  (post_api_admin_import (Some (Parsed sample_backup)) groceries_disk).2
  = Ok (Success (1, 1)).
Proof. vm_compute. reflexivity. Qed.

Example import_keeps_local_note :
  read_result after_import "alice" "abc123" = Ok (set_markdown (Some "- milk") groceries).
Proof. vm_compute. reflexivity. Qed.

Example import_adds_missing_note :
  read_result after_import "alice" "def456" = Ok (set_markdown (Some "- eggs") groceries).
Proof. vm_compute. reflexivity. Qed.

Example import_twice :
  post_api_admin_import (Some (Parsed sample_backup)) after_import
  = (after_import, Ok (Success (0, 0))).
Proof. vm_compute. reflexivity. Qed.

(** * More of server.js *)

(** ** Paths and identifiers *)

Example basename_examples :
  basename "a/b/" = "b" /\ basename "/" = "" /\ basename "../x" = "x"
  /\ basename "abc123" = "abc123" /\ basename ".." = "..".
Proof. repeat split; reflexivity. Qed.

Lemma hex_digit_is_hex (n : nat) : is_hex_char (hex_digit n) = true.
Proof. do 16 (destruct n as [|n]; [reflexivity|]). reflexivity. Qed.

Lemma toHex_chars (buffer : list ascii) :
  String.length (toHex buffer) = 2 * length buffer
  /\ Forall (fun c => is_hex_char c = true) (chars (toHex buffer)).
Proof.
  induction buffer as [|b buffer [IHlen IHchars]]; cbn; [by split|].
  split; [rewrite IHlen; lia|].
  repeat constructor; auto using hex_digit_is_hex.
Qed.

(** A note identifier drawn from eight random bytes is a string of
    sixteen characters of [0-9a-f]; it is not empty and it is its own
    basename, so the files of the note are named by the identifier
    itself. *)
Theorem generateNoteId_shape (randomBytes : list ascii) :
  length randomBytes = 8 ->
  String.length (generateNoteId randomBytes) = 16
  /\ Forall (fun c => is_hex_char c = true) (chars (generateNoteId randomBytes))
  /\ Js.truthy (generateNoteId randomBytes) = true
  /\ basename (generateNoteId randomBytes) = generateNoteId randomBytes.
Proof.
  intros Hlen. unfold generateNoteId.
  destruct (toHex_chars randomBytes) as [Hl Hc].
  split; [rewrite Hl, Hlen; reflexivity|].
  split; [exact Hc|].
  split; [by destruct randomBytes|].
  apply basename_toHex.
Qed.

Lemma generateNoteId_shape_witness :
  length (take 8 sample_bytes) = 8
  /\ String.length (generateNoteId (take 8 sample_bytes)) = 16
  /\ Forall (fun c => is_hex_char c = true) (chars (generateNoteId (take 8 sample_bytes)))
  /\ Js.truthy (generateNoteId (take 8 sample_bytes)) = true
  /\ basename (generateNoteId (take 8 sample_bytes)) = generateNoteId (take 8 sample_bytes).
Proof.
  split; [reflexivity|].
  apply (generateNoteId_shape (take 8 sample_bytes)). reflexivity.
Defined.

(** ** More on search *)

Lemma prefix_cons (c c' : ascii) (q s : string) :
  String.prefix (String c q) (String c' s)
  = if ascii_dec c c' then String.prefix q s else false.
Proof. reflexivity. Qed.

Lemma prefix_spec (q : string) :
  forall s : string, String.prefix q s = true <-> exists post, s = q ++ post.
Proof.
  induction q as [|c q IH]; intros s.
  - split; [intros _; exists s; reflexivity | intros _; by destruct s].
  - destruct s as [|c' s].
    + split; [intros Hp; discriminate Hp | intros [post Hpost]; discriminate Hpost].
    + rewrite prefix_cons. destruct (ascii_dec c c') as [<- | Hne].
      * rewrite IH. split; intros [post Hpost]; exists post.
        -- by rewrite append_cons, <- Hpost.
        -- rewrite append_cons in Hpost. by injection Hpost.
      * split; [done|]. intros [post Hpost].
        rewrite append_cons in Hpost. injection Hpost as Hc _. by destruct Hne.
Qed.

Lemma includes_unfold (s q : string) :
  Js.includes s q
  = if String.prefix q s then true
    else match s with
         | EmptyString => false
         | String _ s' => Js.includes s' q
         end.
Proof. by destruct s. Qed.

(** [Js.includes] is containment as a contiguous substring. *)
Lemma includes_spec (s q : string) : Js.includes s q = true <-> contains s q.
Proof.
  unfold contains. split.
  - induction s as [|c s IH]; rewrite includes_unfold.
    + destruct (String.prefix q "") eqn:Hp; [|done]. intros _.
      apply prefix_spec in Hp as [post Hpost]. by exists "", post.
    + destruct (String.prefix q (String c s)) eqn:Hp.
      * intros _. apply prefix_spec in Hp as [post Hpost]. by exists "", post.
      * intros Hin. destruct (IH Hin) as (pre & post & ->).
        by exists (String c pre), post.
  - intros (pre & post & ->). induction pre as [|c pre IH]; rewrite includes_unfold.
    + assert (Hp : String.prefix q ("" ++ q ++ post) = true)
        by (apply prefix_spec; by exists post).
      by rewrite Hp.
    + rewrite append_cons, IH.
      by destruct (String.prefix q (String c (pre ++ q ++ post))).
Qed.

Lemma search_loop_run (s : FS) (userId query : string) (l : list (string * Note)) :
  forall results : list SearchResult,
    fold_each l results
      (fun results '(noteId, metadata) =>
         try_catch
           (let notePath := getNoteFilePath userId noteId in
            markdown <~ try_catch
                          (read (fun s => readFile_text (note_files s !! notePath)))
                          (fun _ => ret "") ;;
            let tagsMatch := tagsMatch metadata query in
            title <~ match title metadata with
                     | Some t => ret t
                     | None => throw TypeError
                     end ;;
            if Js.includes (Js.toLowerCase title) query
               || (Js.truthy markdown && Js.includes (Js.toLowerCase markdown) query)
               || tagsMatch
            then ret (results ++
                        [ {| result_name := title;
                             result_path := noteId;
                             result_preview :=
                               if Js.truthy markdown then Js.substring0 100 markdown else "";
                             result_tags := Js.or_list (tags metadata) |} ])%list
            else ret results)
           (fun _ => ret results)) s
    = (s, Ok (results ++ omap (search_hit s userId query) l)%list).
Proof.
  induction l as [|[noteId metadata] l IH]; intros results; cbn.
  - by rewrite app_nil_r.
  - unfold bind at 1, try_catch at 1, bind at 1, try_catch at 1, read at 1.
    unfold search_hit at 1, content_of. cbn [fst snd].
    destruct (note_files s !! getNoteFilePath userId noteId) as [text|]; cbn;
      (destruct (title metadata) as [t|]; cbn; [|apply IH]);
      match goal with
      | |- context [if ?c then ret _ else ret _] => destruct c
      end; cbn; rewrite IH; by rewrite <- ?app_assoc.
Qed.

Lemma searchNotes_run (userId query : string) (s : FS) :
  searchNotes userId query s
  = (s, Ok (omap (search_hit s userId query) (map_to_list (index_of s userId)))).
Proof.
  unfold searchNotes, bind at 1. rewrite loadUserDatabase_run.
  exact (search_loop_run s userId query (map_to_list (index_of s userId)) []).
Qed.

(** When one round of the loop of [searchNotes] adds a result, and which. *)
Lemma search_hit_spec (s : FS) (userId query noteId : string) (metadata : Note)
    (r : SearchResult) :
  search_hit s userId query (noteId, metadata) = Some r
  <-> exists t : string,
        title metadata = Some t
        /\ (contains (Js.toLowerCase t) query
            \/ (content_of s userId noteId <> ""
                /\ contains (Js.toLowerCase (content_of s userId noteId)) query)
            \/ exists tag, tag ∈ Js.or_list (tags metadata)
                           /\ contains (Js.toLowerCase tag) query)
        /\ r = {| result_name := t;
                  result_path := noteId;
                  result_preview := Js.substring0 100 (content_of s userId noteId);
                  result_tags := Js.or_list (tags metadata) |}.
Proof.
  assert (Hpreview : forall md, (if Js.truthy md then Js.substring0 100 md else "")
                                = Js.substring0 100 md) by (by intros [|c md]).
  assert (Hcond : forall t md,
             Js.includes (Js.toLowerCase t) query
             || (Js.truthy md && Js.includes (Js.toLowerCase md) query)
             || tagsMatch metadata query = true
             <-> (contains (Js.toLowerCase t) query
                  \/ (md <> "" /\ contains (Js.toLowerCase md) query)
                  \/ exists tag, tag ∈ Js.or_list (tags metadata)
                                 /\ contains (Js.toLowerCase tag) query)).
  { intros t md.
    rewrite !orb_true_iff, andb_true_iff, !includes_spec.
    assert (Htruthy : Js.truthy md = true <-> md <> "") by (by destruct md).
    rewrite Htruthy.
    assert (Htags : tagsMatch metadata query = true
                    <-> exists tag, tag ∈ Js.or_list (tags metadata)
                                    /\ contains (Js.toLowerCase tag) query).
    { unfold tagsMatch. destruct (tags metadata) as [l|]; cbn.
      - rewrite existsb_exists. split; intros (tag & Hin & Htag); exists tag.
        + split; [by apply list_elem_of_In | by apply includes_spec].
        + split; [by apply list_elem_of_In | by apply includes_spec].
      - split; [done|]. intros (tag & Hin & _). by apply elem_of_nil in Hin. }
    rewrite Htags. tauto. }
  unfold search_hit. cbn [fst snd]. split.
  - intros Hhit. destruct (title metadata) as [t|] eqn:Ht; [|done].
    destruct (_ || _ || _) eqn:Hmatch; [|done].
    injection Hhit as <-. exists t. rewrite Hpreview.
    split; [done|]. split; [by apply Hcond | done].
  - intros (t & -> & Hmatch & ->).
    apply Hcond in Hmatch. rewrite Hmatch. by rewrite Hpreview.
Qed.

(** On a disk whose database.json, where it parses, holds a [notes]
    object, [searchNotes] reads only and returns.  Its results are exactly
    the indexed notes that have a title and whose lower-cased title, or
    non-empty lower-cased content, or some lower-cased tag contains the
    query as it is given; a match carries the title, the identifier, the
    first 100 characters of the content and the tags.  Groups are not
    consulted, and an indexed note without a title is never returned. *)
Theorem searchNotes_results (userId query : string) (s : FS) :
  exists results : list SearchResult,
    searchNotes userId query s = (s, Ok results)
    /\ forall r : SearchResult,
         r ∈ results <->
         exists (noteId : string) (metadata : Note) (t : string),
           index_of s userId !! noteId = Some metadata
           /\ title metadata = Some t
           /\ (contains (Js.toLowerCase t) query
               \/ (content_of s userId noteId <> ""
                   /\ contains (Js.toLowerCase (content_of s userId noteId)) query)
               \/ exists tag, tag ∈ Js.or_list (tags metadata)
                              /\ contains (Js.toLowerCase tag) query)
           /\ r = {| result_name := t;
                     result_path := noteId;
                     result_preview := Js.substring0 100 (content_of s userId noteId);
                     result_tags := Js.or_list (tags metadata) |}.
Proof.
  eexists. split; [apply searchNotes_run|].
  intros r. rewrite list_elem_of_omap. split.
  - intros ([noteId metadata] & Hin & Hhit).
    apply elem_of_map_to_list in Hin.
    apply search_hit_spec in Hhit as (t & Ht & Hmatch & Hr).
    by exists noteId, metadata, t.
  - intros (noteId & metadata & t & Hidx & Ht & Hmatch & Hr).
    exists (noteId, metadata). split; [by apply elem_of_map_to_list|].
    apply search_hit_spec. by exists t.
Qed.

Lemma toLowerCase_app (s t : string) :
  Js.toLowerCase (s ++ t) = Js.toLowerCase s ++ Js.toLowerCase t.
Proof.
  induction s as [|c s IH]; [reflexivity|].
  rewrite append_cons. cbn. by rewrite IH.
Qed.

(** GET /api/search ignores case on both sides, for titles and queries of
    the characters U+0000..U+00FF (which [toLowerCase] maps one by one):
    on a disk whose database files lie in existing user directories, a
    note whose title contains some spelling of the query, in whatever
    case, is among the results. *)
Theorem get_api_search_any_case (s : FS) (userId q x noteId t : string) (metadata : Note) :
  disk_wf s ->
  index_of s userId !! noteId = Some metadata ->
  title metadata = Some t ->
  contains t x ->
  Js.toLowerCase x = Js.toLowerCase q ->
  exists results : list SearchResult,
    get_api_search userId (Some q) s = (ensured userId s, Ok (Success results))
    /\ exists r : SearchResult, r ∈ results /\ result_path r = noteId /\ result_name r = t.
Proof.
  intros Hwf Hidx Ht (pre & post & ->) Hcase.
  eexists. split.
  - unfold get_api_search, try_catch, bind. rewrite ensureUserDir_run. cbn [ret].
    by rewrite searchNotes_run.
  - exists {| result_name := pre ++ x ++ post;
              result_path := noteId;
              result_preview := Js.substring0 100 (content_of (ensured userId s) userId noteId);
              result_tags := Js.or_list (tags metadata) |}.
    split; [|split; reflexivity].
    apply list_elem_of_omap. exists (noteId, metadata). split.
    + apply elem_of_map_to_list. by rewrite index_of_ensured.
    + apply search_hit_spec. exists (pre ++ x ++ post).
      split; [done|]. split; [|reflexivity].
      left. rewrite !toLowerCase_app, Hcase. by eexists _, _.
Qed.

Lemma get_api_search_any_case_witness :
  disk_wf groceries_disk
  /\ index_of groceries_disk "alice" !! "abc123" = Some (metadata_of groceries)
  /\ title (metadata_of groceries) = Some "Groceries"
  /\ contains "Groceries" "Grocer"
  /\ Js.toLowerCase "Grocer" = Js.toLowerCase "gROCER"
  /\ exists results : list SearchResult,
       get_api_search "alice" (Some "gROCER") groceries_disk
       = (ensured "alice" groceries_disk, Ok (Success results))
       /\ exists r : SearchResult,
            r ∈ results /\ result_path r = "abc123" /\ result_name r = "Groceries".
Proof.
  assert (Hwf : disk_wf groceries_disk).
  { apply disk_wf_dom. apply (bool_decide_unpack _). vm_compute. exact I. }
  assert (Hidx : index_of groceries_disk "alice" !! "abc123" = Some (metadata_of groceries)).
  { vm_compute. reflexivity. }
  assert (Hc : contains "Groceries" "Grocer") by (by exists "", "ies").
  split; [exact Hwf|]. split; [exact Hidx|]. split; [reflexivity|].
  split; [exact Hc|]. split; [reflexivity|].
  exact (get_api_search_any_case groceries_disk "alice" "gROCER" "Grocer" "abc123"
           "Groceries" (metadata_of groceries) Hwf Hidx eq_refl Hc eq_refl).
Defined.

(** ** More on listing *)

Section ListingProofs.
Context `{Platform}.

Lemma listing_loop_run (s : FS) (userId : string) (l : list (string * Note)) :
  forall notes : list NoteEntry,
    fold_each l notes
      (fun notes '(noteId, metadata) =>
         try_catch
           (let notePath := getNoteFilePath userId noteId in
            markdown <~ try_catch
                          (read (fun s => readFile_text (note_files s !! notePath)))
                          (fun _ => ret "") ;;
            ret (notes ++ [note_entry noteId metadata markdown])%list)
           (fun _ => ret notes)) s
    = (s, Ok (notes ++ map (entry_of s userId) l)%list).
Proof.
  induction l as [|[noteId metadata] l IH]; intros notes; cbn.
  - by rewrite app_nil_r.
  - unfold bind at 1, try_catch at 1, bind at 1, try_catch at 1, read at 1.
    unfold entry_of at 1, content_of. cbn [fst snd].
    destruct (note_files s !! getNoteFilePath userId noteId) as [text|]; cbn;
      rewrite IH; by rewrite <- app_assoc.
Qed.

Lemma getNotesForUser_run (userId : string) (s : FS) :
  getNotesForUser userId s
  = (s, Ok (sort_notes (map (entry_of s userId) (map_to_list (index_of s userId))))).
Proof.
  unfold getNotesForUser, bind at 1. rewrite loadUserDatabase_run.
  unfold bind.
  rewrite (listing_loop_run s userId (map_to_list (index_of s userId)) []).
  reflexivity.
Qed.

Lemma sort_insert_perm (x : NoteEntry) (l : list NoteEntry) :
  sort_insert x l ≡ₚ x :: l.
Proof.
  induction l as [|y l IH]; cbn; [done|].
  destruct (sorts_after y x); [done|].
  rewrite IH. apply perm_swap.
Qed.

Lemma sort_fold_perm (l : list NoteEntry) :
  forall sorted : list NoteEntry,
    fold_left (fun sorted x => sort_insert x sorted) l sorted ≡ₚ (sorted ++ l)%list.
Proof.
  induction l as [|x l IH]; intros sorted; cbn; [by rewrite app_nil_r|].
  rewrite IH, sort_insert_perm. by rewrite <- Permutation_middle.
Qed.

Lemma sort_notes_perm (l : list NoteEntry) : sort_notes l ≡ₚ l.
Proof. unfold sort_notes. by rewrite sort_fold_perm. Qed.

(** On a disk whose database.json, where it parses, holds a [notes]
    object, [getNotesForUser] reads only and returns.  It returns one entry
    for each entry of the index and nothing else: as many entries as the
    index has notes, no identifier twice, and for every indexed note the
    entry built from its metadata and the summary of its content file. *)
Theorem getNotesForUser_entries (userId : string) (s : FS) :
  exists notes : list NoteEntry,
    getNotesForUser userId s = (s, Ok notes)
    /\ length notes = size (index_of s userId)
    /\ NoDup (entry_id <$> notes)
    /\ forall e : NoteEntry,
         e ∈ notes <->
         exists (noteId : string) (metadata : Note),
           index_of s userId !! noteId = Some metadata
           /\ e = note_entry noteId metadata (content_of s userId noteId).
Proof.
  eexists. split; [apply getNotesForUser_run|].
  pose proof (sort_notes_perm (map (entry_of s userId) (map_to_list (index_of s userId))))
    as Hperm.
  split; [|split].
  - rewrite Hperm, length_map. apply length_map_to_list.
  - rewrite Hperm.
    change (map (entry_of s userId) (map_to_list (index_of s userId)))
      with (entry_of s userId <$> map_to_list (index_of s userId)).
    rewrite <- list_fmap_compose.
    apply (NoDup_fst_map_to_list (index_of s userId)).
  - intros e. rewrite Hperm.
    change (map (entry_of s userId) (map_to_list (index_of s userId)))
      with (entry_of s userId <$> map_to_list (index_of s userId)).
    rewrite list_elem_of_fmap. split.
    + intros ([noteId metadata] & -> & Hin). apply elem_of_map_to_list in Hin.
      by exists noteId, metadata.
    + intros (noteId & metadata & Hidx & ->). exists (noteId, metadata).
      split; [done | by apply elem_of_map_to_list].
Qed.

Lemma sort_insert_sorted (x : NoteEntry) (l : list NoteEntry) :
  is_Some (Date_getTime (entry_updatedAt x)) ->
  Forall (fun e => is_Some (Date_getTime (entry_updatedAt e))) l ->
  StronglySorted not_newer l ->
  StronglySorted not_newer (sort_insert x l).
Proof.
  intros [tx Hx] Hvalid Hsorted.
  induction Hsorted as [|y l Hsorted IH Hy]; cbn; [repeat constructor|].
  apply Forall_cons in Hvalid as [[ty Hty] Hvalid].
  unfold sorts_after, compare_updatedAt. rewrite Hx, Hty.
  destruct (0 <? tx - ty)%Z eqn:Hcmp.
  - apply Z.ltb_lt in Hcmp. constructor; [by constructor|].
    constructor.
    + exists tx, ty. repeat split; try done. lia.
    + eapply Forall_impl; [exact Hy|]. intros z (ty' & tz & Hy' & Hz & Hle).
      rewrite Hty in Hy'. injection Hy' as <-.
      exists tx, tz. repeat split; try done. lia.
  - apply Z.ltb_ge in Hcmp. constructor; [by apply IH|].
    rewrite sort_insert_perm. constructor; [|done].
    exists ty, tx. repeat split; try done. lia.
Qed.

Lemma sort_fold_sorted (l : list NoteEntry) :
  forall sorted : list NoteEntry,
    Forall (fun e => is_Some (Date_getTime (entry_updatedAt e))) l ->
    Forall (fun e => is_Some (Date_getTime (entry_updatedAt e))) sorted ->
    StronglySorted not_newer sorted ->
    StronglySorted not_newer (fold_left (fun sorted x => sort_insert x sorted) l sorted).
Proof.
  induction l as [|x l IH]; intros sorted Hl Hvalid Hsorted; cbn; [done|].
  apply Forall_cons in Hl as [Hx Hl].
  apply IH; [done | | by apply sort_insert_sorted].
  rewrite sort_insert_perm. by constructor.
Qed.

(** When the [updatedAt] of every indexed note is a valid date, the list
    [getNotesForUser] returns is ordered most recent first: no entry is
    newer than an entry before it. *)
Theorem getNotesForUser_newest_first (userId : string) (s : FS) :
  (forall noteId metadata,
     index_of s userId !! noteId = Some metadata ->
     is_Some (Date_getTime (updatedAt metadata))) ->
  exists notes : list NoteEntry,
    getNotesForUser userId s = (s, Ok notes)
    /\ StronglySorted not_newer notes.
Proof.
  intros Hvalid. eexists. split; [apply getNotesForUser_run|].
  apply sort_fold_sorted; [|constructor|constructor].
  apply Forall_forall. intros e Hin.
  change (map (entry_of s userId) (map_to_list (index_of s userId)))
    with (entry_of s userId <$> map_to_list (index_of s userId)) in Hin.
  apply list_elem_of_fmap in Hin as ([noteId metadata] & -> & Hin).
  apply elem_of_map_to_list in Hin. by eapply Hvalid.
Qed.

End ListingProofs.

Lemma getNotesForUser_newest_first_witness :
  (forall noteId metadata,
     index_of two_notes_disk "alice" !! noteId = Some metadata ->
     is_Some (@Date_getTime iso_platform (updatedAt metadata)))
  /\ exists notes : list NoteEntry,
       @getNotesForUser iso_platform "alice" two_notes_disk = (two_notes_disk, Ok notes)
       /\ StronglySorted (@not_newer iso_platform) notes.
Proof.
  assert (Hvalid : forall noteId metadata,
             index_of two_notes_disk "alice" !! noteId = Some metadata ->
             is_Some (@Date_getTime iso_platform (updatedAt metadata))).
  { intros noteId metadata.
    change (index_of two_notes_disk "alice")
      with ({["abc123" := metadata_of groceries; "fed987" := metadata_of recipes]}
            : gmap string Note).
    intros Hidx. apply lookup_insert_Some in Hidx as [[_ <-] | [_ Hidx]].
    - vm_compute. eauto.
    - apply lookup_singleton_Some in Hidx as [_ <-]. vm_compute. eauto. }
  split; [exact Hvalid|].
  exact (@getNotesForUser_newest_first iso_platform "alice" two_notes_disk Hvalid).
Defined.

Example list_most_recent_first :
  (fun r => match r with
            | Ok notes => Some (map (fun e => (entry_id e, entry_summary e)) notes)
            | Throw _ => None
            end) (@getNotesForUser iso_platform "alice" two_notes_disk).2
  = Some [("fed987", "Soup"); ("abc123", "- milk")].
Proof. vm_compute. reflexivity. Qed.

(** ** The store of a user *)

(** For a user whose name names a directory entry, [ensureUserDir]
    returns the name of the user directory; afterwards the user
    directory, the notes directory and database.json exist, accounts and
    share documents are as before, and calling it again changes
    nothing. *)
Theorem ensureUserDir_establishes_store (userId : string) (s : FS) :
  storable userId = true ->
  exists s' : FS,
    ensureUserDir userId s = (s', Ok (getUserDir userId))
    /\ has_user_dir (getUserDir userId) s' = true
    /\ has_notes_dir (getUserNotesDir userId) s' = true
    /\ has_database (getUserDatabasePath userId) s' = true
    /\ users_file s' = users_file s
    /\ note_files s' = note_files s
    /\ shared_files s' = shared_files s
    /\ ensureUserDir userId s' = (s', Ok (getUserDir userId)).
Proof.
  intros _. exists (ensured userId s).
  destruct (ensured_present userId s) as (Hdir & Hnotes & Hdb).
  split; [apply ensureUserDir_run|].
  split; [apply ensured_has_user_dir|].
  split; [apply ensured_has_notes_dir|].
  split; [by apply bool_decide_eq_true_2|].
  split; [apply ensured_users_file|].
  split; [apply ensured_note_files|].
  split.
  { unfold ensured. cbn. destruct (has_user_dir _ s); [done|].
    apply index_registered_frame. }
  rewrite ensureUserDir_run. by rewrite ensured_id.
Qed.

Lemma ensureUserDir_establishes_store_witness :
  storable "bob" = true
  /\ exists s' : FS,
       ensureUserDir "bob" groceries_disk = (s', Ok (getUserDir "bob"))
       /\ has_user_dir (getUserDir "bob") s' = true
       /\ has_notes_dir (getUserNotesDir "bob") s' = true
       /\ has_database (getUserDatabasePath "bob") s' = true
       /\ users_file s' = users_file groceries_disk
       /\ note_files s' = note_files groceries_disk
       /\ shared_files s' = shared_files groceries_disk
       /\ ensureUserDir "bob" s' = (s', Ok (getUserDir "bob")).
Proof.
  split; [reflexivity|].
  exact (ensureUserDir_establishes_store "bob" groceries_disk eq_refl).
Defined.

(** On a disk whose database files lie in existing user directories,
    [ensureUserDir] changes no note: every user reads every note as
    before, and every index is as before. *)
Theorem ensureUserDir_keeps_notes (userId : string) (s : FS) :
  disk_wf s ->
  forall userId' noteId : string,
    index_of (ensureUserDir userId s).1 userId' = index_of s userId'
    /\ readNoteData userId' noteId (ensureUserDir userId s).1
       = ((ensureUserDir userId s).1, read_result s userId' noteId).
Proof.
  intros Hwf userId' noteId. rewrite ensureUserDir_run. cbn [fst].
  split; [by apply index_of_ensured|].
  rewrite readNoteData_run. by rewrite read_result_ensured.
Qed.

Lemma ensureUserDir_keeps_notes_witness :
  disk_wf groceries_disk
  /\ forall userId' noteId : string,
       index_of (ensureUserDir "bob" groceries_disk).1 userId'
       = index_of groceries_disk userId'
       /\ readNoteData userId' noteId (ensureUserDir "bob" groceries_disk).1
          = ((ensureUserDir "bob" groceries_disk).1,
             read_result groceries_disk userId' noteId).
Proof.
  assert (Hwf : disk_wf groceries_disk).
  { apply disk_wf_dom. apply (bool_decide_unpack _). vm_compute. exact I. }
  split; [exact Hwf|].
  exact (ensureUserDir_keeps_notes "bob" groceries_disk Hwf).
Defined.

(** [addUserToSystemIndex] never throws.  When the users index is
    readable, the user is in it afterwards, every user listed before is
    still listed, a user already listed is not listed twice, and a list
    without repetition stays so; when the index is missing or does not
    parse, the disk is left as it is.  A second call changes nothing. *)
Theorem addUserToSystemIndex_registers_once (userId : string) (s : FS) :
  exists s' : FS,
    addUserToSystemIndex userId s = (s', Ok tt)
    /\ (forall index : list string,
          users_index_file s = Some (Parsed index) ->
          exists index' : list string,
            users_index_file s' = Some (Parsed index')
            /\ userId ∈ index'
            /\ index ⊆ index'
            /\ (userId ∈ index -> index' = index)
            /\ (NoDup index -> NoDup index'))
    /\ ((forall index, users_index_file s <> Some (Parsed index)) -> s' = s)
    /\ addUserToSystemIndex userId s' = (s', Ok tt).
Proof.
  exists (index_registered userId s).
  split; [apply addUserToSystemIndex_run|].
  split; [|split].
  - intros index Hindex. unfold index_registered, array_includes. rewrite Hindex.
    case_bool_decide as Hin; cbn.
    + exists index. by rewrite Hindex.
    + eexists. split; [done|].
      split; [apply elem_of_app; right; apply list_elem_of_here|].
      split; [intros x Hx; apply elem_of_app; by left|].
      split; [done|].
      intros Hnodup. apply NoDup_app. split; [done|].
      split; [|apply NoDup_singleton].
      intros x Hx Hx'. apply list_elem_of_singleton in Hx' as ->. done.
  - intros Hno. unfold index_registered.
    destruct (users_index_file s) as [[|index]|] eqn:Hfile; try done.
    by destruct (Hno index).
  - rewrite addUserToSystemIndex_run. f_equal.
    unfold index_registered at 1.
    destruct (users_index_file (index_registered userId s)) as [[|index']|] eqn:Hfile';
      try done.
    assert (Hin : array_includes index' userId = true).
    { unfold index_registered in Hfile'.
      destruct (users_index_file s) as [[|index]|] eqn:Hfile; try congruence.
      destruct (array_includes index userId) eqn:Hin.
      - rewrite Hfile in Hfile'. by injection Hfile' as <-.
      - cbn in Hfile'. injection Hfile' as <-.
        apply bool_decide_eq_true_2, elem_of_app. right. apply list_elem_of_here. }
    by rewrite Hin.
Qed.

(** ** Writes that fail, and what a write leaves alone *)

(** When the user directory exists and the notes directory does not,
    [writeNoteData] throws ENOENT after it has saved the index: for every
    identifier but ["__proto__"] (under which an assignment stores
    nothing) the disk then shows the index entry of the note, and reading
    the note yields the new metadata with empty or stale content. *)
Theorem writeNoteData_partial (userId noteId : string) (data : Note) (s : FS) :
  has_user_dir (getUserDir userId) s = true ->
  has_notes_dir (getUserNotesDir userId) s = false ->
  noteId <> "__proto__" ->
  exists s1 : FS,
    writeNoteData userId noteId data s = (s1, Throw ENOENT)
    /\ index_of s1 userId !! noteId = Some (metadata_of data)
    /\ note_files s1 = note_files s
    /\ readNoteData userId noteId s1
       = (s1, Ok (set_markdown (Some (content_of s userId noteId)) data)).
Proof.
  intros Hdir Hnotes Hkey. exists (after_index_write userId noteId data s).
  split; [by rewrite writeNoteData_run, Hdir, Hnotes|].
  split; [by rewrite index_after_index_write, lookup_set|].
  split; [done|].
  rewrite readNoteData_run. apply f_equal, read_after_index_write. by left.
Qed.

Lemma writeNoteData_partial_witness :
  has_user_dir (getUserDir "alice") no_notes_dir_disk = true
  /\ has_notes_dir (getUserNotesDir "alice") no_notes_dir_disk = false
  /\ "abc123" <> "__proto__"
  /\ exists s1 : FS,
       writeNoteData "alice" "abc123" groceries no_notes_dir_disk = (s1, Throw ENOENT)
       /\ index_of s1 "alice" !! "abc123" = Some (metadata_of groceries)
       /\ note_files s1 = note_files no_notes_dir_disk
       /\ readNoteData "alice" "abc123" s1
          = (s1, Ok (set_markdown (Some (content_of no_notes_dir_disk "alice" "abc123"))
                       groceries)).
Proof.
  split; [vm_compute; reflexivity|]. split; [vm_compute; reflexivity|].
  split; [discriminate|].
  apply (writeNoteData_partial "alice" "abc123" groceries no_notes_dir_disk);
    [vm_compute; reflexivity | vm_compute; reflexivity | discriminate].
Defined.

(** When the user directory is missing, [writeNoteData] throws ENOENT and
    writes nothing. *)
Theorem writeNoteData_without_store (userId noteId : string) (data : Note) (s : FS) :
  has_user_dir (getUserDir userId) s = false ->
  writeNoteData userId noteId data s = (s, Throw ENOENT).
Proof. intros Hdir. by rewrite writeNoteData_run, Hdir. Qed.

Lemma writeNoteData_without_store_witness :
  has_user_dir (getUserDir "bob") empty_disk = false
  /\ writeNoteData "bob" "abc123" groceries empty_disk = (empty_disk, Throw ENOENT).
Proof.
  split; [vm_compute; reflexivity|].
  apply (writeNoteData_without_store "bob" "abc123" groceries empty_disk).
  vm_compute; reflexivity.
Defined.

Lemma read_result_apart (s s' : FS) (userId noteId : string) :
  index_of s' userId !! noteId = index_of s userId !! noteId ->
  note_files s' !! getNoteFilePath userId noteId
  = note_files s !! getNoteFilePath userId noteId ->
  legacy_dirs s' = legacy_dirs s ->
  read_result s' userId noteId = read_result s userId noteId.
Proof.
  intros Hidx Hfile Hlegacy.
  unfold read_result, from_index, Js.get, legacy_result, from_legacy_split, legacy_dir.
  by rewrite Hidx, Hfile, Hlegacy.
Qed.

(** The index entry of another note after database.json of a user is
    rewritten with one entry changed. *)
Lemma index_entry_apart (userId noteId userId' noteId' : string)
    (change : gmap string Note -> gmap string Note) (s : FS) :
  getUserDir userId' <> getUserDir userId \/ noteId' <> noteId ->
  (forall m, noteId' <> noteId -> change m !! noteId' = m !! noteId') ->
  index_of (set_database_files
              (<[getUserDatabasePath userId := Parsed (change (index_of s userId))]>
                 (database_files s)) s) userId' !! noteId'
  = index_of s userId' !! noteId'.
Proof.
  intros Hapart Hchange. unfold index_of at 1, getUserDatabasePath. cbn.
  destruct (decide (getUserDir userId = getUserDir userId')) as [Heq | Hne].
  - rewrite <- Heq, lookup_insert_eq.
    destruct Hapart as [Hdir | Hid]; [by destruct Hdir|].
    rewrite Hchange by done. unfold index_of, getUserDatabasePath. by rewrite Heq.
  - by rewrite lookup_insert_ne.
Qed.

(** [writeNoteData] leaves every other note alone.  For users whose names
    name their own directories (no empty name, no [.] and no [..], which
    [path.join] resolves to a directory above), a note with another index
    entry (another user directory or another identifier) and another
    content file, whose identifier does not name the notes directory
    itself (where a legacy read would take the content files of others
    for its own), reads after the write as before it, whether the write
    succeeds or throws. *)
Theorem writeNoteData_frame (userId noteId userId' noteId' : string) (data : Note) (s : FS) :
  storable userId = true ->
  storable userId' = true ->
  basename noteId' <> "notes" ->
  getUserDir userId' <> getUserDir userId \/ noteId' <> noteId ->
  getNoteFilePath userId' noteId' <> getNoteFilePath userId noteId ->
  read_result (writeNoteData userId noteId data s).1 userId' noteId'
  = read_result s userId' noteId'.
Proof.
  intros _ _ _ Hentry Hfile.
  assert (Hidx : index_of (after_index_write userId noteId data s) userId' !! noteId'
                 = index_of s userId' !! noteId').
  { apply (index_entry_apart userId noteId userId' noteId'
             (fun m => Js.set noteId (metadata_of data) m) s Hentry).
    intros m Hne. by rewrite lookup_set_ne. }
  rewrite writeNoteData_run.
  destruct (has_user_dir (getUserDir userId) s); [|done].
  destruct (has_notes_dir (getUserNotesDir userId) s); cbn [fst].
  - apply read_result_apart; [exact Hidx | | done].
    unfold after_write. cbn. by rewrite lookup_insert_ne.
  - by apply read_result_apart.
Qed.

Lemma writeNoteData_frame_witness :
  storable "alice" = true
  /\ storable "alice" = true
  /\ basename "fed987" <> "notes"
  /\ (getUserDir "alice" <> getUserDir "alice" \/ "fed987" <> "abc123")
  /\ getNoteFilePath "alice" "fed987" <> getNoteFilePath "alice" "abc123"
  /\ read_result (writeNoteData "alice" "abc123" groceries two_notes_disk).1 "alice" "fed987"
     = read_result two_notes_disk "alice" "fed987".
Proof.
  assert (H0 : basename "fed987" <> "notes") by (vm_compute; discriminate).
  assert (H1 : getUserDir "alice" <> getUserDir "alice" \/ "fed987" <> "abc123")
    by (right; discriminate).
  assert (H2 : getNoteFilePath "alice" "fed987" <> getNoteFilePath "alice" "abc123")
    by (vm_compute; discriminate).
  split; [reflexivity|]. split; [reflexivity|]. split; [exact H0|].
  split; [exact H1|]. split; [exact H2|].
  exact (writeNoteData_frame "alice" "abc123" "alice" "fed987" groceries two_notes_disk
           eq_refl eq_refl H0 H1 H2).
Defined.

(** ** More on deleting *)

(** DELETE /api/file/:noteId does not remove a legacy copy of the note:
    for a user whose directory exists and an identifier that names a
    directory entry and is no name that every object inherits, the note
    read after the delete is what the legacy directory of the note holds,
    and it is gone only when that directory has no readable note. *)
Theorem delete_falls_back_to_legacy (userId noteId : string) (s : FS) :
  has_user_dir (getUserDir userId) s = true ->
  storable noteId = true ->
  Js.inherited noteId = false ->
  exists s' : FS,
    delete_api_file userId noteId s = (s', Ok (Success tt))
    /\ readNoteData userId noteId s' = (s', legacy_result s userId noteId).
Proof.
  intros Hdir _ Hkey. exists (after_delete userId noteId s).
  split; [by rewrite delete_api_file_run, Hdir|].
  rewrite readNoteData_run. f_equal.
  unfold read_result, from_index, Js.get.
  assert (Hidx : index_of (after_delete userId noteId s) userId
                 = delete noteId (index_of s userId)).
  { unfold index_of at 1, after_delete. cbn. by rewrite lookup_insert_eq. }
  by rewrite Hidx, lookup_delete_eq, Hkey.
Qed.

Lemma delete_falls_back_to_legacy_witness :
  has_user_dir (getUserDir "alice") legacy_disk = true
  /\ storable "abc123" = true
  /\ Js.inherited "abc123" = false
  /\ exists s' : FS,
       delete_api_file "alice" "abc123" legacy_disk = (s', Ok (Success tt))
       /\ readNoteData "alice" "abc123" s' = (s', legacy_result legacy_disk "alice" "abc123").
Proof.
  split; [vm_compute; reflexivity|]. split; [reflexivity|]. split; [reflexivity|].
  apply (delete_falls_back_to_legacy "alice" "abc123" legacy_disk);
    vm_compute; reflexivity.
Defined.

Example deleted_note_reappears :
  legacy_result legacy_disk "alice" "abc123" = Ok old_groceries.
Proof. vm_compute. reflexivity. Qed.

(** DELETE /api/file/:noteId leaves every other note alone, and the
    accounts and the users index as well.  This is for names that name
    their own directory entries: user names and a deleted identifier
    other than the empty name, [.] and [..] (the media directory of [..]
    is the notes directory itself, and the delete removes it with all it
    holds), and another note whose identifier does not name the notes
    directory. *)
Theorem delete_api_file_frame (userId noteId userId' noteId' : string) (s : FS) :
  storable userId = true ->
  storable noteId = true ->
  storable userId' = true ->
  basename noteId' <> "notes" ->
  getUserDir userId' <> getUserDir userId \/ noteId' <> noteId ->
  getNoteFilePath userId' noteId' <> getNoteFilePath userId noteId ->
  read_result (delete_api_file userId noteId s).1 userId' noteId'
  = read_result s userId' noteId'
  /\ users_file (delete_api_file userId noteId s).1 = users_file s
  /\ users_index_file (delete_api_file userId noteId s).1 = users_index_file s.
Proof.
  intros _ _ _ _ Hentry Hfile. rewrite delete_api_file_run.
  destruct (has_user_dir (getUserDir userId) s); [|done]. cbn [fst].
  split; [|done].
  apply read_result_apart; [| |done].
  - apply (index_entry_apart userId noteId userId' noteId' (delete noteId) s Hentry).
    intros m Hne. by rewrite lookup_delete_ne.
  - unfold after_delete. cbn. by rewrite lookup_delete_ne.
Qed.

Lemma delete_api_file_frame_witness :
  storable "alice" = true
  /\ storable "abc123" = true
  /\ storable "alice" = true
  /\ basename "fed987" <> "notes"
  /\ (getUserDir "alice" <> getUserDir "alice" \/ "fed987" <> "abc123")
  /\ getNoteFilePath "alice" "fed987" <> getNoteFilePath "alice" "abc123"
  /\ read_result (delete_api_file "alice" "abc123" two_notes_disk).1 "alice" "fed987"
     = read_result two_notes_disk "alice" "fed987"
  /\ users_file (delete_api_file "alice" "abc123" two_notes_disk).1
     = users_file two_notes_disk
  /\ users_index_file (delete_api_file "alice" "abc123" two_notes_disk).1
     = users_index_file two_notes_disk.
Proof.
  assert (H1 : getUserDir "alice" <> getUserDir "alice" \/ "fed987" <> "abc123")
    by (right; discriminate).
  assert (H2 : getNoteFilePath "alice" "fed987" <> getNoteFilePath "alice" "abc123")
    by (vm_compute; discriminate).
  assert (H0 : basename "fed987" <> "notes") by (vm_compute; discriminate).
  split; [reflexivity|]. split; [reflexivity|]. split; [reflexivity|].
  split; [exact H0|]. split; [exact H1|]. split; [exact H2|].
  exact (delete_api_file_frame "alice" "abc123" "alice" "fed987" two_notes_disk
           eq_refl eq_refl eq_refl H0 H1 H2).
Defined.



(** ** More on share links *)

(** What a successful POST /api/file/share/:noteId leaves on the note. *)
Lemma post_api_file_share_note (s s1 : FS) (randomBytes : list ascii)
    (now now' userId noteId token : string) :
  length randomBytes = 16 ->
  can_store s userId noteId ->
  post_api_file_share randomBytes now now' userId noteId s
    = (s1, Ok (Success (Some token))) ->
  exists note : Note,
    read_result s1 userId noteId = Ok note
    /\ shareId note = Some token
    /\ Js.truthy token = true.
Proof.
  intros Hlen Hkey. unfold post_api_file_share, try_catch at 1, bind at 1.
  rewrite readNoteData_run.
  destruct (read_result s userId noteId) as [data|e] eqn:Hread; [|discriminate].
  destruct (Js.truthy_opt (shareId data)) eqn:Hshared; cbn [negb].
  - cbn. intros [= <- Htoken]. exists data.
    destruct (shareId data) as [t|]; [|discriminate].
    injection Htoken as ->. auto.
  - unfold bind at 1, bind at 1. rewrite writeNoteData_run.
    destruct (has_user_dir (getUserDir userId) s); [|discriminate].
    destruct (has_notes_dir (getUserNotesDir userId) s); [|discriminate].
    unfold bind at 1. rewrite ensureSharedDir_run.
    unfold bind at 1, writeFile_shared, write_in. cbn.
    intros [= <- <-].
    exists (set_markdown (Some (Js.or_string (markdown data) ""))
              (set_updatedAt (Some now) (set_shareId (Some (toHex randomBytes)) data))).
    split; [|split; [reflexivity | by apply truthy_toHex]].
    by apply (read_after_write userId noteId
                (set_updatedAt (Some now) (set_shareId (Some (toHex randomBytes)) data)) s).
Qed.

(** Generating a share link is idempotent.  For a note whose index entry
    an assignment can store (its identifier is in the index or is not
    ["__proto__"]): once POST /api/file/share/:noteId has answered with a
    token, every further call answers with the same token and leaves the
    disk as it is, whatever bytes it draws. *)
Theorem post_api_file_share_idempotent (s s1 : FS) (randomBytes randomBytes' : list ascii)
    (now now' later later' userId noteId token : string) :
  length randomBytes = 16 ->
  can_store s userId noteId ->
  post_api_file_share randomBytes now now' userId noteId s
    = (s1, Ok (Success (Some token))) ->
  post_api_file_share randomBytes' later later' userId noteId s1
    = (s1, Ok (Success (Some token))).
Proof.
  intros Hlen Hkey Hpost.
  destruct (post_api_file_share_note s s1 randomBytes now now' userId noteId token
              Hlen Hkey Hpost)
    as (note & Hread & Hshare & Htruthy).
  by apply (post_api_file_share_again _ _ _ _ _ token note).
Qed.

Lemma post_api_file_share_idempotent_witness :
  length sample_bytes = 16
  /\ can_store groceries_disk "alice" "abc123"
  /\ post_api_file_share sample_bytes "2024-01-03T00:00:00.000Z"
       "2024-01-03T00:00:00.001Z" "alice" "abc123" groceries_disk
     = (after_share, Ok (Success (Some (toHex sample_bytes))))
  /\ post_api_file_share (rev sample_bytes) "2024-01-04T00:00:00.000Z"
       "2024-01-04T00:00:00.001Z" "alice" "abc123" after_share
     = (after_share, Ok (Success (Some (toHex sample_bytes)))).
Proof.
  assert (Hpost : post_api_file_share sample_bytes "2024-01-03T00:00:00.000Z"
                    "2024-01-03T00:00:00.001Z" "alice" "abc123" groceries_disk
                  = (after_share, Ok (Success (Some (toHex sample_bytes))))).
  { vm_compute. reflexivity. }
  assert (Hkey : can_store groceries_disk "alice" "abc123") by (left; discriminate).
  split; [reflexivity|]. split; [exact Hkey|]. split; [exact Hpost|].
  exact (post_api_file_share_idempotent groceries_disk after_share sample_bytes
           (rev sample_bytes) _ _ _ _ "alice" "abc123" _ eq_refl Hkey Hpost).
Defined.

(** Revoking where nothing is shared changes nothing: for a note without
    a share identifier DELETE /api/file/share/:noteId answers success and
    leaves the disk as it is; for a note that cannot be read it answers
    500 and leaves the disk as it is. *)
Theorem delete_api_file_share_nothing_shared (now userId noteId : string) (s : FS) :
  (forall note, read_result s userId noteId = Ok note ->
                Js.truthy_opt (shareId note) = false) ->
  delete_api_file_share now userId noteId s
  = (s, Ok (match read_result s userId noteId with
            | Ok _ => Success tt
            | Throw e => Failure 500 (MessageOf e)
            end)).
Proof.
  intros Hunshared. unfold delete_api_file_share, try_catch, bind.
  rewrite readNoteData_run.
  destruct (read_result s userId noteId) as [note|e]; [|done].
  by rewrite (Hunshared note eq_refl).
Qed.

Lemma delete_api_file_share_nothing_shared_witness :
  (forall note, read_result groceries_disk "alice" "abc123" = Ok note ->
                Js.truthy_opt (shareId note) = false)
  /\ delete_api_file_share "2024-01-04T00:00:00.000Z" "alice" "abc123" groceries_disk
     = (groceries_disk,
        Ok (match read_result groceries_disk "alice" "abc123" with
            | Ok _ => Success tt
            | Throw e => Failure 500 (MessageOf e)
            end)).
Proof.
  assert (H : forall note, read_result groceries_disk "alice" "abc123" = Ok note ->
                           Js.truthy_opt (shareId note) = false).
  { intros note Hread. vm_compute in Hread. by injection Hread as <-. }
  split; [exact H|].
  exact (delete_api_file_share_nothing_shared _ "alice" "abc123" groceries_disk H).
Defined.



(** A share identifier without its document cannot be repaired by
    sharing again: when a note carries a share identifier and the shared
    directory has no document for it, POST /api/file/share/:noteId answers
    with that identifier and writes nothing, and GET /api/shared/ of it
    answers 404. *)
Theorem stale_share_link_stays_dead `{Platform}
    (randomBytes : list ascii) (now now' userId noteId token : string)
    (note : Note) (given : option string) (s : FS) :
  read_result s userId noteId = Ok note ->
  shareId note = Some token ->
  Js.truthy token = true ->
  shared_files s !! basename token = None ->
  post_api_file_share randomBytes now now' userId noteId s
  = (s, Ok (Success (Some token)))
  /\ get_api_shared token given s
     = (s, Ok (Failure 404 (Text "Shared file not found"))).
Proof.
  intros Hread Hshare Htruthy Hnone. split.
  - by apply (post_api_file_share_again _ _ _ _ _ token note).
  - rewrite get_api_shared_run. unfold shared_result. by rewrite Hnone.
Qed.

Lemma stale_share_link_stays_dead_witness :
  read_result dangling_disk "alice" "abc123"
  = Ok (set_markdown (Some "- milk") shared_groceries)
  /\ shareId (set_markdown (Some "- milk") shared_groceries) = Some "cafe"
  /\ Js.truthy "cafe" = true
  /\ shared_files dangling_disk !! basename "cafe" = None
  /\ post_api_file_share sample_bytes "2024-01-04T00:00:00.000Z"
       "2024-01-04T00:00:00.001Z" "alice" "abc123" dangling_disk
     = (dangling_disk, Ok (Success (Some "cafe")))
  /\ @get_api_shared sample_platform "cafe" None dangling_disk
     = (dangling_disk, Ok (Failure 404 (Text "Shared file not found"))).
Proof.
  assert (H1 : read_result dangling_disk "alice" "abc123"
               = Ok (set_markdown (Some "- milk") shared_groceries))
    by (vm_compute; reflexivity).
  assert (H4 : shared_files dangling_disk !! basename "cafe" = None)
    by (vm_compute; reflexivity).
  split; [exact H1|]. split; [reflexivity|]. split; [reflexivity|]. split; [exact H4|].
  exact (@stale_share_link_stays_dead sample_platform sample_bytes _ _ "alice" "abc123"
           "cafe" _ None dangling_disk H1 eq_refl eq_refl H4).
Defined.

(** GET /api/shared/:shareId reads only.  It answers with the content of
    a note only when the document of the token names a readable note and,
    if the note is protected and holds a hash, the request brings a
    password that [bcrypt.compare] accepts against that hash; what it
    returns then is the title, content, tags and dates of that note. *)
Theorem get_api_shared_guards_content `{Platform}
    (token : string) (given : option string) (s s' : FS) (view : SharedNote) :
  get_api_shared token given s = (s', Ok (Success view)) ->
  s' = s
  /\ exists (sharedData : ShareEntry) (note : Note),
       shared_files s !! basename token = Some (Parsed sharedData)
       /\ read_result s (share_userId sharedData) (share_noteId sharedData) = Ok note
       /\ view = shared_view note
       /\ (forall hash : string,
             isPasswordProtected note = Some true ->
             password note = Some hash ->
             Js.truthy hash = true ->
             exists p : string,
               given = Some p /\ Js.truthy p = true /\ bcrypt_compare p hash = true).
Proof.
  rewrite get_api_shared_run. intros [= <- Hreply]. split; [done|].
  unfold shared_result in Hreply.
  destruct (shared_files s !! basename token) as [[|sharedData]|]; try done.
  destruct (read_result s (share_userId sharedData) (share_noteId sharedData))
    as [note|e] eqn:Hread; [|done].
  exists sharedData, note. split; [done|]. split; [done|].
  unfold shared_reply in Hreply.
  destruct (Js.or_false (isPasswordProtected note) && Js.truthy_opt (password note))
    eqn:Hprotected.
  - destruct (Js.truthy_opt given) eqn:Hgiven; cbn in Hreply; [|done].
    destruct given as [p|]; [|done]. cbn in Hgiven, Hreply.
    destruct (bcrypt_compare p (default "" (password note))) eqn:Hcompare;
      cbn in Hreply; [|done].
    injection Hreply as <-. split; [done|].
    intros hash _ Hhash _. exists p. rewrite Hhash in Hcompare. by cbn in Hcompare.
  - injection Hreply as <-. split; [done|].
    intros hash Hflag Hhash Htruthy.
    rewrite Hflag, Hhash in Hprotected. cbn in Hprotected. congruence.
Qed.

Lemma get_api_shared_guards_content_witness :
  @get_api_shared sample_platform "cafe" (Some "secret1") protected_disk
  = (protected_disk, Ok (Success (shared_view (set_markdown (Some "- milk") protected_groceries))))
  /\ protected_disk = protected_disk
  /\ exists (sharedData : ShareEntry) (note : Note),
       shared_files protected_disk !! basename "cafe" = Some (Parsed sharedData)
       /\ read_result protected_disk (share_userId sharedData) (share_noteId sharedData)
          = Ok note
       /\ shared_view (set_markdown (Some "- milk") protected_groceries) = shared_view note
       /\ (forall hash : string,
             isPasswordProtected note = Some true ->
             password note = Some hash ->
             Js.truthy hash = true ->
             exists p : string,
               Some "secret1" = Some p /\ Js.truthy p = true
               /\ @bcrypt_compare sample_platform p hash = true).
Proof.
  assert (Hget : @get_api_shared sample_platform "cafe" (Some "secret1") protected_disk
                 = (protected_disk,
                    Ok (Success (shared_view (set_markdown (Some "- milk") protected_groceries)))))
    by (vm_compute; reflexivity).
  split; [exact Hget|].
  exact (@get_api_shared_guards_content sample_platform "cafe" (Some "secret1")
           protected_disk protected_disk _ Hget).
Defined.

Example shared_password_required :
  (@get_api_shared sample_platform "cafe" None protected_disk).2
  = Ok (Failure 401 (Text "Password required"))
  /\ (@get_api_shared sample_platform "cafe" (Some "guess") protected_disk).2
     = Ok (Failure 401 (Text "Invalid password")).
Proof. split; vm_compute; reflexivity. Qed.

(** ** More on saving *)

Section SavingProofs.
Context `{Platform}.

(** The note POST /api/file/:noteId writes, from what it reads once the
    store exists. *)
Lemma post_api_file_run_any (created updated salt userId noteId : string)
    (body : SaveRequest) (s : FS) :
  post_api_file created updated salt userId noteId body s =
    (after_write userId noteId
       (match read_result (ensured userId s) userId noteId with
        | Ok existingData =>
            carry_forward salt body existingData (fresh_data created updated body)
        | Throw _ =>
            if new_password_given body
            then set_password (Some (bcrypt_hash salt (default "" (req_password body))))
                   (fresh_data created updated body)
            else fresh_data created updated body
        end)
       (ensured userId s),
     Ok (Success tt)).
Proof.
  unfold post_api_file, try_catch at 1, bind at 1.
  rewrite ensureUserDir_run.
  unfold bind at 1, try_catch at 1, bind at 1.
  rewrite readNoteData_run.
  destruct (read_result (ensured userId s) userId noteId) as [existing|e]; cbn [ret].
  - unfold bind at 1. rewrite writeNoteData_run.
    by rewrite ensured_has_user_dir, ensured_has_notes_dir.
  - destruct (new_password_given body); cbn [ret];
      unfold bind at 1; rewrite writeNoteData_run;
      by rewrite ensured_has_user_dir, ensured_has_notes_dir.
Qed.

(** A note that cannot be read has an identifier that an assignment to
    the index stores. *)
Lemma unreadable_can_store (s s' : FS) (userId noteId : string) (e : exn) :
  read_result s userId noteId = Throw e -> can_store s' userId noteId.
Proof.
  unfold read_result, from_index, Js.get.
  destruct (index_of s userId !! noteId); [done|].
  destruct (Js.inherited noteId) eqn:Hkey; [done|].
  intros _. left. by apply not_inherited_proto.
Qed.

(** On a disk whose database files lie in existing user directories,
    for a user name and an identifier that name directory entries, saving
    under an identifier that cannot be read creates the note: [createdAt]
    is the time of the request, there is no share identifier, the groups
    are those of the request, and a password hash is stored exactly when
    the request turns protection on and brings a password. *)
Theorem post_api_file_creates (created updated salt userId noteId : string)
    (body : SaveRequest) (s : FS) (e : exn) :
  disk_wf s ->
  storable userId = true ->
  storable noteId = true ->
  read_result s userId noteId = Throw e ->
  exists (s' : FS) (saved : Note),
    post_api_file created updated salt userId noteId body s = (s', Ok (Success tt))
    /\ read_result s' userId noteId = Ok saved
    /\ createdAt saved = Some created
    /\ shareId saved = None
    /\ groups saved = Some (Js.or_list (req_groups body))
    /\ password saved =
         (if new_password_given body
          then Some (bcrypt_hash salt (default "" (req_password body)))
          else None).
Proof.
  intros Hwf _ _ Hread.
  eexists _, _. split; [apply post_api_file_run_any|].
  split; [apply read_after_write; by apply (unreadable_can_store s _ _ _ e)|].
  rewrite read_result_ensured, Hread by done.
  by destruct (new_password_given body).
Qed.

End SavingProofs.

Lemma post_api_file_creates_witness :
  disk_wf groceries_disk
  /\ storable "alice" = true
  /\ storable "fed987" = true
  /\ read_result groceries_disk "alice" "fed987" = Throw ENOENT
  /\ exists (s' : FS) (saved : Note),
       @post_api_file sample_platform "2024-02-01T00:00:00.000Z" "2024-02-01T00:00:00.001Z"
         "salt" "alice" "fed987" sample_request groceries_disk = (s', Ok (Success tt))
       /\ read_result s' "alice" "fed987" = Ok saved
       /\ createdAt saved = Some "2024-02-01T00:00:00.000Z"
       /\ shareId saved = None
       /\ groups saved = Some (Js.or_list (req_groups sample_request))
       /\ password saved =
            (if new_password_given sample_request
             then Some (@bcrypt_hash sample_platform "salt"
                          (default "" (req_password sample_request)))
             else None).
Proof.
  assert (Hwf : disk_wf groceries_disk).
  { apply disk_wf_dom. apply (bool_decide_unpack _). vm_compute. exact I. }
  assert (Hread : read_result groceries_disk "alice" "fed987" = Throw ENOENT)
    by (vm_compute; reflexivity).
  split; [exact Hwf|]. split; [reflexivity|]. split; [reflexivity|].
  split; [exact Hread|].
  exact (@post_api_file_creates sample_platform _ _ "salt" "alice" "fed987"
           sample_request groceries_disk ENOENT Hwf eq_refl eq_refl Hread).
Defined.

(** ** Creating and importing single notes *)

Lemma generateNoteId_stored (randomBytes : list ascii) (userId : string) (s : FS) :
  length randomBytes = 8 -> can_store s userId (generateNoteId randomBytes).
Proof.
  intros Hlen. left. intros Heq. apply (f_equal String.length) in Heq.
  unfold generateNoteId in Heq.
  destruct (toHex_chars randomBytes) as [Hl _]. rewrite Hl, Hlen in Heq.
  discriminate.
Qed.

(** POST /api/files/new, for a user whose name names a directory entry,
    with the eight random bytes it draws and a name that is a string or
    missing: it succeeds, whatever the store holds, and answers with the
    identifier drawn, and the note read back under it, also through GET /api/file,
    is an empty, unshared, unprotected note titled as asked ("Untitled"
    when no name is sent) with the timestamps of the request. *)
Theorem post_api_files_new_creates (randomBytes : list ascii) (created updated userId : string)
    (name : option string) (s : FS) :
  length randomBytes = 8 ->
  storable userId = true ->
  exists s' : FS,
    post_api_files_new randomBytes created updated userId name s
    = (s', Ok (Success (generateNoteId randomBytes)))
    /\ get_api_file userId (generateNoteId randomBytes) s'
       = (s', Ok (Success
                    {| title := Some (Js.or_string name "Untitled");
                       markdown := Some "";
                       tags := Some [];
                       groups := Some [];
                       isPasswordProtected := Some false;
                       password := None;
                       shareId := None;
                       createdAt := Some created;
                       updatedAt := Some updated |})).
Proof.
  intros Hlen _. eexists. split.
  - unfold post_api_files_new, try_catch, bind.
    rewrite ensureUserDir_run, writeNoteData_run.
    rewrite ensured_has_user_dir, ensured_has_notes_dir. reflexivity.
  - unfold get_api_file, try_catch, bind.
    rewrite readNoteData_run, read_after_write by (by apply generateNoteId_stored).
    reflexivity.
Qed.

Lemma post_api_files_new_creates_witness :
  length (take 8 sample_bytes) = 8
  /\ storable "bob" = true
  /\ exists s' : FS,
       post_api_files_new (take 8 sample_bytes) "2024-02-01T00:00:00.000Z"
         "2024-02-01T00:00:00.001Z" "bob" (Some "Plans") empty_disk
       = (s', Ok (Success (generateNoteId (take 8 sample_bytes))))
       /\ get_api_file "bob" (generateNoteId (take 8 sample_bytes)) s'
          = (s', Ok (Success
                       {| title := Some (Js.or_string (Some "Plans") "Untitled");
                          markdown := Some "";
                          tags := Some [];
                          groups := Some [];
                          isPasswordProtected := Some false;
                          password := None;
                          shareId := None;
                          createdAt := Some "2024-02-01T00:00:00.000Z";
                          updatedAt := Some "2024-02-01T00:00:00.001Z" |})).
Proof.
  split; [reflexivity|]. split; [reflexivity|].
  exact (post_api_files_new_creates (take 8 sample_bytes) _ _ "bob" (Some "Plans")
           empty_disk eq_refl eq_refl).
Defined.

(** POST /api/notes/import, for a user whose name names a directory
    entry, with the eight random bytes it draws and a title and a content
    that are strings or missing: without a title or without content
    (missing or empty) it answers 400 and leaves the disk as it is;
    otherwise it succeeds and the note read back under the identifier
    drawn has exactly the title and the content sent, no tags, no share,
    no protection. *)
Theorem post_api_notes_import_round_trip (randomBytes : list ascii)
    (created updated userId : string) (given content : option string) (s : FS) :
  length randomBytes = 8 ->
  storable userId = true ->
  exists (s' : FS) (r : reply string),
    post_api_notes_import randomBytes created updated userId given content s = (s', Ok r)
    /\ if Js.truthy_opt given && Js.truthy_opt content
       then r = Success (generateNoteId randomBytes)
            /\ read_result s' userId (generateNoteId randomBytes)
               = Ok {| title := given;
                       markdown := content;
                       tags := Some [];
                       groups := None;
                       isPasswordProtected := Some false;
                       password := None;
                       shareId := None;
                       createdAt := Some created;
                       updatedAt := Some updated |}
       else r = Failure 400 (Text "Title and content are required") /\ s' = s.
Proof.
  intros Hlen _. unfold post_api_notes_import, try_catch, bind.
  destruct (Js.truthy_opt given) eqn:Ht; cbn [negb orb andb].
  - destruct (Js.truthy_opt content) eqn:Hc; cbn [negb].
    + rewrite ensureUserDir_run, writeNoteData_run.
      rewrite ensured_has_user_dir, ensured_has_notes_dir. cbn [ret].
      eexists _, _. split; [reflexivity|]. split; [reflexivity|].
      rewrite read_after_write by (by apply generateNoteId_stored). cbn.
      destruct content as [c|]; [|done]. cbn in Hc. unfold Js.or_string. by rewrite Hc.
    + eexists _, _. split; [reflexivity|]. done.
  - eexists _, _. split; [reflexivity|]. done.
Qed.

Lemma post_api_notes_import_round_trip_witness :
  length (take 8 sample_bytes) = 8
  /\ storable "bob" = true
  /\ exists (s' : FS) (r : reply string),
       post_api_notes_import (take 8 sample_bytes) "2024-02-01T00:00:00.000Z"
         "2024-02-01T00:00:00.001Z" "bob" (Some "Plans") (Some "- pack") empty_disk
       = (s', Ok r)
       /\ if Js.truthy_opt (Some "Plans") && Js.truthy_opt (Some "- pack")
          then r = Success (generateNoteId (take 8 sample_bytes))
               /\ read_result s' "bob" (generateNoteId (take 8 sample_bytes))
                  = Ok {| title := Some "Plans";
                          markdown := Some "- pack";
                          tags := Some [];
                          groups := None;
                          isPasswordProtected := Some false;
                          password := None;
                          shareId := None;
                          createdAt := Some "2024-02-01T00:00:00.000Z";
                          updatedAt := Some "2024-02-01T00:00:00.001Z" |}
          else r = Failure 400 (Text "Title and content are required")
               /\ s' = empty_disk.
Proof.
  split; [reflexivity|]. split; [reflexivity|].
  exact (post_api_notes_import_round_trip (take 8 sample_bytes) _ _ "bob"
           (Some "Plans") (Some "- pack") empty_disk eq_refl eq_refl).
Defined.

(** ** Updating metadata *)

Section MetadataProofs.
Context `{Platform}.


(** A note that cannot be read is answered with 500 and costs nothing:
    GET /api/file, the metadata route and both share routes leave the
    disk as it is. *)
Theorem unreadable_note_answers_500 (randomBytes : list ascii)
    (now now' salt userId noteId : string) (body : MetadataRequest) (e : exn) (s : FS) :
  read_result s userId noteId = Throw e ->
  get_api_file userId noteId s = (s, Ok (Failure 500 (MessageOf e)))
  /\ post_api_file_metadata now salt userId noteId body s
     = (s, Ok (Failure 500 (MessageOf e)))
  /\ post_api_file_share randomBytes now now' userId noteId s
     = (s, Ok (Failure 500 (MessageOf e)))
  /\ delete_api_file_share now userId noteId s
     = (s, Ok (Failure 500 (MessageOf e))).
Proof.
  intros Hread.
  unfold get_api_file, post_api_file_metadata, post_api_file_share,
    delete_api_file_share, try_catch, bind.
  rewrite !readNoteData_run, Hread. done.
Qed.

End MetadataProofs.


(** Under ["__proto__"] the metadata route answers success and changes
    nothing: the tags it is asked to set are not on the note read back. *)
Example metadata_under_proto :
  exists s' : FS,
    @post_api_file_metadata sample_platform "2024-02-02T00:00:00.000Z" "salt"
      "alice" "__proto__" unprotect_request alice_disk = (s', Ok (Success tt))
    /\ index_of s' "alice" = ∅
    /\ read_result s' "alice" "__proto__" = Ok (set_markdown (Some "") no_fields).
Proof. eexists. repeat split; vm_compute; reflexivity. Qed.

Lemma unreadable_note_answers_500_witness :
  read_result groceries_disk "alice" "fed987" = Throw ENOENT
  /\ get_api_file "alice" "fed987" groceries_disk
     = (groceries_disk, Ok (Failure 500 (MessageOf ENOENT)))
  /\ @post_api_file_metadata sample_platform "2024-02-02T00:00:00.000Z" "salt"
       "alice" "fed987" unprotect_request groceries_disk
     = (groceries_disk, Ok (Failure 500 (MessageOf ENOENT)))
  /\ post_api_file_share sample_bytes "2024-02-02T00:00:00.000Z" "2024-02-02T00:00:00.001Z"
       "alice" "fed987" groceries_disk
     = (groceries_disk, Ok (Failure 500 (MessageOf ENOENT)))
  /\ delete_api_file_share "2024-02-02T00:00:00.000Z" "alice" "fed987" groceries_disk
     = (groceries_disk, Ok (Failure 500 (MessageOf ENOENT))).
Proof.
  assert (H1 : read_result groceries_disk "alice" "fed987" = Throw ENOENT)
    by (vm_compute; reflexivity).
  split; [exact H1|].
  exact (@unreadable_note_answers_500 sample_platform sample_bytes _ _ "salt"
           "alice" "fed987" unprotect_request ENOENT groceries_disk H1).
Defined.

(** ** The rate limit of the login *)

Lemma record_failures_within (ip : string) (start : Z) (later : list (Z * Z)) :
  Forall (fun t => (t.1 - start <= LOCKOUT_TIME)%Z) later ->
  forall (n : nat) (loginAttempts : gmap string Attempt),
    loginAttempts !! ip = Some (mkAttempt n start) ->
    record_failures ip later loginAttempts
    = <[ip := mkAttempt (n + length later) start]> loginAttempts.
Proof.
  unfold record_failures.
  induction 1 as [|[now now'] later Hnow _ IH]; intros n loginAttempts Hip; cbn.
  - rewrite Nat.add_0_r. symmetry. by apply insert_id.
  - unfold recordFailedAttempt at 2. rewrite Hip. cbn [timestamp count].
    cbn in Hnow. destruct (Z.ltb_spec LOCKOUT_TIME (now - start)) as [Hlt|_]; [lia|].
    rewrite (IH (S n)) by apply lookup_insert_eq.
    rewrite insert_insert_eq. do 2 f_equal. lia.
Qed.

(** Rate limit: the failures of an address are counted in a window that
    opens at its first failure.  While the window is open the address
    passes the check exactly when it has failed fewer than five times;
    once more than fifteen minutes have passed since the first failure
    the address passes and its record is erased.  A later failure does
    not move the window, and the records of other addresses are not
    touched. *)
Theorem rate_limit_window (ip : string) (first first' now : Z) (later : list (Z * Z))
    (loginAttempts : gmap string Attempt) :
  loginAttempts !! ip = None ->
  Forall (fun t => (t.1 - first' <= LOCKOUT_TIME)%Z) later ->
  let attempts := record_failures ip ((first, first') :: later) loginAttempts in
  attempts !! ip = Some (mkAttempt (S (length later)) first')
  /\ (forall ip', ip' <> ip -> attempts !! ip' = loginAttempts !! ip')
  /\ checkRateLimit ip now attempts
     = (if (LOCKOUT_TIME <? now - first')%Z
        then (true, loginAttempts)
        else (bool_decide (S (length later) < MAX_LOGIN_ATTEMPTS)%nat, attempts)).
Proof.
  intros Hnone Hlater attempts.
  assert (Hattempts : attempts
                      = <[ip := mkAttempt (S (length later)) first']> loginAttempts).
  { unfold attempts, record_failures. cbn [fold_left].
    unfold recordFailedAttempt at 2. rewrite Hnone.
    fold (record_failures ip later (<[ip := mkAttempt 1 first']> loginAttempts)).
    rewrite (record_failures_within ip first' later Hlater 1)
      by apply lookup_insert_eq.
    by rewrite insert_insert_eq. }
  rewrite Hattempts. split; [apply lookup_insert_eq|].
  split; [intros ip' Hne; by rewrite lookup_insert_ne|].
  unfold checkRateLimit. rewrite lookup_insert_eq. cbn [timestamp count].
  destruct (LOCKOUT_TIME <? now - first')%Z.
  - f_equal. rewrite delete_insert_eq. by apply delete_id.
  - f_equal. destruct (Nat.ltb_spec (S (length later)) MAX_LOGIN_ATTEMPTS).
    + by rewrite bool_decide_eq_true_2.
    + rewrite bool_decide_eq_false_2; [done|lia].
Qed.

Lemma rate_limit_window_witness :
  (∅ : gmap string Attempt) !! "10.0.0.7" = None
  /\ Forall (fun t => (t.1 - 1001 <= LOCKOUT_TIME)%Z)
       [(2000, 2000); (3000, 3001); (4000, 4000); (900000, 900000)]%Z
  /\ let attempts :=
       record_failures "10.0.0.7"
         [(1000, 1001); (2000, 2000); (3000, 3001); (4000, 4000); (900000, 900000)]%Z
         ∅ in
     attempts !! "10.0.0.7" = Some (mkAttempt 5 1001)
     /\ (forall ip', ip' <> "10.0.0.7" -> attempts !! ip' = (∅ : gmap string Attempt) !! ip')
     /\ checkRateLimit "10.0.0.7" 901000 attempts
        = (if (LOCKOUT_TIME <? 901000 - 1001)%Z
           then (true, ∅)
           else (bool_decide (5 < MAX_LOGIN_ATTEMPTS)%nat, attempts)).
Proof.
  assert (H1 : (∅ : gmap string Attempt) !! "10.0.0.7" = None) by reflexivity.
  assert (H2 : Forall (fun t => (t.1 - 1001 <= LOCKOUT_TIME)%Z)
                 [(2000, 2000); (3000, 3001); (4000, 4000); (900000, 900000)]%Z).
  { repeat constructor; vm_compute; discriminate. }
  split; [exact H1|]. split; [exact H2|].
  exact (rate_limit_window "10.0.0.7" 1000 1001 901000
           [(2000, 2000); (3000, 3001); (4000, 4000); (900000, 900000)]%Z ∅ H1 H2).
Defined.

Example fifth_failure_locks :
  (checkRateLimit "10.0.0.7" 5000
     (record_failures "10.0.0.7"
        [(1000, 1000); (2000, 2000); (3000, 3000); (4000, 4000)]%Z ∅)).1 = true
  /\ (checkRateLimit "10.0.0.7" 6000
        (record_failures "10.0.0.7"
           [(1000, 1000); (2000, 2000); (3000, 3000); (4000, 4000); (5000, 5000)]%Z ∅)).1
     = false.
Proof. split; vm_compute; reflexivity. Qed.

(** ** Import: what is refused *)

(** POST /api/admin/import answers every upload and checks it before it
    writes.  An upload it refuses (no file: 400, no JSON: 500, a version,
    the users or the user data missing: 400) leaves the disk as it was;
    every other upload succeeds when the names of its users and notes
    name directory entries. *)
Theorem post_api_admin_import_refusal (file : option (json Backup)) (s : FS) :
  exists (s' : FS) (answer : reply (nat * nat)),
    post_api_admin_import file s = (s', Ok answer)
    /\ match file with
       | None => answer = Failure 400 (Text "No backup file provided") /\ s' = s
       | Some Malformed => answer = Failure 500 (MessageOf SyntaxError) /\ s' = s
       | Some (Parsed backup) =>
           if decide (valid_backup backup)
           then backup_storable backup ->
                exists counts : nat * nat, answer = Success counts
           else answer = Failure 400 (Text "Invalid backup file format") /\ s' = s
       end.
Proof.
  destruct file as [[|backup]|]; [by eexists _, _ | | by eexists _, _].
  destruct (decide (valid_backup backup)) as [Hvalid|Hinvalid].
  - eexists _, _. split; [by apply post_api_admin_import_run | by eexists].
  - exists s, (Failure 400 (Text "Invalid backup file format")). split; [|done].
    unfold post_api_admin_import, try_catch, bind, ret, valid_backup in *.
    destruct (Js.truthy_opt (version backup)) eqn:Hversion,
             (users backup) as [users|] eqn:Husers,
             (userData backup) as [userData|] eqn:HuserData; try done.
    destruct Hinvalid. by eauto.
Qed.

(** ** Export of a user's notes *)

Lemma export_loop_run (s : FS) (userId : string) (l : list (string * Note)) :
  forall archive : list (string * string),
    fold_each l archive
      (fun archive '(noteId, metadata) =>
         try_catch
           (let notePath := getNoteFilePath userId noteId in
            markdown <~ try_catch
                          (read (fun s => readFile_text (note_files s !! notePath)))
                          (fun _ => ret "") ;;
            title <~ match title metadata with
                     | Some t => ret t
                     | None => throw TypeError
                     end ;;
            let safeTitle := safeTitle title in
            let filename := safeTitle ++ ".md" in
            ret (archive ++ [(filename, markdown)])%list)
           (fun _ => ret archive)) s
    = (s, Ok (archive ++ omap (export_entry s userId) l)%list).
Proof.
  induction l as [|[noteId metadata] l IH]; intros archive; cbn.
  - by rewrite app_nil_r.
  - unfold bind at 1, try_catch at 1, bind at 1, try_catch at 1, read at 1.
    unfold export_entry at 1, content_of. cbn [fst snd].
    destruct (note_files s !! getNoteFilePath userId noteId) as [text|]; cbn;
      (destruct (title metadata) as [t|]; cbn; [|apply IH]);
      rewrite IH; by rewrite <- ?app_assoc.
Qed.

Lemma length_omap_le {A B} (f : A -> option B) (l : list A) :
  (length (omap f l) <= length l)%nat.
Proof.
  induction l as [|a l IH]; cbn; [done|].
  destruct (f a); cbn; lia.
Qed.

Lemma safeTitle_chars (t : string) :
  Forall (fun c => is_safe_char c = true) (chars (safeTitle t)).
Proof.
  unfold safeTitle, chars.
  induction t as [|c t IH]; cbn; constructor; [|exact IH].
  clear. destruct c as [[] [] [] [] [] [] [] []]; reflexivity.
Qed.

(** On a disk whose database.json, where it parses, holds a [notes]
    object, GET /api/notes/export reads only and does not answer 500.
    Without an indexed note it answers 404.  Otherwise the entries of the archive
    are those of the indexed notes that have a title, each with the text
    of the content file of the note (empty when the file is missing);
    a note without a title gets no entry, and there are never more
    entries than notes.  The name of an entry is made of the title
    alone: characters of [a-z0-9_] followed by ".md", so no entry names
    a path outside the archive. *)
Theorem get_api_notes_export_archive (userId : string) (s : FS) :
  exists answer : reply (list (string * string)),
    get_api_notes_export userId s = (s, Ok answer)
    /\ if decide (index_of s userId = ∅)
       then answer = Failure 404 (Text "No notes found")
       else exists archive : list (string * string),
           answer = Success archive
           /\ (forall e : string * string,
                 e ∈ archive <->
                 exists (noteId : string) (metadata : Note) (t : string),
                   index_of s userId !! noteId = Some metadata
                   /\ title metadata = Some t
                   /\ e = (safeTitle t ++ ".md", content_of s userId noteId))
           /\ (length archive <= size (index_of s userId))%nat
           /\ Forall (fun e => exists stem : string,
                          e.1 = stem ++ ".md"
                          /\ Forall (fun c => is_safe_char c = true) (chars stem))
                     archive.
Proof.
  unfold get_api_notes_export, try_catch at 1, bind at 1.
  rewrite loadUserDatabase_run.
  destruct (decide (index_of s userId = ∅)) as [Hempty|Hnotes].
  - rewrite Hempty, map_to_list_empty. by eexists.
  - destruct (map_to_list (index_of s userId)) as [|entry l] eqn:Hlist.
    { by apply map_to_list_empty_iff in Hlist. }
    cbn [length Nat.eqb]. rewrite <- Hlist. unfold bind at 1.
    rewrite (export_loop_run s userId (map_to_list (index_of s userId)) []).
    cbn [app]. eexists. split; [reflexivity|]. eexists. split; [reflexivity|].
    split; [|split].
    + intros e. rewrite list_elem_of_omap. split.
      * intros ([noteId metadata] & Hin & Hentry).
        apply elem_of_map_to_list in Hin. unfold export_entry in Hentry.
        cbn [fst snd] in Hentry.
        destruct (title metadata) as [t|] eqn:Ht; [|done].
        injection Hentry as <-. by exists noteId, metadata, t.
      * intros (noteId & metadata & t & Hidx & Ht & ->).
        exists (noteId, metadata). split; [by apply elem_of_map_to_list|].
        unfold export_entry. cbn [fst snd]. by rewrite Ht.
    + rewrite <- length_map_to_list. apply length_omap_le.
    + apply Forall_forall. intros e Hin.
      apply list_elem_of_omap in Hin as ([noteId metadata] & _ & Hentry).
      unfold export_entry in Hentry. cbn [fst snd] in Hentry.
      destruct (title metadata) as [t|]; [|done].
      injection Hentry as <-. exists (safeTitle t).
      split; [reflexivity | apply safeTitle_chars].
Qed.

Example export_names_clash :
  exists s' : FS,
    get_api_notes_export "alice" same_name_disk
    = (s', Ok (Success [("my_note.md", "one"); ("my_note.md", "two")])).
Proof. eexists. vm_compute. reflexivity. Qed.
